(** * FinancialAnalyzerCLI: normaliser, ratio engine and consistency verifier

    A shallow embedding of

      - [src/utils/constants.py]        (FINANCIAL_ITEM_MAPPING),
      - [src/data_extraction/mapper.py] (standardize_statements),
      - [src/data_extraction/extractor.py]
                                        (get_financial_statements),
      - [src/analysis/ratios.py]        (_safe_division,
                                         calculate_single_period_ratios,
                                         calculate_historical_ratios,
                                         calculate_sector_ratios),
      - [src/analysis/verifier.py]      (verify_financial_consistency),
      - [src/main.py]                   (the column handed to the verifier
                                         and to the ratio engine),

    together with the statements of the specification that concern them.

    Python floats are IEEE 754 binary64 values and are modelled by Rocq's
    primitive floats, so every arithmetic step below is the one the
    interpreter performs, roundings, signed zeros, infinities and NaN
    included.  Dictionaries whose iteration order the code observes are
    insertion-ordered association lists; dictionaries and Series that are
    only read by key, or only written under fixed keys, are [gmap]s. *)

From Stdlib Require Import ZArith Floats.
From stdpp Require Import base option list gmap strings fin_maps sorting.

Set Warnings "-inexact-float,-clear-no-such-hyp".
Set Default Proof Using "Type".

Open Scope string_scope.

(** ** The part of the Python runtime the code relies on *)

(** The exceptions that can occur in the modelled code. *)
Inductive exn : Type :=
| TypeError
| ValueError
| OverflowError
| KeyError.

Definition exn_eqb (a b : exn) : bool :=
  match a, b with
  | TypeError, TypeError | ValueError, ValueError
  | OverflowError, OverflowError | KeyError, KeyError => true
  | _, _ => false
  end.

(** A computation either returns a value or raises. *)
Inductive res (A : Type) : Type :=
| Ok (a : A)
| Raise (e : exn).
Arguments Ok {A} a.
Arguments Raise {A} e.

#[global] Instance res_ret : MRet res := fun _ a => Ok a.
#[global] Instance res_bind : MBind res := fun _ _ k c =>
  match c with
  | Ok a => k a
  | Raise e => Raise e
  end.
#[global] Instance res_fmap : FMap res := fun _ _ g c =>
  match c with
  | Ok a => Ok (g a)
  | Raise e => Raise e
  end.

(** [try: body  except (caught...): handler]. *)
Definition try_except {A} (body : res A) (caught : list exn) (handler : res A)
  : res A :=
  match body with
  | Ok a => Ok a
  | Raise e => if existsb (exn_eqb e) caught then handler else Raise e
  end.

(** A [for] loop over [l] whose body may raise: the first exception ends
    the loop. *)
Fixpoint fold_res {A B} (body : A → B → res A) (acc : A) (l : list B)
  : res A :=
  match l with
  | [] => Ok acc
  | x :: rest => acc' ← body acc x; fold_res body acc' rest
  end.

(** The values a dictionary entry, a Series element or a DataFrame cell can
    hold: [None]; pandas' missing markers ([pd.NA], [pd.NaT]); booleans;
    unbounded integers; floats (numpy's float64 included); strings; and
    [PObj], any other scalar object, which [float()] rejects with a
    TypeError and which pandas does not regard as missing. *)
Inductive pyval : Type :=
| PNone
| PNA
| PBool (b : bool)
| PInt (z : Z)
| PFloat (f : float)
| PStr (s : string)
| PObj.

Definition is_None (v : pyval) : bool :=
  match v with PNone => true | _ => false end.

(** An [Optional[float]] seen as a Python value. *)
Definition of_opt (o : option float) : pyval :=
  match o with Some f => PFloat f | None => PNone end.

(** [pd.isna] / [pd.notna] on a scalar. *)
Definition pd_isna (v : pyval) : bool :=
  match v with
  | PNone | PNA => true
  | PFloat f => is_nan f
  | PBool _ | PInt _ | PStr _ | PObj => false
  end.
Definition pd_notna (v : pyval) : bool := negb (pd_isna v).

(** [float(n)] for an integer [n]: the nearest binary64 value, ties to
    even; an integer beyond the range of binary64 raises OverflowError. *)
Definition float_of_Z (z : Z) : float :=
  SF2Prim (binary_normalize prec emax z 0 false).

Definition float_of_int (z : Z) : res float :=
  let f := float_of_Z z in
  if is_infinity f then Raise OverflowError else Ok f.

(** [x or 0.0] for an [Optional[float]]: [None] and zero are falsy, NaN is
    truthy. *)
Definition or_zero (x : option float) : float :=
  match x with
  | None => 0%float
  | Some f => if (f =? 0)%float then 0%float else f
  end.

(** Insertion-ordered dictionaries: [d[k] = v] overwrites in place when
    [k] is already a key and appends otherwise. *)
Section OrderedDict.
Context {K V : Type} `{EqDecision K}.

Fixpoint dict_get (d : list (K * V)) (k : K) : option V :=
  match d with
  | [] => None
  | (k', v) :: rest => if decide (k' = k) then Some v else dict_get rest k
  end.

Fixpoint dict_set (d : list (K * V)) (k : K) (v : V) : list (K * V) :=
  match d with
  | [] => [(k, v)]
  | (k', v') :: rest =>
      if decide (k' = k) then (k', v) :: rest
      else (k', v') :: dict_set rest k v
  end.
End OrderedDict.

(** A [pd.Timestamp]: a calendar day and a time within it.  The string
    [strftime('%Y-%m-%d')] names the day and nothing else, and
    [pd.to_datetime] of that string is midnight of the same day, so the
    string is represented by the day it names. *)
Record Timestamp : Type := { ts_day : Z; ts_time : N }.

#[global] Instance Timestamp_eq_dec : EqDecision Timestamp.
Proof. solve_decision. Defined.

Definition strftime_Ymd (t : Timestamp) : Z := ts_day t.
Definition to_datetime_Ymd (period_str : Z) : Timestamp :=
  {| ts_day := period_str; ts_time := 0 |}.

(** A column label of a raw statement: a Timestamp, [NaT], or anything
    else an Index can hold. *)
Inductive label : Type :=
| LTimestamp (t : Timestamp)
| LNaT
| LOther (v : pyval).

(** [isinstance(l, pd.Timestamp)], with the Timestamp. *)
Definition label_timestamp (l : label) : option Timestamp :=
  match l with
  | LTimestamp t => Some t
  | LNaT | LOther _ => None
  end.

(** A raw statement as yfinance delivers it: the row labels, whether the
    columns form a [pd.DatetimeIndex], and the columns, each with one cell
    per row. *)
Record RawFrame : Type := {
  raw_index : list string;
  raw_is_datetime : bool;
  raw_columns : list (label * list pyval)
}.

(** [df.empty]: some axis has length zero. *)
Definition raw_empty (df : RawFrame) : bool :=
  bool_decide (raw_index df = []) || bool_decide (raw_columns df = []).

(** A frame of floats with Timestamp columns (the Standardized Matrix):
    row labels, and the columns with one cell per row, NaN where there is
    no value. *)
Record Frame : Type := {
  frame_index : list string;
  frame_columns : list (Timestamp * list float)
}.

Definition frame_empty (df : Frame) : bool :=
  bool_decide (frame_index df = []) || bool_decide (frame_columns df = []).

(** The frame of ratios: per period, the ratio dictionary of that period;
    an absent entry and [None] both show as NaN. *)
Record RatioFrame : Type := {
  ratio_columns : list (Timestamp * gmap string (option float))
}.

(** ** src/utils/constants.py *)

Definition FINANCIAL_ITEM_MAPPING : list (string * list string) := [
  ("revenue", ["Total Revenue"; "Revenue"; "totalRevenue"]);
  ("cost_of_revenue", ["Cost Of Revenue"; "Cost of Revenue"; "costOfRevenue"]);
  ("gross_profit", ["Gross Profit"; "grossProfit"]);
  ("research_development",
     ["Research Development"; "researchDevelopmentExpense"]);
  ("selling_general_administrative",
     ["Selling General Administrative"; "Selling General and Administrative";
      "sellingGeneralAdministrative"; "sellingGeneralAndAdministrative"]);
  ("operating_expenses",
     ["Operating Expenses"; "Total Operating Expenses";
      "totalOperatingExpenses"; "OperatingExpenditures";
      "Total Operating Expenditures"]);
  ("operating_income",
     ["Operating Income"; "Operating Income or Loss"; "operatingIncome"]);
  ("interest_expense", ["Interest Expense"; "interestExpense"]);
  ("income_before_tax",
     ["Income Before Tax"; "Pretax Income"; "incomeBeforeTax"]);
  ("income_tax_expense",
     ["Income Tax Expense"; "Tax Provision"; "incomeTaxExpense"]);
  ("net_income",
     ["Net Income"; "Net Income Applicable To Common Shares"; "netIncome";
      "netIncomeApplicableToCommonShares"]);
  ("cash", ["Cash"; "Cash And Cash Equivalents"; "cashAndCashEquivalents"]);
  ("accounts_receivable", ["Net Receivables"; "Accounts Receivable"]);
  ("inventory", ["Inventory"; "inventory"]);
  ("current_assets",
     ["Total Current Assets"; "Current Assets"; "totalCurrentAssets"]);
  ("property_plant_equipment",
     ["Property Plant Equipment Net"; "Total Property Plant Equipment";
      "Property plant and equipment net"]);
  ("total_assets", ["Total Assets"; "totalAssets"]);
  ("accounts_payable", ["Accounts Payable"]);
  ("short_term_debt",
     ["Short Long Term Debt"; "Short Term Debt"; "Current Debt";
      "Current Liabilities And Long Term Debt"]);
  ("current_liabilities",
     ["Total Current Liabilities"; "Current Liabilities";
      "totalCurrentLiabilities"]);
  ("long_term_debt", ["Long Term Debt"; "longTermDebt"]);
  ("total_liabilities",
     ["Total Liab"; "Total Liabilities"; "totalLiab";
      "Total Liabilities Net Minority Interest"]);
  ("common_stock", ["Common Stock"; "commonStock"]);
  ("retained_earnings", ["Retained Earnings"; "retainedEarnings"]);
  ("total_equity",
     ["Total Stockholder Equity"; "Stockholders Equity"; "Total Equity";
      "totalStockholderEquity"]);
  ("depreciation_amortization",
     ["Depreciation And Amortization"; "Depreciation & Amortization";
      "Depreciation"]);
  ("operating_cash_flow",
     ["Total Cash From Operating Activities";
      "Cash Flow From Operating Activities";
      "totalCashFromOperatingActivities"]);
  ("capital_expenditures", ["Capital Expenditures"; "capex"]);
  ("investing_cash_flow",
     ["Total Cashflows From Investing Activities";
      "Cash Flow From Investing Activities";
      "totalCashflowsFromInvestingActivities"]);
  ("dividends_paid", ["Dividends Paid"; "dividendsPaid"]);
  ("issuance_of_stock", ["Issuance Of Stock"; "Issuance of Common Stock"]);
  ("repurchase_of_stock",
     ["Repurchase Of Stock"; "Repurchase of Common Stock"; "Treasury Stock"]);
  ("financing_cash_flow",
     ["Total Cash From Financing Activities";
      "Cash Flow From Financing Activities";
      "totalCashFromFinancingActivities"]);
  ("change_in_cash", ["Change In Cash"; "Net Change In Cash"; "changeInCash"]);
  ("liabilities_and_equity", ["Total Liabilities And Stockholders Equity"])
].

(** The outcome of one consistency check.  The source stores [True] or a
    message; the message is kept in structured form: ["Failed (...)"] with
    the numbers it prints, ["Skipped: Missing ..."] with the names it
    lists. *)
Inductive failure : Type :=
| Mismatch (lhs rhs : string) (value expected diff : float)
| NegativeCash (cash : float)
| NoData (msg : string).

Inductive check_result : Type :=
| Passed
| Failed (why : failure)
| Skipped (missing : list string).

Section WithStringParser.

(** [float(s)] for a string is the interpreter's literal parser; it is
    taken as given.  [None] stands for a ValueError. *)
Variable float_of_str : string → option float.

(** The builtin [float(v)]. *)
Definition py_float (v : pyval) : res float :=
  match v with
  | PFloat f => Ok f
  | PInt z => float_of_int z
  | PBool b => Ok (if b then 1%float else 0%float)
  | PStr s =>
      match float_of_str s with
      | Some f => Ok f
      | None => Raise ValueError
      end
  | PNone | PNA | PObj => Raise TypeError
  end.

(** A dict or a Series with unique labels, keyed by strings. *)
Inductive mapping : Type :=
| Dict (items : gmap string pyval)
| Series (items : gmap string pyval).

Definition items_of (m : mapping) : gmap string pyval :=
  match m with Dict i | Series i => i end.

(** [m.get(key)]: the entry, or [None] when the key is absent. *)
Definition mapping_get (m : mapping) (key : string) : pyval :=
  default PNone (items_of m !! key).

(** ** src/analysis/ratios.py *)

Definition _safe_division (numerator denominator : pyval)
  : res (option float) :=
  if is_None numerator || is_None denominator then Ok None
  else
    try_except
      (num_f ← py_float numerator;
       den_f ← py_float denominator;
       if (den_f =? 0)%float then Ok None
       else Ok (Some (num_f / den_f)%float))
      [ValueError; TypeError]
      (Ok None).

(** The local helper [_get] of [calculate_single_period_ratios]. *)
Definition _get (period_data : mapping) (key : string) : res (option float) :=
  try_except
    (let val := mapping_get period_data key in
     if pd_isna val then Ok None
     else Some <$> py_float val)
    [TypeError; ValueError; KeyError]
    (Ok None).

Definition quick_assets_numerator (ca inv : option float) : option float :=
  match ca, inv with
  | Some c, Some i => Some (c - i)%float
  | Some _, None => None
  | None, _ => None
  end.

Definition total_debt (std ltd : option float) : option float :=
  match std, ltd with
  | None, None => None
  | _, _ => Some (or_zero std + or_zero ltd)%float
  end.

Definition capital_employed_denominator (assets cl : option float)
  : option float :=
  match assets, cl with
  | Some a, Some c => Some (a - c)%float
  | _, _ => None
  end.

(** The final dictionary comprehension: a value survives when it is
    [pd.notna] and an int or a float. *)
Definition clean_ratio (v : option float) : option float :=
  match v with
  | Some f => if is_nan f then None else Some f
  | None => None
  end.

Definition calculate_single_period_ratios (period_data : mapping)
  : res (gmap string (option float)) :=
  let sd a b := _safe_division (of_opt a) (of_opt b) in
  gp ← _get period_data "gross_profit";
  rev ← _get period_data "revenue";
  ni ← _get period_data "net_income";
  oi ← _get period_data "operating_income";
  ca ← _get period_data "current_assets";
  cl ← _get period_data "current_liabilities";
  cash ← _get period_data "cash";
  inv ← _get period_data "inventory";
  std ← _get period_data "short_term_debt";
  ltd ← _get period_data "long_term_debt";
  equity ← _get period_data "total_equity";
  liab ← _get period_data "total_liabilities";
  assets ← _get period_data "total_assets";
  cogs ← _get period_data "cost_of_revenue";
  ar ← _get period_data "accounts_receivable";
  r1 ← sd gp rev;
  r2 ← sd ni rev;
  r3 ← sd oi rev;
  r4 ← sd ca cl;
  r5 ← sd (quick_assets_numerator ca inv) cl;
  r6 ← sd (total_debt std ltd) equity;
  r7 ← sd liab equity;
  r8 ← sd (total_debt std ltd) assets;
  r9 ← sd ni equity;
  r10 ← sd ni assets;
  r11 ← sd oi (capital_employed_denominator assets cl);
  r12 ← sd cogs inv;
  r13 ← sd rev assets;
  r14 ← sd rev ar;
  let ratios : gmap string (option float) :=
    <["Receivable Turnover" := r14]>
    (<["Asset Turnover" := r13]>
    (<["Inventory Turnover" := r12]>
    (<["Return on Capital Employed (ROCE)" := r11]>
    (<["Return on Assets (ROA)" := r10]>
    (<["Return on Equity (ROE)" := r9]>
    (<["Debt Ratio" := r8]>
    (<["Liabilities to Equity" := r7]>
    (<["Debt to Equity" := r6]>
    (<["Quick Ratio" := r5]>
    (<["Current Ratio" := r4]>
    (<["Operating Margin" := r3]>
    (<["Net Margin" := r2]>
    (<["Gross Margin" := r1]> ∅))))))))))))) in
  Ok (clean_ratio <$> ratios).

(** ** src/analysis/verifier.py *)

(** [math.isclose(a, b, rel_tol=..., abs_tol=...)] as CPython computes it;
    the tolerances passed by the verifier are non-negative literals, so
    its ValueError for a negative tolerance cannot occur. *)
Definition math_isclose (a b rel_tol abs_tol : float) : bool :=
  if (a =? b)%float then true
  else if is_infinity a || is_infinity b then false
  else
    let diff := abs (b - a) in
    (diff <=? abs (rel_tol * b))%float
    || (diff <=? abs (rel_tol * a))%float
    || (diff <=? abs_tol)%float.

(** The local helper [_get_float] of [verify_financial_consistency]; its
    last handler catches every exception. *)
Definition _get_float (period_data : mapping) (key : string) : option float :=
  let val := mapping_get period_data key in
  if is_None val || pd_isna val then None
  else
    match py_float val with
    | Ok f => Some f
    | Raise _ => None
    end.

(** [[k for k, v in required.items() if v is None]]. *)
Definition missing_keys (required : list (string * option float))
  : list string :=
  (filter (λ kv, kv.2 = None) required).*1.

Definition balance_sheet_check (assets liabs equity : option float)
  : check_result :=
  match assets, liabs, equity with
  | Some a, Some l, Some e =>
      if math_isclose a (l + e) 0.015 0 then Passed
      else
        let calculated_le := (l + e)%float in
        Failed (Mismatch "A" "L+E" a calculated_le (a - calculated_le))
  | _, _, _ =>
      Skipped (missing_keys [("Total Assets", assets);
                             ("Total Liabilities", liabs);
                             ("Total Equity", equity)])
  end.

Definition cash_check (cash : option float) : check_result :=
  match cash with
  | Some c =>
      if (-1e-6 <=? c)%float then Passed
      else Failed (NegativeCash c)
  | None => Skipped ["Cash"]
  end.

Definition gross_profit_check (revenue cogs gp : option float)
  : check_result :=
  match revenue, cogs, gp with
  | Some r, Some c, Some g =>
      let calculated_gp := (r - c)%float in
      if math_isclose g calculated_gp 0.01 0 then Passed
      else Failed (Mismatch "GP" "Rev-CoGS" g calculated_gp (g - calculated_gp))
  | _, _, _ =>
      Skipped (missing_keys [("Revenue", revenue);
                             ("Cost of Revenue", cogs);
                             ("Gross Profit", gp)])
  end.

(** Total operating expenses: the direct item or, failing that, R&D plus
    SG&A when at least one of the two is there. *)
Definition operating_expenses_total (op_ex rd sga : option float)
  : option float :=
  match op_ex with
  | Some x => Some x
  | None =>
      match rd, sga with
      | None, None => None
      | _, _ => Some (or_zero rd + or_zero sga)%float
      end
  end.

Definition operating_income_check (gp op_inc op_ex_total : option float)
  : check_result :=
  match gp, op_inc, op_ex_total with
  | Some g, Some oi, Some ox =>
      let calculated_oi := (g - ox)%float in
      if math_isclose oi calculated_oi 0.05 0 then Passed
      else Failed (Mismatch "OpInc" "GP-OpEx" oi calculated_oi
                     (oi - calculated_oi))
  | _, _, _ =>
      Skipped (missing_keys [("Gross Profit", gp); ("Operating Income", op_inc)]
               ++ match op_ex_total with
                  | None => ["Operating Expenses (Total or Components)"]
                  | Some _ => []
                  end)
  end.

Definition net_income_check (ni ibt tax : option float) : check_result :=
  match ni, ibt, tax with
  | Some n, Some i, Some t =>
      let calculated_ni := (i - t)%float in
      if math_isclose n calculated_ni 0.015 0 then Passed
      else Failed (Mismatch "NetInc" "IBT-Tax" n calculated_ni
                     (n - calculated_ni))
  | _, _, _ =>
      Skipped (missing_keys [("Net Income", ni);
                             ("Income Before Tax", ibt);
                             ("Income Tax Expense", tax)])
  end.

Definition cash_flow_sum_check (change_cash op_cf inv_cf fin_cf : option float)
  : check_result :=
  match change_cash, op_cf, inv_cf, fin_cf with
  | Some c, Some o, Some i, Some f =>
      let sum_cf := (o + i + f)%float in
      if math_isclose c sum_cf 0.02 1000 then Passed
      else Failed (Mismatch "ChangeCash" "SumCF" c sum_cf (c - sum_cf))
  | _, _, _, _ =>
      Skipped (missing_keys [("Change in Cash", change_cash);
                             ("Operating CF", op_cf);
                             ("Investing CF", inv_cf);
                             ("Financing CF", fin_cf)])
  end.

(** Lines 70-198: the six checks, run once the input has been accepted. *)
Definition run_checks (period_data : mapping) : gmap string check_result :=
  let assets := _get_float period_data "total_assets" in
  let liabs := _get_float period_data "total_liabilities" in
  let equity := _get_float period_data "total_equity" in
  let cash := _get_float period_data "cash" in
  let revenue := _get_float period_data "revenue" in
  let cogs := _get_float period_data "cost_of_revenue" in
  let gp := _get_float period_data "gross_profit" in
  let op_inc := _get_float period_data "operating_income" in
  let op_ex_total :=
    operating_expenses_total
      (_get_float period_data "operating_expenses")
      (_get_float period_data "research_development")
      (_get_float period_data "selling_general_administrative") in
  let ni := _get_float period_data "net_income" in
  let ibt := _get_float period_data "income_before_tax" in
  let tax := _get_float period_data "income_tax_expense" in
  let change_cash := _get_float period_data "change_in_cash" in
  let op_cf := _get_float period_data "operating_cash_flow" in
  let inv_cf := _get_float period_data "investing_cash_flow" in
  let fin_cf := _get_float period_data "financing_cash_flow" in
  <["CashFlowSumCheck" := cash_flow_sum_check change_cash op_cf inv_cf fin_cf]>
  (<["NetIncomeCheck" := net_income_check ni ibt tax]>
  (<["OperatingIncomeCheck" := operating_income_check gp op_inc op_ex_total]>
  (<["GrossProfitCheck" := gross_profit_check revenue cogs gp]>
  (<["CashCheck" := cash_check cash]>
  (<["BalanceSheetEq" := balance_sheet_check assets liabs equity]> ∅))))).

Definition verify_financial_consistency (period_data : option mapping)
  : gmap string check_result :=
  match period_data with
  | None =>
      {[ "InputValidation" := Failed (NoData "No data received for period.") ]}
  | Some (Dict items) =>
      if decide (items = ∅) then
        {[ "InputValidation" :=
             Failed (NoData "Empty data dictionary received.") ]}
      else run_checks (Dict items)
  | Some (Series items) =>
      if decide (items = ∅) then
        {[ "InputValidation" :=
             Failed (NoData "Empty data Series received.") ]}
      else run_checks (Series items)
  end.

(** ** src/data_extraction/mapper.py *)

(** [pd.to_datetime(df.columns, errors='coerce')] on an index that is not
    a DatetimeIndex is pandas' date parser; it is taken as given. *)
Variable to_datetime : list label → res (list label).

(** Lines 41-51.  [None] when the statement is skipped: the conversion
    raised, or no column is left after [dropna(axis=1, how='all')]. *)
Definition convert_columns (df : RawFrame) : option RawFrame :=
  if raw_is_datetime df then Some df
  else
    match to_datetime (raw_columns df).*1 with
    | Raise _ => None
    | Ok new_labels =>
        if bool_decide (length new_labels = length (raw_columns df)) then
          let relabelled := zip new_labels (raw_columns df).*2 in
          let kept :=
            filter (λ col, existsb pd_notna col.2 = true) relabelled in
          let df' := {| raw_index := raw_index df;
                        raw_is_datetime := true;
                        raw_columns := kept |} in
          if raw_empty df' then None else Some df'
        else None
    end.

(** The per-period contents of [all_period_data]: [{}] or [{'raw': bag}]. *)
Definition period_contents : Type := option (list (string * pyval)).

(** Lines 70-78, one row of one column. *)
Definition store_item (contents : period_contents) (item : string * pyval)
  : period_contents :=
  let '(yf_key, value_raw) := item in
  if pd_notna value_raw then
    let raw := default [] contents in
    Some (dict_set raw yf_key value_raw)
  else contents.

(** [df[period_col]] at line 67.  When one column carries the label, the
    selection is that column; when several do, it is a DataFrame
    ([None]), not a Series. *)
Definition select_column (df : RawFrame) (period_col : Timestamp)
  : option (list pyval) :=
  match filter (λ col, label_timestamp col.1 = Some period_col)
          (raw_columns df) with
  | [col] => Some col.2
  | _ => None
  end.

(** Lines 56-78, one column of one statement.  The items of a DataFrame
    are its columns, so that on a label carried by several columns
    [value_raw] is a whole column and [if pd.notna(value_raw)] raises
    ValueError: the truth value of a Series is ambiguous.  Nothing around
    the loop catches it. *)
Definition merge_column (df : RawFrame)
    (all_period_data : list (Z * period_contents))
    (col : label * list pyval) : res (list (Z * period_contents)) :=
  match col.1 with
  | LTimestamp period_col =>
      let period_str := strftime_Ymd period_col in
      let contents := default None (dict_get all_period_data period_str) in
      match select_column df period_col with
      | Some period_series =>
          Ok (dict_set all_period_data period_str
                (foldl store_item contents
                   (zip (raw_index df) period_series)))
      | None => Raise ValueError
      end
  | LNaT | LOther _ => Ok all_period_data
  end.

(** Lines 36-78, one statement. *)
Definition merge_statement (all_period_data : list (Z * period_contents))
    (stmt : string * option RawFrame) : res (list (Z * period_contents)) :=
  match stmt.2 with
  | None => Ok all_period_data
  | Some df =>
      if raw_empty df then Ok all_period_data
      else
        match convert_columns df with
        | None => Ok all_period_data
        | Some df' =>
            fold_res (merge_column df') all_period_data (raw_columns df')
        end
  end.

(** Lines 100-107: the first synonym that is a key of the raw bag. *)
Fixpoint find_synonym (raw : list (string * pyval))
    (potential_yf_keys : list string) : option (string * pyval) :=
  match potential_yf_keys with
  | [] => None
  | yf_key :: rest =>
      match dict_get raw yf_key with
      | Some value_raw => Some (yf_key, value_raw)
      | None => find_synonym raw rest
      end
  end.

(** Lines 96-117, one entry of FINANCIAL_ITEM_MAPPING. *)
Definition standardize_item (raw : list (string * pyval))
    (standardized : list (string * float))
    (entry : string * list string) : res (list (string * float)) :=
  let '(standard_key, potential_yf_keys) := entry in
  match find_synonym raw potential_yf_keys with
  | Some (used_yfinance_key, found_value_raw) =>
      if is_None found_value_raw then Ok standardized
      else
        try_except
          (float_value ← py_float found_value_raw;
           Ok (dict_set standardized standard_key float_value))
          [ValueError; TypeError]
          (Ok standardized)
  | None => Ok standardized
  end.

Fixpoint standardize_items (raw : list (string * pyval))
    (standardized : list (string * float))
    (mapping_items : list (string * list string))
  : res (list (string * float)) :=
  match mapping_items with
  | [] => Ok standardized
  | entry :: rest =>
      standardized' ← standardize_item raw standardized entry;
      standardize_items raw standardized' rest
  end.

(** Lines 88-122, the loop over [all_period_data]. *)
Fixpoint standardize_periods (periods : list (Z * period_contents))
    (standardized_data_by_period : list (Z * list (string * float)))
  : res (list (Z * list (string * float))) :=
  match periods with
  | [] => Ok standardized_data_by_period
  | (period_str, contents) :: rest =>
      let raw_data_for_period := default [] contents in
      if bool_decide (raw_data_for_period = []) then
        standardize_periods rest standardized_data_by_period
      else
        standardized_dict_for_period ←
          standardize_items raw_data_for_period [] FINANCIAL_ITEM_MAPPING;
        if bool_decide (standardized_dict_for_period = []) then
          standardize_periods rest standardized_data_by_period
        else
          standardize_periods rest
            (dict_set standardized_data_by_period period_str
               standardized_dict_for_period)
  end.

(** The columns of [DataFrame.from_dict(d, orient='index')]: the inner
    keys in order of first appearance. *)
Definition add_key (acc : list string) (k : string) : list string :=
  if bool_decide (k ∈ acc) then acc else (acc ++ [k])%list.

Definition union_keys (d : list (Z * list (string * float))) : list string :=
  foldl (λ (acc : list string) (row : Z * list (string * float)),
           foldl add_key acc row.2.*1)
    [] d.

Definition later_first (a b : Z * list float) : Prop := (b.1 ≤ a.1)%Z.

#[global] Instance later_first_dec a b : Decision (later_first a b).
Proof. unfold later_first. apply _. Defined.

(** Lines 133-139: one row per period, rows sorted by date descending,
    then transposed. *)
Definition build_frame (d : list (Z * list (string * float))) : Frame :=
  let items := union_keys d in
  let rows :=
    (λ row : Z * list (string * float),
       (row.1, (λ k, default nan (dict_get row.2 k)) <$> items)) <$> d in
  {| frame_index := items;
     frame_columns :=
       (λ row : Z * list float, (to_datetime_Ymd row.1, row.2))
         <$> merge_sort later_first rows |}.

Definition standardize_statements
    (statements : option (list (string * option RawFrame)))
  : res (option Frame) :=
  match statements with
  | None => Ok None
  | Some stmts =>
      if bool_decide (stmts = [])
         || forallb (λ df, match df with
                           | None => true
                           | Some df => raw_empty df
                           end) stmts.*2
      then Ok None
      else
        all_period_data ← fold_res merge_statement [] stmts;
        if bool_decide (all_period_data = []) then Ok None
        else
          standardized_data_by_period ←
            standardize_periods all_period_data [];
          if bool_decide (standardized_data_by_period = []) then Ok None
          else Ok (Some (build_frame standardized_data_by_period))
  end.

(** ** src/analysis/ratios.py, the multi-period entry *)

(** The cells of one column as a Series over the row labels.  Under a
    label that several rows carry, [Series.get] returns the Series of
    their cells instead of a number; [pd.isna] of it has no truth value,
    so both readers, [_get] and [_get_float], leave through their handler
    for ValueError and TypeError and return [None].  [PObj] stands for such
    a selection: it is neither [None] nor missing, and the readers return
    [None] on it through the same handler. *)
Definition column_series (df : Frame) (cells : list float) : mapping :=
  let rows := zip (frame_index df) cells in
  Series (list_to_map
            ((λ row : string * float,
                (row.1,
                 match filter (λ r : string * float, r.1 = row.1) rows with
                 | [_] => PFloat row.2
                 | _ => PObj
                 end)) <$> rows)).

(** [standardized_data[period_col]].  Column labels of a Standardized
    Matrix are distinct; the first column carrying the label is the one
    selected. *)
Definition frame_column (df : Frame) (period_col : Timestamp)
  : option mapping :=
  column_series df <$> dict_get (frame_columns df) period_col.

Fixpoint ratios_by_period (df : Frame) (columns : list Timestamp)
    (all_ratios_by_period : list (Timestamp * gmap string (option float)))
  : res (list (Timestamp * gmap string (option float))) :=
  match columns with
  | [] => Ok all_ratios_by_period
  | period_col :: rest =>
      match frame_column df period_col with
      | None => Raise KeyError
      | Some period_series =>
          period_ratios ← calculate_single_period_ratios period_series;
          if decide (period_ratios = ∅) then
            ratios_by_period df rest all_ratios_by_period
          else
            ratios_by_period df rest
              (dict_set all_ratios_by_period period_col period_ratios)
      end
  end.

(** [ratio_df.reindex(columns=...)]: the requested labels in the requested
    order; a label the frame does not have gives a column of NaN. *)
Definition reindex_columns
    (all_ratios_by_period : list (Timestamp * gmap string (option float)))
    (columns : list Timestamp) : RatioFrame :=
  {| ratio_columns :=
       (λ c, (c, default ∅ (dict_get all_ratios_by_period c)))
         <$> columns |}.

Definition calculate_historical_ratios (standardized_data : option Frame)
  : res (option RatioFrame) :=
  match standardized_data with
  | None => Ok None
  | Some df =>
      if frame_empty df then Ok None
      else
        let columns := (frame_columns df).*1 in
        all_ratios_by_period ← ratios_by_period df columns [];
        if bool_decide (all_ratios_by_period = []) then Ok None
        else Ok (Some (reindex_columns all_ratios_by_period columns))
  end.

End WithStringParser.

(** ** src/analysis/ratios.py, the sector entry *)

(** The four statistics computed per ratio, and the suffix of their key. *)
Inductive stat : Type := Avg | Median | Min | Max.

Definition stat_suffix (s : stat) : string :=
  match s with
  | Avg => "_Avg"
  | Median => "_Median"
  | Min => "_Min"
  | Max => "_Max"
  end.

Section WithColumnStatistics.

(** pandas' [mean], [median], [min] and [max] with [skipna=True]:
    [column_stat s data ratio_name] is the statistic [s] of the column
    [ratio_name] of [DataFrame.from_dict(data, orient='index')] after
    [pd.to_numeric(..., errors='coerce')].  They are taken as given; a
    failure inside them is an exception. *)
Variable column_stat :
  stat → list (string * list (string * option float)) → string → res float.

(** The columns of [DataFrame.from_dict(data, orient='index')]: the ratio
    names of the inner dictionaries in order of first appearance. *)
Definition sector_columns
    (data : list (string * list (string * option float))) : list string :=
  foldl (λ (acc : list string) (row : string * list (string * option float)),
           foldl add_key acc row.2.*1)
    [] data.

(** [numeric_column.isna().all()]: no company holds a number under the
    ratio.  [None], NaN and a missing key all show as NaN in the column,
    and a company whose dictionary is empty has no row at all. *)
Definition column_all_na
    (data : list (string * list (string * option float)))
    (ratio_name : string) : bool :=
  forallb (λ row : string * list (string * option float),
             match dict_get row.2 ratio_name with
             | Some (Some x) => is_nan x
             | Some None | None => true
             end) data.

(** Lines 227-247, one column of the frame. *)
Definition sector_stats_of_column
    (data : list (string * list (string * option float)))
    (sector_stats : gmap string (option float)) (ratio_name : string)
  : res (gmap string (option float)) :=
  if negb (column_all_na data ratio_name) then
    avg ← column_stat Avg data ratio_name;
    median ← column_stat Median data ratio_name;
    min ← column_stat Min data ratio_name;
    max ← column_stat Max data ratio_name;
    Ok (<[ratio_name ++ "_Max" := Some max]>
        (<[ratio_name ++ "_Min" := Some min]>
        (<[ratio_name ++ "_Median" := Some median]>
        (<[ratio_name ++ "_Avg" := Some avg]> sector_stats))))
  else
    Ok (<[ratio_name ++ "_Max" := None]>
        (<[ratio_name ++ "_Min" := None]>
        (<[ratio_name ++ "_Median" := None]>
        (<[ratio_name ++ "_Avg" := None]> sector_stats)))).

Fixpoint sector_stats_of_columns
    (data : list (string * list (string * option float)))
    (columns : list string) (sector_stats : gmap string (option float))
  : res (gmap string (option float)) :=
  match columns with
  | [] => Ok sector_stats
  | ratio_name :: rest =>
      sector_stats' ← sector_stats_of_column data sector_stats ratio_name;
      sector_stats_of_columns data rest sector_stats'
  end.

(** The whole body runs under [except Exception], which returns [{}]; the
    last comprehension is the clean-up of [calculate_single_period_ratios]
    again. *)
Definition calculate_sector_ratios
    (all_company_latest_ratios : list (string * list (string * option float)))
  : gmap string (option float) :=
  if bool_decide (all_company_latest_ratios = []) then ∅
  else
    let columns := sector_columns all_company_latest_ratios in
    if bool_decide (columns = []) then ∅
    else
      match sector_stats_of_columns all_company_latest_ratios columns ∅ with
      | Ok sector_stats => clean_ratio <$> sector_stats
      | Raise _ => ∅
      end.

End WithColumnStatistics.

(** ** src/data_extraction/extractor.py *)

Section WithTicker.

(** [pd.to_datetime(df.columns, errors='coerce')], as in the mapper. *)
Variable to_datetime : list label → res (list label).

(** [yf.Ticker(ticker_symbol)] and the reading of its three statement
    attributes, annual ([true]) or quarterly ([false]): what Yahoo Finance
    delivers is taken as given, and the access may raise. *)
Variable fetch :
  string → bool
  → res (option RawFrame * option RawFrame * option RawFrame).

(** Lines 26-38: the statements as fetched; an unknown period kind leaves
    the three entries at [None]. *)
Definition fetched_statements (ticker_symbol period : string)
  : res (option RawFrame * option RawFrame * option RawFrame) :=
  if decide (period = "annual") then fetch ticker_symbol true
  else if decide (period = "quarterly") then fetch ticker_symbol false
  else Ok (None, None, None).

(** Lines 42-55, one statement: an absent or empty one becomes [None];
    otherwise the column labels are converted to dates unless they are
    dates already, and the statement is left as it is when the conversion
    raises. *)
Definition clean_statement (df : option RawFrame) : option RawFrame :=
  match df with
  | None => None
  | Some df =>
      if raw_empty df then None
      else if raw_is_datetime df then Some df
      else
        match to_datetime (raw_columns df).*1 with
        | Raise _ => Some df
        | Ok new_labels =>
            if bool_decide (length new_labels = length (raw_columns df)) then
              let relabelled := zip new_labels (raw_columns df).*2 in
              Some {| raw_index := raw_index df;
                      raw_is_datetime := true;
                      raw_columns :=
                        filter (λ col, existsb pd_notna col.2 = true)
                          relabelled |}
            else Some df
        end
  end.

(** Lines 24-65; any exception on the way gives three [None] entries. *)
Definition get_financial_statements (ticker_symbol period : string)
  : list (string * option RawFrame) :=
  match fetched_statements ticker_symbol period with
  | Ok (income, balance, cashflow) =>
      [("income", clean_statement income);
       ("balance", clean_statement balance);
       ("cashflow", clean_statement cashflow)]
  | Raise _ => [("income", None); ("balance", None); ("cashflow", None)]
  end.

End WithTicker.

(** ** src/main.py *)

(** [standard_df.iloc[:, 0]], the column that [analyze_company] verifies
    and that [analyze_sector] computes the ratios of.  Both call sites
    first test that the frame has a column; [None] stands for the
    IndexError that [iloc] raises otherwise. *)
Definition latest_period_data (standard_df : Frame) : option mapping :=
  (λ col : Timestamp * list float, column_series standard_df col.2)
    <$> head (frame_columns standard_df).

(** * The vocabulary of the specification *)

(** ** Numbers *)

(** Two floats are the same number when [==] holds, or both are NaN. *)
Definition same_float (a b : float) : Prop :=
  (a =? b)%float = true ∨ (is_nan a = true ∧ is_nan b = true).

(** Equal up to the sign of zero, on the specification side. *)
Definition SFsim (a b : spec_float) : Prop :=
  a = b ∨ ((∃ s, a = S754_zero s) ∧ (∃ s, b = S754_zero s)).

(** Python's [max(x, y)] on floats. *)
Definition fmax (x y : float) : float := if (x <? y)%float then y else x.

(** ** Rounding *)

Section Rounding.
Local Open Scope Z_scope.

(** The state of [k] right shifts of the mantissa [P]: the quotient, and
    twice the remainder split into the round bit and the rest, the sticky
    bit telling whether the rest is zero. *)
Definition shr_inv (P : Z) (k : Z) (mrs : shr_record) : Prop :=
  0 ≤ k ∧ 0 ≤ shr_m mrs ∧
  ∃ low, 0 ≤ low < 2 ^ k
         ∧ 2 * P = 2 ^ (k + 1) * shr_m mrs
                   + (if shr_r mrs then 2 ^ k else 0) + low
         ∧ (shr_s mrs = true ↔ low ≠ 0).

(** Rounding to nearest even, on a shift record. *)
Definition rne (mrs : shr_record) : Z :=
  shr_m mrs
  + (if shr_r mrs && (shr_s mrs || Z.odd (shr_m mrs)) then 1 else 0).

(** What [binary_round_aux] makes of a rounded mantissa [M] at exponent
    [t]: a carry out of the 53 bits moves to the next exponent, and an
    exponent beyond the range gives infinity. *)
Definition carried (M t : Z) : spec_float :=
  if M =? 0 then S754_zero false
  else if M =? 2 ^ 53 then
    if t + 1 <=? 971 then S754_finite false (2 ^ 52)%positive (t + 1)
    else S754_infinity false
  else
    if t <=? 971 then S754_finite false (Z.to_pos M) t
    else S754_infinity false.

(** A mantissa and an exponent as a float, zero and overflow apart. *)
Definition finite_or_inf (m e : Z) : spec_float :=
  if m =? 0 then S754_zero false
  else if e <=? 971 then S754_finite false (Z.to_pos m) e
  else S754_infinity false.

End Rounding.

(** ** Ratios *)

(** Division as the specification words it, on optional operands. *)
Definition spec_division (n d : option float) : option float :=
  match n, d with
  | Some x, Some y => if (y =? 0)%float then None else Some (x / y)%float
  | _, _ => None
  end.

(** The ratio dictionary before the final clean-up, from the fifteen
    retrieved items. *)
Definition ratio_table (item : string → option float)
  : gmap string (option float) :=
  let debt := total_debt (item "short_term_debt") (item "long_term_debt") in
  <["Receivable Turnover" :=
      spec_division (item "revenue") (item "accounts_receivable")]>
  (<["Asset Turnover" := spec_division (item "revenue") (item "total_assets")]>
  (<["Inventory Turnover" :=
       spec_division (item "cost_of_revenue") (item "inventory")]>
  (<["Return on Capital Employed (ROCE)" :=
       spec_division (item "operating_income")
         (capital_employed_denominator (item "total_assets")
            (item "current_liabilities"))]>
  (<["Return on Assets (ROA)" :=
       spec_division (item "net_income") (item "total_assets")]>
  (<["Return on Equity (ROE)" :=
       spec_division (item "net_income") (item "total_equity")]>
  (<["Debt Ratio" := spec_division debt (item "total_assets")]>
  (<["Liabilities to Equity" :=
       spec_division (item "total_liabilities") (item "total_equity")]>
  (<["Debt to Equity" := spec_division debt (item "total_equity")]>
  (<["Quick Ratio" :=
       spec_division
         (quick_assets_numerator (item "current_assets") (item "inventory"))
         (item "current_liabilities")]>
  (<["Current Ratio" :=
       spec_division (item "current_assets") (item "current_liabilities")]>
  (<["Operating Margin" :=
       spec_division (item "operating_income") (item "revenue")]>
  (<["Net Margin" := spec_division (item "net_income") (item "revenue")]>
  (<["Gross Margin" := spec_division (item "gross_profit") (item "revenue")]>
     ∅))))))))))))).

(** The one way [float()] escapes the handlers of [_get]: an integer
    beyond the range of binary64. *)
Definition overflows (v : pyval) : bool :=
  match v with
  | PInt z => is_infinity (float_of_Z z)
  | _ => false
  end.

(** Composite total debt as the specification words it: absent when both
    parts are, otherwise the sum with an absent part counted as zero. *)
Definition spec_total_debt (std ltd : option float) : option float :=
  match std, ltd with
  | None, None => None
  | _, _ => Some (default 0 std + default 0 ltd)%float
  end.

Definition same_opt_float (a b : option float) : Prop :=
  match a, b with
  | Some x, Some y => same_float x y
  | None, None => True
  | _, _ => False
  end.

(** The names of the fourteen ratios. *)
Definition fourteen_ratios : gset string :=
  {[ "Gross Margin"; "Net Margin"; "Operating Margin"; "Current Ratio";
     "Quick Ratio"; "Debt to Equity"; "Liabilities to Equity"; "Debt Ratio";
     "Return on Equity (ROE)"; "Return on Assets (ROA)";
     "Return on Capital Employed (ROCE)"; "Inventory Turnover";
     "Asset Turnover"; "Receivable Turnover" ]}.

(** ** Consistency checks *)

(** The names of the six checks. *)
Definition six_checks : gset string :=
  {[ "BalanceSheetEq"; "CashCheck"; "GrossProfitCheck";
     "OperatingIncomeCheck"; "NetIncomeCheck"; "CashFlowSumCheck" ]}.

(** The inputs that pass the validation of lines 29-41: anything but
    [None], an empty dict and an empty Series. *)
Definition accepted (period_data : option mapping) : bool :=
  match period_data with
  | None => false
  | Some m => negb (bool_decide (items_of m = ∅))
  end.

(** The tolerance of the cash-flow identity: the distance between the two
    sides is at most the larger of 2% of the larger magnitude and 1000. *)
Definition within_tolerance (c s : float) : bool :=
  (abs (c - s) <=? fmax (0.02 * fmax (abs c) (abs s)) 1000)%float.

(** ** Normalisation *)

(** A raw bag as the merge leaves it: no missing value, no key twice. *)
Definition well_formed_bag (raw : list (string * pyval)) : Prop :=
  Forall (λ kv, pd_notna kv.2 = true) raw ∧ NoDup raw.*1.

(** [yf_key], holding [value_raw], is the first synonym of the list, in
    its declared order, that is a key of the raw bag. *)
Definition first_present (raw : list (string * pyval))
    (synonyms : list string) (yf_key : string) (value_raw : pyval) : Prop :=
  ∃ i, synonyms !! i = Some yf_key
       ∧ dict_get raw yf_key = Some value_raw
       ∧ ∀ j earlier, (j < i)%nat → synonyms !! j = Some earlier →
                      dict_get raw earlier = None.


Section Vocabulary.
Variable float_of_str : string → option float.
Variable to_datetime : list label → res (list label).

(** The raw bags by period, whether or not a date is repeated: the dated
    columns of the statements in use are gone through in order, and the
    non-missing cells of each are recorded under the column's day, a
    later cell replacing an earlier one with the same label.  These are
    the bags the merge returns when it returns. *)
Definition record_column (index : list string)
    (bags : list (Z * period_contents)) (col : label * list pyval)
  : list (Z * period_contents) :=
  match col.1 with
  | LTimestamp period_col =>
      let period_str := strftime_Ymd period_col in
      let contents := default None (dict_get bags period_str) in
      dict_set bags period_str (foldl store_item contents (zip index col.2))
  | LNaT | LOther _ => bags
  end.

Definition record_statement (bags : list (Z * period_contents))
    (stmt : string * option RawFrame) : list (Z * period_contents) :=
  match stmt.2 with
  | None => bags
  | Some df =>
      if raw_empty df then bags
      else
        match convert_columns to_datetime df with
        | None => bags
        | Some df' =>
            foldl (record_column (raw_index df')) bags (raw_columns df')
        end
  end.

Definition raw_bags (stmts : list (string * option RawFrame))
  : list (Z * period_contents) :=
  foldl record_statement [] stmts.


(** The dates among the column labels of a statement. *)
Definition dated_labels (df : RawFrame) : list Timestamp :=
  omap (λ col : label * list pyval, label_timestamp col.1) (raw_columns df).

(** A statement in use that carries the same date on two columns. *)
Definition repeats_date (df : option RawFrame) : Prop :=
  match df with
  | None => False
  | Some df =>
      raw_empty df = false
      ∧ match convert_columns to_datetime df with
        | Some df' => ¬ NoDup (dated_labels df')
        | None => False
        end
  end.

#[global] Instance repeats_date_dec df : Decision (repeats_date df).
Proof.
  destruct df as [df|]; simpl; [|apply _].
  destruct (convert_columns to_datetime df); apply _.
Defined.

(** The ratios of the column labelled [c]. *)
Definition label_ratios (df : Frame) (c : Timestamp)
  : gmap string (option float) :=
  clean_ratio <$>
    ratio_table
      (_get_float float_of_str
         (column_series df (default [] (dict_get (frame_columns df) c)))).

End Vocabulary.

(** ** Relative tolerances *)

(** The distance between the two sides is at most [rel_tol] times the
    larger magnitude. *)
Definition within_relative (rel_tol a b : float) : bool :=
  (abs (a - b) <=? rel_tol * fmax (abs a) (abs b))%float.

(** An identity with a relative tolerance: finite sides are compared
    within the tolerance; with a NaN or an infinity among them, the sides
    have to be equal. *)
Definition close_enough (rel_tol a b : float) : bool :=
  if is_finite a && is_finite b then within_relative rel_tol a b
  else (a =? b)%float.

(** Total operating expenses in words: the direct item when there is one;
    otherwise R&D plus SG&A with an absent part counted as zero, and
    nothing when both are absent. *)
Definition spec_operating_expenses (op_ex rd sga : option float)
  : option float :=
  match op_ex, rd, sga with
  | Some x, _, _ => Some x
  | None, None, None => None
  | None, _, _ => Some (default 0 rd + default 0 sga)%float
  end.

(** The sixteen items the six checks ask for; R&D and SG&A are only
    looked at when the operating expenses are missing. *)
Definition checked_items : list string :=
  ["total_assets"; "total_liabilities"; "total_equity"; "cash"; "revenue";
   "cost_of_revenue"; "gross_profit"; "operating_income";
   "operating_expenses"; "net_income"; "income_before_tax";
   "income_tax_expense"; "change_in_cash"; "operating_cash_flow";
   "investing_cash_flow"; "financing_cash_flow"].

(** ** Denominators *)

(** The item under each ratio's division bar, for the thirteen ratios
    whose denominator is a single item. *)
Definition denominator_item : list (string * string) := [
  ("Gross Margin", "revenue");
  ("Net Margin", "revenue");
  ("Operating Margin", "revenue");
  ("Current Ratio", "current_liabilities");
  ("Quick Ratio", "current_liabilities");
  ("Debt to Equity", "total_equity");
  ("Liabilities to Equity", "total_equity");
  ("Debt Ratio", "total_assets");
  ("Return on Equity (ROE)", "total_equity");
  ("Return on Assets (ROA)", "total_assets");
  ("Inventory Turnover", "inventory");
  ("Asset Turnover", "total_assets");
  ("Receivable Turnover", "accounts_receivable")
].

(** A denominator one cannot divide by: absent, or equal to zero. *)
Definition unusable_denominator (d : option float) : Prop :=
  match d with
  | None => True
  | Some y => (y =? 0)%float = true
  end.

(** ** Cells of the matrix *)

(** What an engine reads in a cell: the number, unless the cell is empty
    or NaN. *)
Definition present (x : option float) : option float :=
  match x with
  | Some f => if is_nan f then None else Some f
  | None => None
  end.

(** What an engine reads under [key] in a column of the frame [df]: the
    cell of the row labelled [key]; nothing when no row or more than one
    row carries the label, or when the cell is NaN. *)
Definition column_item (df : Frame) (cells : list float) (key : string)
  : option float :=
  match filter (λ row : string * float, row.1 = key)
          (zip (frame_index df) cells) with
  | [row] => present (Some row.2)
  | _ => None
  end.

Section MatrixVocabulary.
Variable float_of_str : string → option float.
Variable to_datetime : list label → res (list label).

(** A cell of the raw statements that the merge reads: its statement is
    not skipped, its column is dated [p], and the row labelled [yf_key]
    holds [value_raw] in that column. *)
Definition raw_cell (stmts : list (string * option RawFrame))
    (p : Z) (yf_key : string) (value_raw : pyval) : Prop :=
  ∃ name df df' t cells,
    (name, Some df) ∈ stmts
    ∧ raw_empty df = false
    ∧ convert_columns to_datetime df = Some df'
    ∧ (LTimestamp t, cells) ∈ raw_columns df'
    ∧ strftime_Ymd t = p
    ∧ (yf_key, value_raw) ∈ zip (raw_index df') cells.

(** A statement the merge reads nothing from: absent; empty; with column
    labels whose conversion to dates raises or leaves no column with a
    value; or with no column labelled by a date once converted (a label
    that cannot be read as a date becomes NaT). *)
Definition unusable_statement (df : option RawFrame) : Prop :=
  match df with
  | None => True
  | Some df =>
      raw_empty df = true
      ∨ match convert_columns to_datetime df with
        | None => True
        | Some df' => dated_labels df' = []
        end
  end.

(** [d] is the canonical vector of the period [p]: what the raw bag that
    the merge built for that period resolves to. *)
Definition canonical_vector (stmts : list (string * option RawFrame))
    (p : Z) (d : list (string * float)) : Prop :=
  ∃ all_period_data contents,
    fold_res (merge_statement to_datetime) [] stmts = Ok all_period_data
    ∧ (p, contents) ∈ all_period_data
    ∧ standardize_items float_of_str (default [] contents) []
        FINANCIAL_ITEM_MAPPING = Ok d.

End MatrixVocabulary.

(** ** Sector statistics *)

(** What the sector dictionary holds under the key of statistic [s] of
    the ratio [ratio_name]: nothing when no company has a number under the
    ratio, otherwise the statistic, unless it is NaN. *)
Definition spec_sector_stat
    (column_stat :
       stat → list (string * list (string * option float)) → string
       → res float)
    (data : list (string * list (string * option float)))
    (ratio_name : string) (s : stat) : option float :=
  if column_all_na data ratio_name then None
  else
    match column_stat s data ratio_name with
    | Ok v => if is_nan v then None else Some v
    | Raise _ => None
    end.

(** pandas computes the four statistics of every column that holds a
    number. *)
Definition stats_return
    (column_stat :
       stat → list (string * list (string * option float)) → string
       → res float)
    (data : list (string * list (string * option float))) : Prop :=
  ∀ s ratio_name,
    ratio_name ∈ sector_columns data →
    column_all_na data ratio_name = false →
    ∃ v, column_stat s data ratio_name = Ok v.

(** ** Inputs for worked examples *)

(** A string parser and a date parser to run the code on inputs that hold
    no numeric string and no column label that reads as a date without
    being a Timestamp: like [errors='coerce'] on such labels, the date
    parser gives NaT for each. *)
Definition reject_strings : string → option float := λ _, None.
Definition all_NaT : list label → res (list label) :=
  λ labels, Ok ((λ _, LNaT) <$> labels).

(** 2023-12-31 and 2022-12-31. *)
Definition fy2023 : Timestamp := {| ts_day := 738885; ts_time := 0 |}.
Definition fy2022 : Timestamp := {| ts_day := 738520; ts_time := 0 |}.

(** A statement with one row and the single period 2023-12-31. *)
Definition single_cell (row : string) (value : pyval) : RawFrame :=
  {| raw_index := [row];
     raw_is_datetime := true;
     raw_columns := [(LTimestamp fy2023, [value])] |}.

(** A matrix whose second period holds no value at all. *)
Definition sample_matrix : Frame :=
  {| frame_index := ["revenue"; "net_income"];
     frame_columns := [(fy2023, [1000%float; 200%float]);
                       (fy2022, [nan; nan])] |}.

(** A date parser that fails on every index. *)
Definition failing_parser : list label → res (list label) :=
  λ _, Raise ValueError.

(** A balance sheet whose column labels are not dates. *)
Definition unparsed_balance : RawFrame :=
  {| raw_index := ["Total Assets"];
     raw_is_datetime := false;
     raw_columns := [(LOther (PStr "FY2023"), [PFloat 5000])] |}.

(** An income statement that carries 2023-12-31 on two columns; its only
    row is no synonym of any canonical item. *)
Definition repeated_date_statement : RawFrame :=
  {| raw_index := ["Unlisted Item"];
     raw_is_datetime := true;
     raw_columns := [(LTimestamp fy2023, [PFloat 1]);
                     (LTimestamp fy2023, [PFloat 2])] |}.

(** An income statement over two periods, a balance sheet over one, and
    no cash-flow statement. *)
Definition sample_statements : list (string * option RawFrame) :=
  [("income",
    Some {| raw_index := ["Total Revenue"; "Net Income"];
            raw_is_datetime := true;
            raw_columns :=
              [(LTimestamp fy2023, [PFloat 1000; PFloat 200]);
               (LTimestamp fy2022, [PFloat 900; PFloat nan])] |});
   ("balance",
    Some {| raw_index := ["Total Assets"; "Cash"];
            raw_is_datetime := true;
            raw_columns := [(LTimestamp fy2023, [PFloat 5000; PInt 300])] |});
   ("cashflow", None)].

(** The Standardized Matrix of [sample_statements]. *)
Definition sample_standardized : Frame :=
  {| frame_index := ["revenue"; "net_income"; "cash"; "total_assets"];
     frame_columns :=
       [(fy2023, [1000%float; 200%float; 300%float; 5000%float]);
        (fy2022, [900%float; nan; nan; nan])] |}.

(** One period's items: nothing about stock or debt, an equity of zero,
    and total assets equal to current liabilities. *)
Definition sample_period : mapping :=
  Dict (list_to_map
          [("revenue", PFloat 1000); ("net_income", PInt 200);
           ("operating_income", PFloat 300); ("current_assets", PFloat 800);
           ("current_liabilities", PFloat 500); ("total_assets", PFloat 500);
           ("total_equity", PFloat 0)]).

(** A period with infinite items. *)
Definition unbounded_period : mapping :=
  Dict (list_to_map
          [("gross_profit", PFloat infinity); ("revenue", PFloat infinity);
           ("net_income", PFloat 200)]).

(** A period whose change in cash is infinite, and one whose operating
    cash flow is infinite as well. *)
Definition unbounded_change_in_cash : mapping :=
  Dict (list_to_map
          [("change_in_cash", PFloat infinity);
           ("operating_cash_flow", PFloat 5);
           ("investing_cash_flow", PFloat 0);
           ("financing_cash_flow", PFloat 0)]).
Definition unbounded_cash_flows : mapping :=
  Dict (list_to_map
          [("change_in_cash", PFloat infinity);
           ("operating_cash_flow", PFloat infinity);
           ("investing_cash_flow", PFloat 0);
           ("financing_cash_flow", PFloat 0)]).

(** A period with a revenue of zero and a net income beyond the range of
    a float. *)
Definition overflowing_period : mapping :=
  Dict (list_to_map
          [("revenue", PFloat 0); ("net_income", PInt (10 ^ 400))]).

(** The same period with and without an entry that is no canonical
    item. *)
Definition labelled_period : mapping :=
  Dict (list_to_map [("revenue", PFloat 1000); ("ticker", PStr "AAA")]).
Definition unlabelled_period : mapping :=
  Dict (list_to_map [("revenue", PFloat 1000)]).

(** A sector of one company, and the statistics of such a sector: the
    mean, the median, the minimum and the maximum of one number are that
    number. *)
Definition one_company_sector
  : list (string * list (string * option float)) :=
  [("AAA", [("Net Margin", Some 0.25%float); ("Current Ratio", None)])].

Definition single_company_stat (s : stat)
    (data : list (string * list (string * option float)))
    (ratio_name : string) : res float :=
  match data with
  | [row] =>
      match dict_get row.2 ratio_name with
      | Some (Some x) => Ok x
      | Some None | None => Ok nan
      end
  | _ => Raise ValueError
  end.

(** * Properties *)

(** ** Facts about binary64 arithmetic *)

Lemma SFcompare_refl (x : spec_float) :
  x ≠ S754_nan → SFcompare x x = Some Eq.
Proof.
  destruct x as [s|s| |s m e]; intros Hx; try done.
  - by destruct s.
  - simpl. rewrite Z.compare_refl, Pos.compare_cont_refl. by destruct s.
Qed.

Lemma SFsim_same_float (a b : float) :
  SFsim (Prim2SF a) (Prim2SF b) → same_float a b.
Proof.
  unfold same_float, is_nan. rewrite !FloatAxioms.eqb_spec. unfold SFeqb.
  intros [Heq | [[s Ha] [s' Hb]]].
  - rewrite <- Heq.
    destruct (Prim2SF a) as [s|s| |s m e] eqn:Ha.
    3: by right.
    all: left; by rewrite SFcompare_refl.
  - left. by rewrite Ha, Hb.
Qed.

Lemma Prim2SF_zero : Prim2SF 0%float = S754_zero false.
Proof. reflexivity. Qed.

Lemma eqb_zero (x : float) :
  (x =? 0)%float = true → ∃ s, Prim2SF x = S754_zero s.
Proof.
  rewrite FloatAxioms.eqb_spec, Prim2SF_zero. unfold SFeqb.
  destruct (Prim2SF x) as [s|s| |s m e]; simpl;
    try (by destruct s); try done; eauto.
Qed.

Lemma SFadd_sim (a a' b b' : spec_float) :
  SFsim a a' → SFsim b b' → SFsim (SF64add a b) (SF64add a' b').
Proof.
  intros [-> | [[sa ->] [sa' ->]]] [-> | [[sb ->] [sb' ->]]].
  - by left.
  - destruct a' as [s|s| |s m e]; try (by left);
      destruct s, sb, sb'; simpl; (by left) || (right; eauto).
  - destruct b' as [s|s| |s m e]; try (by left);
      destruct s, sa, sa'; simpl; (by left) || (right; eauto).
  - destruct sa, sa', sb, sb'; simpl; (by left) || (right; eauto).
Qed.

Lemma or_zero_sim (x : option float) :
  SFsim (Prim2SF (or_zero x)) (Prim2SF (default 0%float x)).
Proof.
  destruct x as [f|]; simpl; [|by left].
  destruct (f =? 0)%float eqn:Hz; [|by left].
  apply eqb_zero in Hz as [s Hs]. right. rewrite Prim2SF_zero, Hs. eauto.
Qed.

Lemma or_zero_add (x y : option float) :
  same_float (or_zero x + or_zero y) (default 0 x + default 0 y)%float.
Proof.
  apply SFsim_same_float. rewrite !FloatAxioms.add_spec.
  apply SFadd_sim; apply or_zero_sim.
Qed.

(** NaN and the infinities, on the specification side. *)
Lemma is_nan_spec (x : float) : is_nan x = true ↔ Prim2SF x = S754_nan.
Proof.
  unfold is_nan. rewrite FloatAxioms.eqb_spec. unfold SFeqb.
  destruct (Prim2SF x) as [s|s| |s m e] eqn:Hx; try done;
    by rewrite SFcompare_refl.
Qed.

Lemma is_infinity_spec (x : float) :
  is_infinity x = true ↔ ∃ s, Prim2SF x = S754_infinity s.
Proof.
  unfold is_infinity. rewrite FloatAxioms.eqb_spec, abs_spec.
  change (Prim2SF infinity) with (S754_infinity false). unfold SFeqb.
  destruct (Prim2SF x) as [s|s| |s m e]; simpl; split; try done; eauto;
    by intros [? ?].
Qed.

(** [<=] on spec floats is a total preorder away from NaN. *)
Lemma SFcompare_antisym (a b : spec_float) :
  SFcompare b a = CompOpp <$> SFcompare a b.
Proof.
  destruct a as [sa|sa| |sa ma ea], b as [sb|sb| |sb mb eb]; simpl; try done;
    try (by destruct sa); try (by destruct sb); try (by destruct sa, sb).
  change (Pos.compare_cont Eq ?x ?y) with (Pos.compare x y).
  rewrite (Z.compare_antisym ea eb), (Pos.compare_antisym ma mb).
  destruct sa, sb; simpl; try done;
    destruct (ea ?= eb)%Z; simpl; try done; by destruct (ma ?= mb)%positive.
Qed.

Lemma SFltb_false_leb (a b : spec_float) :
  a ≠ S754_nan → b ≠ S754_nan → SFltb a b = false → SFleb b a = true.
Proof.
  intros Ha Hb. unfold SFltb, SFleb. rewrite (SFcompare_antisym a b).
  assert (∃ c, SFcompare a b = Some c) as [c ->].
  { destruct a as [sa|sa| |sa ma ea], b as [sb|sb| |sb mb eb]; simpl;
      try done; eauto. }
  by destruct c.
Qed.

Lemma SFltb_leb (a b : spec_float) : SFltb a b = true → SFleb a b = true.
Proof. unfold SFltb, SFleb. by destruct (SFcompare a b) as [[]|]. Qed.

Lemma SFleb_trans (a b c : spec_float) :
  SFleb a b = true → SFleb b c = true → SFleb a c = true.
Proof.
  unfold SFleb.
  destruct a as [sa|sa| |sa ma ea], b as [sb|sb| |sb mb eb],
    c as [sc|sc| |sc mc ec]; simpl; try done;
    try (by destruct sa); try (by destruct sb); try (by destruct sc);
    try (by destruct sa, sb); try (by destruct sb, sc);
    try (by destruct sa, sc); try (by destruct sa, sb, sc).
  change (Pos.compare_cont Eq ?x ?y) with (Pos.compare x y).
  destruct sa, sb, sc; try done;
    destruct (Z.compare_spec ea eb), (Z.compare_spec eb ec),
      (Z.compare_spec ea ec); try done; try lia;
    destruct (Pos.compare_spec ma mb), (Pos.compare_spec mb mc),
      (Pos.compare_spec ma mc); simpl; try done; lia.
Qed.

Lemma leb_fmax (x y z : float) :
  is_nan y = false → is_nan z = false →
  (x <=? fmax y z)%float = (x <=? y)%float || (x <=? z)%float.
Proof.
  intros Hy Hz. unfold fmax.
  assert (Prim2SF y ≠ S754_nan) as Hy'.
  { intros H%is_nan_spec. congruence. }
  assert (Prim2SF z ≠ S754_nan) as Hz'.
  { intros H%is_nan_spec. congruence. }
  destruct (y <? z)%float eqn:Hlt.
  - destruct (x <=? y)%float eqn:Hxy; [|done]. simpl.
    rewrite leb_spec in *. rewrite ltb_spec in Hlt.
    eauto using SFleb_trans, SFltb_leb.
  - destruct (x <=? z)%float eqn:Hxz; [|by rewrite orb_false_r].
    rewrite orb_true_r. rewrite leb_spec in *. rewrite ltb_spec in Hlt.
    eauto using SFleb_trans, SFltb_false_leb.
Qed.

Lemma fmax_not_nan (y z : float) :
  is_nan y = false → is_nan z = false → is_nan (fmax y z) = false.
Proof. unfold fmax. by destruct (y <? z)%float. Qed.

(** Rounding never turns a non-negative mantissa into NaN, and the sign
    only shows in the sign of the result. *)
Lemma shr_1_nonneg (mrs : shr_record) :
  (0 ≤ shr_m mrs)%Z → (0 ≤ shr_m (shr_1 mrs))%Z.
Proof. destruct mrs as [[|[p|p|]|p] r s]; simpl; lia. Qed.

Lemma iter_shr_1_nonneg (p : positive) (mrs : shr_record) :
  (0 ≤ shr_m mrs)%Z → (0 ≤ shr_m (SpecFloat.iter_pos shr_1 p mrs))%Z.
Proof.
  revert mrs. induction p as [p IH|p IH|]; intros mrs Hm; simpl;
    auto using shr_1_nonneg.
Qed.

Lemma shr_fexp_nonneg (m e : Z) (l : location) :
  (0 ≤ m)%Z → (0 ≤ shr_m (shr_fexp prec emax m e l).1)%Z.
Proof.
  intros Hm. unfold shr_fexp, shr.
  assert (0 ≤ shr_m (shr_record_of_loc m l))%Z by (by destruct l as [|[]]).
  destruct (_ - e)%Z; simpl; auto using iter_shr_1_nonneg.
Qed.

Lemma round_nearest_even_nonneg (m : Z) (l : location) :
  (0 ≤ m)%Z → (0 ≤ round_nearest_even m l)%Z.
Proof. destruct l as [|[]]; simpl; try destruct (Z.even m); lia. Qed.

Lemma binary_round_aux_not_nan (sx : bool) (m e : Z) (l : location) :
  (0 ≤ m)%Z → binary_round_aux prec emax sx m e l ≠ S754_nan.
Proof.
  intros Hm. unfold binary_round_aux.
  pose proof (shr_fexp_nonneg m e l Hm) as H1.
  destruct (shr_fexp prec emax m e l) as [mrs' e']. simpl in H1.
  pose proof (shr_fexp_nonneg _ e' loc_Exact
    (round_nearest_even_nonneg _ (loc_of_shr_record mrs') H1)) as H2.
  destruct (shr_fexp prec emax _ e' loc_Exact) as [mrs'' e'']. simpl in H2.
  destruct (shr_m mrs''); try lia; try done. by destruct (_ <=? _)%Z.
Qed.

Lemma binary_round_aux_abs (sx : bool) (m e : Z) (l : location) :
  SFabs (binary_round_aux prec emax sx m e l) =
  binary_round_aux prec emax false m e l.
Proof.
  unfold binary_round_aux.
  destruct (shr_fexp prec emax m e l) as [mrs' e'].
  destruct (shr_fexp prec emax _ e' loc_Exact) as [mrs'' e''].
  destruct (shr_m mrs''); try done. by destruct (_ <=? _)%Z.
Qed.

Lemma abs_mul_pos (r x : float) (m : positive) (e : Z) :
  Prim2SF r = S754_finite false m e → abs (r * x) = (r * abs x)%float.
Proof.
  intros Hr. apply Prim2SF_inj.
  rewrite abs_spec, !mul_spec, abs_spec, Hr. unfold SF64mul.
  destruct (Prim2SF x) as [s|s| |s mx ex]; simpl; try done.
  apply binary_round_aux_abs.
Qed.

Lemma mul_pos_not_nan (r x : float) (m : positive) (e : Z) :
  Prim2SF r = S754_finite false m e →
  is_nan x = false → is_nan (r * x) = false.
Proof.
  intros Hr Hx. apply not_true_is_false. intros Hnan%is_nan_spec.
  apply not_true_iff_false in Hx. apply Hx, is_nan_spec.
  rewrite mul_spec, Hr in Hnan. unfold SF64mul in Hnan.
  destruct (Prim2SF x) as [s|s| |s mx ex]; simpl in Hnan; try done.
  by apply binary_round_aux_not_nan in Hnan.
Qed.

Lemma abs_not_nan (x : float) : is_nan x = false → is_nan (abs x) = false.
Proof.
  intros Hx. apply not_true_is_false. intros Hnan%is_nan_spec.
  apply not_true_iff_false in Hx. apply Hx, is_nan_spec.
  rewrite abs_spec in Hnan. by destruct (Prim2SF x).
Qed.

Lemma binary_normalize_abs_opp (m e : Z) (sz sz' : bool) :
  SFabs (binary_normalize prec emax m e sz) =
  SFabs (binary_normalize prec emax (- m) e sz').
Proof.
  destruct m as [|p|p]; simpl; try done; unfold binary_round;
    destruct (shl_align _ _ _) as [mz ez];
    by rewrite !binary_round_aux_abs.
Qed.

Lemma abs_sub_comm (a b : float) : abs (a - b) = abs (b - a).
Proof.
  apply Prim2SF_inj. rewrite !abs_spec, !sub_spec. unfold SF64sub.
  destruct (Prim2SF a) as [sa|sa| |sa ma ea],
    (Prim2SF b) as [sb|sb| |sb mb eb]; simpl; try done;
    try (by destruct sa, sb).
  rewrite (Z.min_comm eb ea).
  rewrite (binary_normalize_abs_opp _ _ false false). f_equal. f_equal. lia.
Qed.

Lemma sub_nan_leb (a b t : float) :
  is_nan a = true ∨ is_nan b = true → (abs (b - a) <=? t)%float = false.
Proof.
  intros Hnan. rewrite leb_spec, abs_spec, sub_spec. unfold SF64sub.
  destruct Hnan as [H%is_nan_spec | H%is_nan_spec]; rewrite H.
  - by destruct (Prim2SF b).
  - done.
Qed.

Lemma sub_equal_zero (a b : float) :
  (a =? b)%float = true → is_infinity a = false → abs (b - a) = 0%float.
Proof.
  rewrite FloatAxioms.eqb_spec. intros Heq Hinf.
  apply Prim2SF_inj. rewrite abs_spec, sub_spec, Prim2SF_zero.
  assert (∀ s, Prim2SF a ≠ S754_infinity s) as Hinf'.
  { intros s Hs. apply not_true_iff_false in Hinf. apply Hinf.
    apply is_infinity_spec. eauto. }
  unfold SFeqb in Heq. unfold SF64sub.
  destruct (Prim2SF a) as [sa|sa| |sa ma ea],
    (Prim2SF b) as [sb|sb| |sb mb eb]; simpl in *; try done;
    try (by destruct sa, sb); try (by destruct sa); try (by destruct sb);
    try (by edestruct Hinf').
  change (Pos.compare_cont Eq ?x ?y) with (Pos.compare x y) in Heq.
  assert (sa = sb ∧ ea = eb ∧ ma = mb) as (-> & -> & ->).
  { destruct sa, sb; try done;
      destruct (Z.compare_spec ea eb); try done;
      destruct (Pos.compare_spec ma mb); try done; by subst. }
  by rewrite Z.sub_diag.
Qed.

Section RoundingFacts.
Local Open Scope Z_scope.

(** *** Rounding of a product is monotone *)

Lemma digits2_pos_bounds (p : positive) :
  2 ^ (Zpos (digits2_pos p) - 1) ≤ Zpos p < 2 ^ Zpos (digits2_pos p).
Proof.
  induction p as [p IH|p IH|]; simpl digits2_pos.
  - rewrite Pos2Z.inj_succ.
    replace (Z.succ (Zpos (digits2_pos p)) - 1)
      with (Z.succ (Zpos (digits2_pos p) - 1)) by lia.
    rewrite !Z.pow_succ_r by lia. lia.
  - rewrite Pos2Z.inj_succ.
    replace (Z.succ (Zpos (digits2_pos p)) - 1)
      with (Z.succ (Zpos (digits2_pos p) - 1)) by lia.
    rewrite !Z.pow_succ_r by lia. lia.
  - simpl. lia.
Qed.

Lemma shr_1_inv P k mrs : shr_inv P k mrs → shr_inv P (k + 1) (shr_1 mrs).
Proof.
  intros (Hk & Hm & low & Hlow & HP & Hs).
  destruct mrs as [m r s]. simpl in Hm, HP, Hs.
  unfold shr_inv.
  assert (0 < 2 ^ k) as Hpow by (apply Z.pow_pos_nonneg; lia).
  replace (2 ^ (k + 1 + 1)) with (4 * 2 ^ k) by (rewrite !Z.pow_add_r; lia).
  replace (2 ^ (k + 1)) with (2 * 2 ^ k) in * by (rewrite !Z.pow_add_r; lia).
  set (N := 2 ^ k) in *. clearbody N.
  set (half := if r then N else 0) in *.
  assert (0 ≤ half ≤ N ∧ (r = true ↔ half ≠ 0)) as [Hhalf Hr].
  { unfold half. destruct r; split; try lia; split; try done; lia. }
  clearbody half.
  assert ((r || s = true) ↔ half + low ≠ 0) as Hs'.
  { rewrite orb_true_iff, Hs, Hr. lia. }
  split; [lia|].
  destruct m as [|[p|p|]|p]; [| | | |exfalso; lia];
    cbn [shr_1 shr_m shr_r shr_s];
    try rewrite (Pos2Z.inj_xI p) in HP; try rewrite (Pos2Z.inj_xO p) in HP;
    (split; [lia|]); exists (half + low);
    (split_and!; [lia | lia | lia | done]).
Qed.

Lemma iter_shr_1_inv P (p : positive) k mrs :
  shr_inv P k mrs → shr_inv P (k + Zpos p) (SpecFloat.iter_pos shr_1 p mrs).
Proof.
  revert k mrs. induction p as [p IH|p IH|]; intros k mrs Hinv; simpl.
  - rewrite (Pos2Z.inj_xI p).
    replace (k + (2 * Zpos p + 1)) with (k + 1 + Zpos p + Zpos p) by lia.
    by apply IH, IH, shr_1_inv.
  - rewrite (Pos2Z.inj_xO p).
    replace (k + 2 * Zpos p) with (k + Zpos p + Zpos p) by lia.
    by apply IH, IH.
  - by apply shr_1_inv.
Qed.

Lemma shr_inv_init (P : Z) :
  0 ≤ P → shr_inv P 0 (shr_record_of_loc P loc_Exact).
Proof.
  intros HP. split; [done|]. split; [done|]. exists 0. simpl.
  split_and!; [lia | lia | lia |]. split; [done | lia].
Qed.

(** The first shift of [binary_round_aux], when there is one. *)
Lemma shr_fexp_inv (P : positive) (E : Z) :
  let t := fexp prec emax (Zpos (digits2_pos P) + E) in
  E < t →
  ∃ mrs, shr_fexp prec emax (Zpos P) E loc_Exact = (mrs, t)
         ∧ shr_inv (Zpos P) (t - E) mrs.
Proof.
  intros t Ht. unfold shr_fexp, shr. fold t. simpl Zdigits2. fold t.
  destruct (t - E) as [|n|n] eqn:Hn; try lia.
  eexists. split.
  - f_equal. lia.
  - replace (Zpos n) with (0 + Zpos n) by lia.
    apply iter_shr_1_inv, shr_inv_init. lia.
Qed.

Lemma round_nearest_even_rne (mrs : shr_record) :
  round_nearest_even (shr_m mrs) (loc_of_shr_record mrs) = rne mrs.
Proof.
  destruct mrs as [m [] []]; unfold rne; simpl; try lia.
  rewrite <- Z.negb_even. destruct (Z.even m); simpl; lia.
Qed.

Lemma rne_bounds mrs : shr_m mrs ≤ rne mrs ≤ shr_m mrs + 1.
Proof. unfold rne. destruct (_ && _); lia. Qed.

(** Rounding on one grid is monotone. *)
Lemma rne_mono (P1 P2 n1 n2 δ : Z) (mrs1 mrs2 : shr_record) :
  shr_inv P1 n1 mrs1 → shr_inv P2 n2 mrs2 →
  n1 = n2 + δ → 0 ≤ δ → P1 ≤ P2 * 2 ^ δ →
  rne mrs1 ≤ rne mrs2.
Proof.
  intros (Hn1 & Hm1 & low1 & Hlow1 & HP1 & Hs1)
         (Hn2 & Hm2 & low2 & Hlow2 & HP2 & Hs2) -> Hδ Hle.
  destruct mrs1 as [m1 r1 s1], mrs2 as [m2 r2 s2]. unfold rne. simpl in *.
  replace (2 ^ (n2 + δ + 1)) with (2 * (2 ^ n2 * 2 ^ δ)) in HP1
    by (rewrite !Z.pow_add_r by lia; lia).
  replace (2 ^ (n2 + δ)) with (2 ^ n2 * 2 ^ δ) in *
    by (rewrite !Z.pow_add_r by lia; lia).
  replace (2 ^ (n2 + 1)) with (2 * 2 ^ n2) in HP2
    by (rewrite !Z.pow_add_r by lia; lia).
  assert (0 < 2 ^ n2) as HN by (apply Z.pow_pos_nonneg; lia).
  assert (0 < 2 ^ δ) as HK by (apply Z.pow_pos_nonneg; lia).
  set (N := 2 ^ n2) in *. set (K := 2 ^ δ) in *. clearbody N K.
  set (h1 := if r1 then N * K else 0) in *.
  set (h2 := if r2 then N else 0) in *.
  assert (0 ≤ h1 ∧ (r1 = true → h1 = N * K) ∧ (r1 = false → h1 = 0))
    as (Hh1 & Hh1t & Hh1f).
  { unfold h1. destruct r1; split_and!; try done; nia. }
  assert (0 ≤ h2 ≤ N ∧ (r2 = true → h2 = N) ∧ (r2 = false → h2 = 0))
    as (Hh2 & Hh2t & Hh2f).
  { unfold h2. destruct r2; split_and!; try done; lia. }
  clearbody h1 h2.
  assert (2 * P1 ≤ 2 * P2 * K) as Hle2 by lia.
  rewrite HP1, HP2 in Hle2.
  assert (m1 ≤ m2) as Hm by nia.
  destruct (decide (m1 = m2)) as [<-|Hne].
  2:{ destruct (r1 && _), (r2 && _); lia. }
  assert (h1 + low1 ≤ (h2 + low2) * K) as HT by nia.
  destruct (r1 && (s1 || Z.odd m1)) eqn:Hup1; [|destruct (r2 && _); lia].
  apply andb_true_iff in Hup1 as [-> Hup1].
  specialize (Hh1t eq_refl). subst h1.
  assert (r2 = true) as ->.
  { destruct r2; [done|]. specialize (Hh2f eq_refl). subst h2. nia. }
  specialize (Hh2t eq_refl). subst h2. simpl.
  apply orb_true_iff in Hup1 as [-> | ->]; [|by rewrite orb_true_r].
  assert (low1 ≠ 0) as Hl1 by by apply Hs1.
  assert (low2 ≠ 0) as Hl2 by nia.
  apply Hs2 in Hl2 as ->. simpl. lia.
Qed.

Lemma fexp_eq (e : Z) : fexp prec emax e = Z.max (e - 53) (-1074).
Proof. reflexivity. Qed.

Lemma shr_inv_bound (P : positive) (n : Z) (mrs : shr_record) :
  shr_inv (Zpos P) n mrs →
  Zpos (digits2_pos P) - 53 ≤ n →
  shr_m mrs < 2 ^ 53.
Proof.
  intros (Hn & Hm & low & Hlow & HP & Hs) HD.
  pose proof (digits2_pos_bounds P) as [_ HPD].
  assert (2 ^ Zpos (digits2_pos P) ≤ 2 ^ (53 + n)) as Hpow
    by (apply Z.pow_le_mono_r; lia).
  rewrite Z.pow_add_r in Hpow by lia.
  replace (2 ^ (n + 1)) with (2 * 2 ^ n) in HP
    by (rewrite Z.pow_add_r by lia; lia).
  assert (0 < 2 ^ n) as HN by (apply Z.pow_pos_nonneg; lia).
  assert (0 ≤ (if shr_r mrs then 2 ^ n else 0))
    by (destruct (shr_r mrs); lia).
  set (N := 2 ^ n) in *. set (B := 2 ^ 53) in *. clearbody N.
  assert (0 < B) by done. clearbody B. nia.
Qed.

Lemma bra_shape (P : positive) (E : Z) :
  let t := fexp prec emax (Zpos (digits2_pos P) + E) in
  E < t →
  ∃ mrs, shr_inv (Zpos P) (t - E) mrs
         ∧ 0 ≤ rne mrs ≤ 2 ^ 53
         ∧ binary_round_aux prec emax false (Zpos P) E loc_Exact
           = carried (rne mrs) t.
Proof.
  intros t Ht. destruct (shr_fexp_inv P E Ht) as (mrs & Heq & Hinv).
  fold t in Heq, Hinv.
  assert (-1074 ≤ t) as Htmin by (unfold t; rewrite fexp_eq; lia).
  assert (shr_m mrs < 2 ^ 53) as Hm.
  { apply (shr_inv_bound P (t - E)); [done|].
    unfold t. rewrite fexp_eq. lia. }
  assert (0 ≤ shr_m mrs) as Hm0 by apply Hinv.
  pose proof (rne_bounds mrs) as Hrne.
  exists mrs. split; [done|]. split; [lia|].
  unfold binary_round_aux. rewrite Heq, round_nearest_even_rne.
  set (M := rne mrs) in *. clearbody M. unfold carried.
  destruct (Z.eqb_spec M 0) as [->|HM0].
  { unfold shr_fexp, shr. simpl Zdigits2. rewrite fexp_eq.
    destruct (Z.max (0 + t - 53) (-1074) - t) eqn:Hn; try lia; done. }
  destruct (Z.eqb_spec M (2 ^ 53)) as [->|HM53].
  { change (2 ^ 53) with 9007199254740992. unfold shr_fexp.
    change (Zdigits2 9007199254740992) with 54. rewrite fexp_eq.
    replace (Z.max (54 + t - 53) (-1074) - t) with 1 by lia.
    cbn [shr SpecFloat.iter_pos shr_record_of_loc shr_1 shr_m].
    replace (t + 1 <=? 971) with (t + 1 <=? emax - prec); done. }
  destruct M as [|q|q]; try lia.
  pose proof (digits2_pos_bounds q) as [Hq _].
  assert (Zpos (digits2_pos q) - 1 < 53) as Hd.
  { apply (Z.pow_lt_mono_r_iff 2); lia. }
  unfold shr_fexp, shr. simpl Zdigits2. rewrite fexp_eq.
  destruct (Z.max (Zpos (digits2_pos q) + t - 53) (-1074) - t) eqn:Hn;
    try lia; simpl; done.
Qed.

Lemma carried_carry (t : Z) :
  carried (2 ^ 53) t = finite_or_inf (2 ^ 52) (t + 1).
Proof. reflexivity. Qed.

Lemma carried_no_carry (M t : Z) :
  M ≠ 2 ^ 53 → carried M t = finite_or_inf M t.
Proof.
  intros HM. unfold carried, finite_or_inf.
  destruct (M =? 0); [done|]. by destruct (Z.eqb_spec M (2 ^ 53)).
Qed.

Lemma finite_or_inf_mono (m1 e1 m2 e2 : Z) :
  0 ≤ m1 → 0 ≤ m2 →
  m1 = 0 ∨ (0 < m2 ∧ (e1 < e2 ∨ (e1 = e2 ∧ m1 ≤ m2))) →
  SFleb (finite_or_inf m1 e1) (finite_or_inf m2 e2) = true.
Proof.
  intros Hm1 Hm2 Hle. unfold finite_or_inf, SFleb.
  destruct (Z.eqb_spec m1 0) as [->|Hm1'].
  { destruct (m2 =? 0); [done|]. by destruct (e2 <=? 971). }
  destruct Hle as [?|[Hm2' Hle]]; [done|].
  destruct (Z.eqb_spec m2 0) as [?|_]; [lia|].
  destruct (Z.leb_spec e1 971), (Z.leb_spec e2 971); try done; try lia.
  simpl. change (Pos.compare_cont Eq ?a ?b) with (Pos.compare a b).
  rewrite (Pos2Z.inj_compare (Z.to_pos m1) (Z.to_pos m2)).
  rewrite !Z2Pos.id by lia.
  destruct (Z.compare_spec e1 e2); try done; try lia.
  destruct (Z.compare_spec m1 m2); try done; lia.
Qed.

Lemma carried_mono (Ma ta Mb tb : Z) :
  0 ≤ Ma ≤ 2 ^ 53 → 0 ≤ Mb ≤ 2 ^ 53 →
  (ta = tb ∧ Ma ≤ Mb) ∨ (ta < tb ∧ 2 ^ 52 ≤ Mb) →
  SFleb (carried Ma ta) (carried Mb tb) = true.
Proof.
  intros Ha Hb Hab.
  destruct (decide (Ma = 2 ^ 53)) as [->|Ha'],
    (decide (Mb = 2 ^ 53)) as [->|Hb'];
    rewrite ?carried_carry, ?carried_no_carry by done;
    apply finite_or_inf_mono; try done; try lia.
Qed.

Lemma digits_le (P1 P2 : positive) (δ : Z) :
  0 ≤ δ → Zpos P1 ≤ Zpos P2 * 2 ^ δ →
  Zpos (digits2_pos P1) ≤ Zpos (digits2_pos P2) + δ.
Proof.
  intros Hδ Hle.
  pose proof (digits2_pos_bounds P1) as [H1 _].
  pose proof (digits2_pos_bounds P2) as [_ H2].
  assert (0 < 2 ^ δ) as HK by (apply Z.pow_pos_nonneg; lia).
  assert (2 ^ (Zpos (digits2_pos P1) - 1)
          < 2 ^ (Zpos (digits2_pos P2) + δ)) as Hlt.
  { rewrite (Z.pow_add_r 2 (Zpos _) δ) by lia. nia. }
  apply Z.pow_lt_mono_r_iff in Hlt; lia.
Qed.

(** Rounding a product is monotone in the product. *)
Lemma bra_mono (P1 P2 : positive) (E δ : Z) :
  0 ≤ δ → Zpos P1 ≤ Zpos P2 * 2 ^ δ →
  E < fexp prec emax (Zpos (digits2_pos P1) + E) →
  E + δ < fexp prec emax (Zpos (digits2_pos P2) + (E + δ)) →
  SFleb (binary_round_aux prec emax false (Zpos P1) E loc_Exact)
        (binary_round_aux prec emax false (Zpos P2) (E + δ) loc_Exact)
  = true.
Proof.
  intros Hδ Hle Hn1 Hn2.
  destruct (bra_shape P1 E Hn1) as (mrs1 & Hinv1 & HM1 & ->).
  destruct (bra_shape P2 (E + δ) Hn2) as (mrs2 & Hinv2 & HM2 & ->).
  pose proof (digits_le P1 P2 δ Hδ Hle) as HD.
  rewrite !fexp_eq in *.
  set (D1 := Zpos (digits2_pos P1)) in *.
  set (D2 := Zpos (digits2_pos P2)) in *.
  apply carried_mono; [done..|].
  destruct (decide (Z.max (D1 + E - 53) (-1074)
                    = Z.max (D2 + (E + δ) - 53) (-1074))) as [Heq|Hne].
  - left. split; [done|].
    apply (rne_mono (Zpos P1) (Zpos P2) _ _ δ _ _ Hinv1 Hinv2); [lia|done..].
  - right. split; [lia|].
    assert (Z.max (D2 + (E + δ) - 53) (-1074) - (E + δ) = D2 - 53) as Hn
      by lia.
    rewrite Hn in Hinv2.
    destruct Hinv2 as (Hk & Hm & low & Hlow & HP & Hs).
    pose proof (digits2_pos_bounds P2) as [HP2 _]. fold D2 in HP2.
    replace (D2 - 1) with (52 + (D2 - 53)) in HP2 by lia.
    rewrite Z.pow_add_r in HP2 by lia.
    replace (2 ^ (D2 - 53 + 1)) with (2 * 2 ^ (D2 - 53)) in HP
      by (rewrite Z.pow_add_r by lia; lia).
    assert (0 < 2 ^ (D2 - 53)) as HN by (apply Z.pow_pos_nonneg; lia).
    assert ((if shr_r mrs2 then 2 ^ (D2 - 53) else 0) ≤ 2 ^ (D2 - 53))
      by (destruct (shr_r mrs2); lia).
    pose proof (rne_bounds mrs2).
    change (2 ^ 52) with 4503599627370496 in *.
    set (N := 2 ^ (D2 - 53)) in *. clearbody N. nia.
Qed.

Lemma bra_nonneg (m e : Z) (l : location) :
  0 ≤ m →
  SFleb (S754_zero false) (binary_round_aux prec emax false m e l) = true.
Proof.
  intros Hm. pose proof (binary_round_aux_not_nan false m e l Hm) as Hnan.
  unfold binary_round_aux in *.
  destruct (shr_fexp prec emax m e l) as [mrs' e'].
  destruct (shr_fexp prec emax _ e' loc_Exact) as [mrs'' e''].
  destruct (shr_m mrs''); try done. by destruct (_ <=? _).
Qed.

Lemma canonical_digits (m : positive) (e : Z) :
  SpecFloat.valid_binary prec emax (S754_finite false m e) = true →
  Z.max (Zpos (digits2_pos m) + e - 53) (-1074) = e.
Proof.
  simpl. unfold bounded, canonical_mantissa. rewrite fexp_eq.
  intros [H%Z.eqb_eq _]%andb_true_iff. done.
Qed.

(** Multiplication by a positive normal number with a negative exponent
    is monotone on non-negative numbers. *)
Lemma SFmul_mono (mr : positive) (er : Z) (X Y : spec_float) :
  2 ^ 52 ≤ Zpos mr → er < 0 →
  SpecFloat.valid_binary prec emax (SFabs X) = true →
  SpecFloat.valid_binary prec emax (SFabs Y) = true →
  SFleb (SFabs X) (SFabs Y) = true →
  SFleb (SF64mul (S754_finite false mr er) (SFabs X))
        (SF64mul (S754_finite false mr er) (SFabs Y)) = true.
Proof.
  intros Hmr Her HvX HvY Hle. unfold SF64mul.
  destruct X as [sx|sx| |sx mx ex], Y as [sy|sy| |sy my ey];
    simpl in Hle |- *; try done.
  - apply bra_nonneg. lia.
  - pose proof (binary_round_aux_not_nan false (Zpos (mr * mx)) (er + ex)
                  loc_Exact ltac:(lia)) as Hnan.
    unfold SFleb.
    by destruct (binary_round_aux prec emax false _ _ _) as [[]|[]| |[]].
  - apply canonical_digits in HvX, HvY. simpl SFabs in HvX, HvY.
    pose proof (digits2_pos_bounds mx) as [Hmx1 Hmx2].
    pose proof (digits2_pos_bounds my) as [Hmy1 Hmy2].
    set (Dx := Zpos (digits2_pos mx)) in *.
    set (Dy := Zpos (digits2_pos my)) in *.
    assert (ex ≤ ey ∧ (ex = ey → Zpos mx ≤ Zpos my)) as [Hex Hm].
    { unfold SFleb in Hle. simpl in Hle.
      change (Pos.compare_cont Eq ?a ?b) with (Pos.compare a b) in Hle.
      rewrite (Pos2Z.inj_compare mx my) in Hle.
      destruct (Z.compare_spec ex ey); try done; try lia.
      destruct (Z.compare_spec (Zpos mx) (Zpos my)); try done; lia. }
    replace (er + ey) with (er + ex + (ey - ex)) by lia.
    assert (Zpos mx ≤ Zpos my * 2 ^ (ey - ex)) as Hval.
    { destruct (decide (ex = ey)) as [->|Hne].
      - rewrite Z.sub_diag. simpl. lia.
      - assert (Dy = 53) as HDy by lia. assert (Dx ≤ 53) as HDx by lia.
        rewrite HDy in Hmy1. change (2 ^ (53 - 1)) with (2 ^ 52) in Hmy1.
        assert (2 ^ Dx ≤ 2 ^ 53) by (apply Z.pow_le_mono_r; lia).
        assert (2 ^ 1 ≤ 2 ^ (ey - ex)) by (apply Z.pow_le_mono_r; lia).
        change (2 ^ 1) with 2 in *. change (2 ^ 53) with (2 * 2 ^ 52) in *.
        set (B := 2 ^ 52) in *. set (K := 2 ^ (ey - ex)) in *.
        clearbody B K. nia. }
    assert (∀ (m : positive) (e : Z),
              Z.max (Zpos (digits2_pos m) + e - 53) (-1074) = e →
              er + e < fexp prec emax
                         (Zpos (digits2_pos (mr * m)) + (er + e))) as Hshift.
    { intros m e Hcan. rewrite fexp_eq.
      pose proof (digits2_pos_bounds (mr * m)) as [_ HP].
      rewrite Pos2Z.inj_mul in HP.
      destruct (decide (m = 1%positive)) as [->|Hm1].
      - simpl in Hcan. lia.
      - assert (2 ≤ Zpos m) by lia.
        assert (2 ^ 53 < 2 ^ Zpos (digits2_pos (mr * m))) as Hlt.
        { change (2 ^ 53) with (2 * 2 ^ 52). set (B := 2 ^ 52) in *.
          clearbody B. nia. }
        apply Z.pow_lt_mono_r_iff in Hlt; lia. }
    apply bra_mono.
    + lia.
    + rewrite !Pos2Z.inj_mul.
      assert (0 < 2 ^ (ey - ex)) by (apply Z.pow_pos_nonneg; lia).
      set (K := 2 ^ (ey - ex)) in *. clearbody K. nia.
    + by apply Hshift.
    + replace (er + ex + (ey - ex)) with (er + ey) by lia. by apply Hshift.
Qed.

End RoundingFacts.

Lemma leb_trans (a b c : float) :
  (a <=? b)%float = true → (b <=? c)%float = true → (a <=? c)%float = true.
Proof. rewrite !leb_spec. apply SFleb_trans. Qed.

Lemma mul_abs_mono (r x y : float) (mr : positive) (er : Z) :
  Prim2SF r = S754_finite false mr er →
  (2 ^ 52 ≤ Zpos mr)%Z → (er < 0)%Z →
  (abs x <=? abs y)%float = true →
  (r * abs x <=? r * abs y)%float = true.
Proof.
  intros Hr Hmr Her. rewrite !leb_spec, !mul_spec, !abs_spec, Hr.
  apply SFmul_mono; try done; rewrite <- abs_spec; apply Prim2SF_valid.
Qed.

(** A positive factor goes through [max]. *)
Lemma leb_mul_fmax (r d x y : float) (mr : positive) (er : Z) :
  Prim2SF r = S754_finite false mr er →
  (2 ^ 52 ≤ Zpos mr)%Z → (er < 0)%Z →
  is_nan x = false → is_nan y = false →
  (d <=? r * fmax (abs x) (abs y))%float
  = (d <=? r * abs x)%float || (d <=? r * abs y)%float.
Proof.
  intros Hr Hmr Her Hx%abs_not_nan Hy%abs_not_nan. unfold fmax.
  assert (Prim2SF (abs x) ≠ S754_nan) as Hx'.
  { intros H%is_nan_spec. congruence. }
  assert (Prim2SF (abs y) ≠ S754_nan) as Hy'.
  { intros H%is_nan_spec. congruence. }
  destruct (abs x <? abs y)%float eqn:Hlt; rewrite ltb_spec in Hlt.
  - assert ((r * abs x <=? r * abs y)%float = true) as Hmono.
    { apply (mul_abs_mono r x y mr er); try done.
      rewrite leb_spec. by apply SFltb_leb. }
    destruct (d <=? r * abs x)%float eqn:Hd; [|done]. simpl.
    by apply (leb_trans d (r * abs x)).
  - assert ((r * abs y <=? r * abs x)%float = true) as Hmono.
    { apply (mul_abs_mono r y x mr er); try done.
      rewrite leb_spec. by apply SFltb_false_leb. }
    destruct (d <=? r * abs y)%float eqn:Hd; [|by rewrite orb_false_r].
    rewrite orb_true_r. by apply (leb_trans d (r * abs y)).
Qed.

(** ** The ratio engine *)

Section RatioEngine.
Variable float_of_str : string → option float.

Lemma safe_division_opt (n d : option float) :
  _safe_division float_of_str (of_opt n) (of_opt d) = Ok (spec_division n d).
Proof.
  destruct n as [x|], d as [y|]; try done.
  unfold _safe_division; simpl. by destruct (y =? 0)%float.
Qed.

(** C3. For operands that are floats or absent, as the ratio engine passes
    them, [_safe_division] returns without raising; the result is absent
    when the numerator is absent, when the denominator is absent and when
    the denominator equals zero, and is the float quotient otherwise. *)
Theorem safe_division_spec (n d : option float) :
  _safe_division float_of_str (of_opt n) (of_opt d) =
  Ok match n, d with
     | None, _ => None
     | _, None => None
     | Some x, Some y => if (y =? 0)%float then None else Some (x / y)%float
     end.
Proof. rewrite safe_division_opt. by destruct n, d. Qed.

Lemma _get_no_overflow (period_data : mapping) (key : string) :
  overflows (mapping_get period_data key) = false →
  _get float_of_str period_data key
  = Ok (_get_float float_of_str period_data key).
Proof.
  unfold _get, _get_float, overflows.
  destruct (mapping_get period_data key) as [| |b|z|f|s|]; simpl; try done.
  - unfold float_of_int. by intros ->.
  - by destruct (is_nan f).
  - by destruct (float_of_str s).
Qed.

Lemma _get_overflow (period_data : mapping) (key : string) :
  overflows (mapping_get period_data key) = true →
  _get float_of_str period_data key = Raise OverflowError.
Proof.
  unfold _get, overflows.
  destruct (mapping_get period_data key) as [| |b|z|f|s|]; simpl; try done.
  unfold float_of_int. by intros ->.
Qed.

Lemma _get_cases (period_data : mapping) (key : string) :
  _get float_of_str period_data key = Raise OverflowError
  ∨ _get float_of_str period_data key
    = Ok (_get_float float_of_str period_data key).
Proof.
  destruct (overflows (mapping_get period_data key)) eqn:Hov.
  - left. by apply _get_overflow.
  - right. by apply _get_no_overflow.
Qed.

(** The single-period entry either raises OverflowError or returns the
    fourteen ratios of the items it retrieved. *)
Lemma calculate_single_period_ratios_cases (period_data : mapping) :
  calculate_single_period_ratios float_of_str period_data
    = Raise OverflowError
  ∨ calculate_single_period_ratios float_of_str period_data
    = Ok (clean_ratio <$> ratio_table (_get_float float_of_str period_data)).
Proof.
  unfold calculate_single_period_ratios.
  repeat match goal with
    | |- context [_get float_of_str period_data ?key] =>
        destruct (_get_cases period_data key) as [-> | ->]; [by left|];
        cbn [mbind res_bind]
    end.
  right. by rewrite !safe_division_opt.
Qed.

(** Unless an item is an integer beyond the range of binary64, the
    single-period entry returns, with all fourteen ratios. *)
Lemma calculate_single_period_ratios_returns (period_data : mapping) :
  (∀ key, overflows (mapping_get period_data key) = false) →
  calculate_single_period_ratios float_of_str period_data =
  Ok (clean_ratio <$> ratio_table (_get_float float_of_str period_data)).
Proof.
  intros Hrange. unfold calculate_single_period_ratios.
  rewrite !_get_no_overflow by apply Hrange. simpl.
  by rewrite !safe_division_opt.
Qed.

(** C4, at an input on which the code raises: an item holding an integer
    too large for a float.  [float()] raises OverflowError, which none of
    the handlers of [_get] catches; the verifier's [_get_float] returns
    None on the same item. *)
Theorem calculate_single_period_ratios_overflow :
  let period_data := Dict {[ "revenue" := PInt (10 ^ 400) ]} in
  calculate_single_period_ratios float_of_str period_data
    = Raise OverflowError
  ∧ _get_float float_of_str period_data "revenue" = None.
Proof. split; by vm_compute. Qed.

(** C6. [total_debt] is absent exactly when both short-term and long-term
    debt are absent; otherwise it is the number short_term_debt +
    long_term_debt with an absent part counted as zero (50 and absent give
    50).  It is the numerator of the ratios that
    [calculate_single_period_ratios] returns as Debt to Equity and as
    Debt Ratio. *)
Theorem total_debt_composite (std ltd : option float) :
  same_opt_float (total_debt std ltd) (spec_total_debt std ltd)
  ∧ (total_debt std ltd = None ↔ std = None ∧ ltd = None)
  ∧ total_debt (Some 50%float) None = Some 50%float
  ∧ (∀ period_data ratios,
       calculate_single_period_ratios float_of_str period_data = Ok ratios →
       let item := _get_float float_of_str period_data in
       let debt :=
         total_debt (item "short_term_debt") (item "long_term_debt") in
       ratios !! "Debt to Equity" =
         Some (clean_ratio (spec_division debt (item "total_equity")))
       ∧ ratios !! "Debt Ratio" =
         Some (clean_ratio (spec_division debt (item "total_assets")))).
Proof.
  split_and!.
  - destruct std, ltd; try done; apply (or_zero_add (Some _) (Some _))
      || apply (or_zero_add (Some _) None) || apply (or_zero_add None (Some _)).
  - destruct std, ltd; split; try done; by intros [? ?].
  - reflexivity.
  - intros period_data ratios Hrun.
    destruct (calculate_single_period_ratios_cases period_data)
      as [Hraise | Hok]; rewrite Hrun in *; [done|].
    injection Hok as ->. rewrite !lookup_fmap. split; reflexivity.
Qed.

End RatioEngine.

(** ** The consistency verifier *)

Section Verifier.
Variable float_of_str : string → option float.

Lemma run_checks_dom (period_data : mapping) :
  dom (run_checks float_of_str period_data) = six_checks.
Proof.
  unfold run_checks, six_checks. rewrite !dom_insert_L, dom_empty_L.
  set_solver.
Qed.

Lemma six_checks_size : size six_checks = 6%nat.
Proof. by vm_compute. Qed.

(** C1, as the code has it. The report of an accepted input has exactly
    six entries, one under each of the six check names, each of them
    Passed, Failed or Skipped. For [None], an empty dict and an empty
    Series the report has the single entry InputValidation and no check
    entry. *)
Theorem verify_report_entries (period_data : option mapping) :
  let report := verify_financial_consistency float_of_str period_data in
  dom report = (if accepted period_data then six_checks
                else {[ "InputValidation" ]})
  ∧ size report = (if accepted period_data then 6%nat else 1%nat).
Proof.
  assert (∀ report : gmap string check_result,
            dom report = six_checks → size report = 6%nat) as Hsize.
  { intros report Hdom. by rewrite <- size_dom, Hdom, six_checks_size. }
  destruct period_data as [[items|items]|]; simpl;
    try case_decide; simplify_eq/=;
    rewrite ?bool_decide_eq_true_2, ?bool_decide_eq_false_2 by done; simpl;
    rewrite ?dom_singleton_L, ?map_size_singleton, ?run_checks_dom;
    auto using run_checks_dom.
Qed.

Lemma isclose_finite (c s : float) :
  is_finite c = true → is_finite s = true →
  math_isclose c s 0.02 1000 = within_tolerance c s.
Proof.
  unfold is_finite. intros Hc Hs.
  apply negb_true_iff, orb_false_iff in Hc as [Hc_nan Hc_inf].
  apply negb_true_iff, orb_false_iff in Hs as [Hs_nan Hs_inf].
  unfold math_isclose, within_tolerance.
  rewrite Hc_inf, Hs_inf. simpl.
  rewrite (abs_sub_comm c s).
  rewrite !(abs_mul_pos 0.02 _ _ _ eq_refl).
  rewrite leb_fmax;
    [|by apply (mul_pos_not_nan 0.02 _ _ _ eq_refl), fmax_not_nan;
         apply abs_not_nan
     |done].
  rewrite (leb_mul_fmax 0.02 _ c s _ _ eq_refl) by done.
  destruct (c =? s)%float eqn:Heq.
  - rewrite (sub_equal_zero c s Heq Hc_inf). symmetry. apply orb_true_r.
  - by rewrite (orb_comm (_ <=? 0.02 * abs s)%float).
Qed.

Lemma isclose_not_finite (c s rel_tol abs_tol : float) :
  is_finite c && is_finite s = false →
  math_isclose c s rel_tol abs_tol = (c =? s)%float.
Proof.
  unfold math_isclose, is_finite. intros Hfin.
  destruct (c =? s)%float; [done|].
  destruct (is_infinity c) eqn:Hc_inf; [done|].
  destruct (is_infinity s) eqn:Hs_inf; [done|]. simpl.
  rewrite !orb_false_r in Hfin.
  assert (is_nan c = true ∨ is_nan s = true) as Hnan.
  { destruct (is_nan c), (is_nan s); auto. }
  by rewrite !sub_nan_leb.
Qed.

(** C7. The report's CashFlowSumCheck entry is the cash-flow check of the
    four retrieved items. With all four present and the two sides finite
    it is Passed exactly when
    |change_in_cash - sum| <= max(0.02 * max(|change_in_cash|, |sum|), 1000),
    where sum = operating + investing + financing and every operation is
    the binary64 one; with a NaN or an infinity among the two sides it is
    Passed exactly when they are equal. 100 against 50 + 30 + 10 passes;
    100000 against 50000 + 30000 + 16000 fails with difference 4000. *)
Theorem cash_flow_sum_check_tolerance :
  (∀ period_data : mapping,
     let item := _get_float float_of_str period_data in
     run_checks float_of_str period_data !! "CashFlowSumCheck" =
     Some (cash_flow_sum_check (item "change_in_cash")
             (item "operating_cash_flow") (item "investing_cash_flow")
             (item "financing_cash_flow")))
  ∧ (∀ c o i f : float,
       let s := (o + i + f)%float in
       cash_flow_sum_check (Some c) (Some o) (Some i) (Some f) = Passed ↔
       (if is_finite c && is_finite s then within_tolerance c s
        else (c =? s)%float) = true)
  ∧ cash_flow_sum_check (Some 100%float) (Some 50%float) (Some 30%float)
      (Some 10%float) = Passed
  ∧ cash_flow_sum_check (Some 100000%float) (Some 50000%float)
      (Some 30000%float) (Some 16000%float) =
    Failed (Mismatch "ChangeCash" "SumCF" 100000 96000 4000).
Proof.
  split_and!; try reflexivity.
  intros c o i f s. unfold cash_flow_sum_check. fold s.
  destruct (is_finite c && is_finite s) eqn:Hfin.
  - apply andb_true_iff in Hfin as [Hc Hs].
    rewrite <- (isclose_finite c s Hc Hs).
    by destruct (math_isclose c s 0.02 1000).
  - rewrite <- (isclose_not_finite c s 0.02 1000 Hfin).
    by destruct (math_isclose c s 0.02 1000).
Qed.

End Verifier.

(** C1, on the inputs the validation rejects: for [None], an empty dict
    and an empty Series the report is the single entry InputValidation; it
    has no entry for any of the six checks. *)
Lemma verify_rejected_input_single_entry :
  verify_financial_consistency reject_strings None =
    {[ "InputValidation" := Failed (NoData "No data received for period.") ]}
  ∧ verify_financial_consistency reject_strings (Some (Dict ∅)) =
    {[ "InputValidation" :=
         Failed (NoData "Empty data dictionary received.") ]}
  ∧ verify_financial_consistency reject_strings (Some (Series ∅)) =
    {[ "InputValidation" := Failed (NoData "Empty data Series received.") ]}
  ∧ size (verify_financial_consistency reject_strings None) ≠ 6%nat
  ∧ verify_financial_consistency reject_strings None !! "BalanceSheetEq"
    = None.
Proof. split_and!; try reflexivity. by vm_compute. Qed.

(** ** Insertion-ordered dictionaries *)

Section OrderedDictFacts.
Context {K V : Type} `{EqDecision K}.
Implicit Types (d : list (K * V)) (k : K) (v : V).

Lemma dict_get_set_eq d k v : dict_get (dict_set d k v) k = Some v.
Proof.
  induction d as [|[k' v'] d IH]; simpl.
  - by rewrite decide_True.
  - case_decide; simpl; [by rewrite decide_True | by rewrite decide_False].
Qed.

Lemma dict_get_set_ne d k k' v :
  k ≠ k' → dict_get (dict_set d k v) k' = dict_get d k'.
Proof.
  intros Hne. induction d as [|[k0 v0] d IH]; simpl.
  - by rewrite decide_False.
  - case_decide; simpl; subst.
    + by rewrite !decide_False.
    + by rewrite IH.
Qed.

Lemma dict_set_not_nil d k v : dict_set d k v ≠ [].
Proof. destruct d as [|[k' v'] d]; simpl; [done|]. by case_decide. Qed.

Lemma elem_of_dict_set d k v k' v' :
  (k', v') ∈ dict_set d k v → (k', v') ∈ d ∨ (k', v') = (k, v).
Proof.
  induction d as [|[k0 v0] d IH]; simpl.
  - intros ->%list_elem_of_singleton. by right.
  - case_decide; subst; rewrite !elem_of_cons; naive_solver.
Qed.

Lemma dict_get_Some_elem_of d k v : dict_get d k = Some v → (k, v) ∈ d.
Proof.
  induction d as [|[k0 v0] d IH]; simpl; [done|].
  case_decide; subst; rewrite elem_of_cons; naive_solver.
Qed.

Lemma dict_get_None_not_key d k : dict_get d k = None → k ∉ d.*1.
Proof.
  induction d as [|[k0 v0] d IH]; simpl; [set_solver|].
  case_decide; [done|]. rewrite not_elem_of_cons. naive_solver.
Qed.

Lemma dict_get_NoDup d k v :
  NoDup d.*1 → (k, v) ∈ d → dict_get d k = Some v.
Proof.
  induction d as [|[k0 v0] d IH]; simpl; [by intros _ ?%elem_of_nil|].
  intros [Hk0 Hnd]%NoDup_cons [[= -> ->] | Hin]%elem_of_cons.
  - by rewrite decide_True.
  - rewrite decide_False; [by apply IH|].
    intros ->. apply Hk0. apply list_elem_of_fmap. by exists (k, v).
Qed.

(** With distinct keys, reading by key does not depend on the order in
    which a dictionary enumerates its entries. *)
Lemma dict_get_Permutation d d' k :
  NoDup d.*1 → d ≡ₚ d' → dict_get d k = dict_get d' k.
Proof.
  intros Hnd Hperm.
  assert (NoDup d'.*1) as Hnd' by by rewrite <- Hperm.
  destruct (dict_get d k) as [v|] eqn:Hget.
  - symmetry. apply dict_get_NoDup; [done|].
    rewrite <- Hperm. by apply dict_get_Some_elem_of.
  - destruct (dict_get d' k) as [v'|] eqn:Hget'; [|done].
    apply dict_get_Some_elem_of in Hget'. rewrite <- Hperm in Hget'.
    apply dict_get_NoDup in Hget'; [congruence | done].
Qed.

Lemma dict_set_keys_NoDup d k v : NoDup d.*1 → NoDup (dict_set d k v).*1.
Proof.
  induction d as [|[k0 v0] d IH]; simpl.
  - intros _. apply NoDup_singleton.
  - intros [Hk0 Hnd]%NoDup_cons. case_decide; simpl; subst.
    + by apply NoDup_cons.
    + apply NoDup_cons. split; [|by apply IH].
      intros [[k1 v1] [? Hin]]%list_elem_of_fmap. simpl in *. subst k1.
      apply elem_of_dict_set in Hin as [Hin | [= -> ->]]; [|done].
      apply Hk0. apply list_elem_of_fmap. by exists (k0, v1).
Qed.
End OrderedDictFacts.

(** ** The normaliser *)

Lemma FINANCIAL_ITEM_MAPPING_keys_NoDup : NoDup FINANCIAL_ITEM_MAPPING.*1.
Proof. apply (bool_decide_unpack _). by vm_compute. Qed.

Lemma find_synonym_first_present raw synonyms yf_key value_raw :
  find_synonym raw synonyms = Some (yf_key, value_raw)
  ↔ first_present raw synonyms yf_key value_raw.
Proof.
  unfold first_present. induction synonyms as [|k rest IH]; simpl.
  - split; [done|]. by intros (i & ? & _).
  - destruct (dict_get raw k) as [v|] eqn:Hk.
    + split.
      * intros [= <- <-]. exists 0%nat. split_and!; [done..|]. lia.
      * intros ([|i] & Hi & Hv & Hearlier); simplify_eq/=; [done|].
        specialize (Hearlier 0%nat k). simpl in Hearlier.
        rewrite Hearlier in Hk; [done | lia | done].
    + rewrite IH. split.
      * intros (i & Hi & Hv & Hearlier). exists (S i). split_and!; [done..|].
        intros [|j] earlier Hj Hlook; simplify_eq/=; [done|].
        apply (Hearlier j); [lia | done].
      * intros ([|i] & Hi & Hv & Hearlier); simplify_eq/=.
        exists i. split_and!; [done..|].
        intros j earlier Hj Hlook. apply (Hearlier (S j)); [lia | done].
  Qed.

Lemma find_synonym_ext raw raw' synonyms :
  (∀ k, dict_get raw k = dict_get raw' k) →
  find_synonym raw synonyms = find_synonym raw' synonyms.
Proof.
  intros Hext. induction synonyms as [|k rest IH]; simpl; [done|].
  by rewrite Hext, IH.
Qed.

Lemma dict_set_Forall {K V} `{EqDecision K} (P : V → Prop)
    (d : list (K * V)) (k : K) (v : V) :
  Forall (λ kv, P kv.2) d → P v → Forall (λ kv, P kv.2) (dict_set d k v).
Proof.
  intros Hd Hv. induction Hd as [|[k0 v0] d Hkv Hd IH]; simpl.
  - by repeat constructor.
  - case_decide; constructor; auto.
Qed.

(** Every raw bag the merge builds is well formed: its values passed
    [pd.notna] and its keys are distinct. *)
Lemma store_item_bag (contents : period_contents) (item : string * pyval) :
  well_formed_bag (default [] contents) →
  well_formed_bag (default [] (store_item contents item)).
Proof.
  intros [Hnotna Hkeys]. destruct item as [k v]. unfold store_item.
  destruct (pd_notna v) eqn:Hv; [|done]. simpl. split.
  - by apply (dict_set_Forall (λ v, pd_notna v = true)).
  - by apply dict_set_keys_NoDup.
Qed.

Lemma store_items_bag (contents : period_contents)
    (items : list (string * pyval)) :
  well_formed_bag (default [] contents) →
  well_formed_bag (default [] (foldl store_item contents items)).
Proof.
  revert contents. induction items as [|item items IH]; intros contents Hc;
    simpl; auto using store_item_bag.
Qed.

Lemma record_column_bags index all_period_data col :
  Forall (λ pc, well_formed_bag (default [] pc.2)) all_period_data →
  Forall (λ pc, well_formed_bag (default [] pc.2))
    (record_column index all_period_data col).
Proof.
  intros Hall. unfold record_column. cbv zeta.
  destruct col.1 as [t| |]; [|done..].
  apply (dict_set_Forall (λ c, well_formed_bag (default [] c))); [done|].
  apply store_items_bag.
  destruct (dict_get _ _) as [c|] eqn:Hc; simpl.
  - apply dict_get_Some_elem_of in Hc.
    rewrite Forall_forall in Hall. apply (Hall _ Hc).
  - split; [constructor | apply NoDup_nil_2].
Qed.

Lemma record_columns_bags index all_period_data cols :
  Forall (λ pc, well_formed_bag (default [] pc.2)) all_period_data →
  Forall (λ pc, well_formed_bag (default [] pc.2))
    (foldl (record_column index) all_period_data cols).
Proof.
  revert all_period_data. induction cols as [|col cols IH];
    intros all_period_data Hall; simpl; auto using record_column_bags.
Qed.

(** A later non-missing value under the same label replaces the earlier
    one: the last one stored is the one read back. *)
Lemma store_item_last_wins (contents : period_contents) yf_key value_raw :
  pd_notna value_raw = true →
  dict_get (default [] (store_item contents (yf_key, value_raw))) yf_key
  = Some value_raw.
Proof. intros Hv. unfold store_item. rewrite Hv. apply dict_get_set_eq. Qed.

(** *** Loops that may raise *)

Lemma fold_res_foldl {A B} (body : A → B → res A) (g : A → B → A)
    (l : list B) (acc : A) :
  (∀ acc x, x ∈ l → body acc x = Ok (g acc x)) →
  fold_res body acc l = Ok (foldl g acc l).
Proof.
  revert acc. induction l as [|x l IH]; intros acc Hbody; simpl; [done|].
  rewrite Hbody by (apply elem_of_cons; by left). simpl.
  apply IH. intros acc' y Hy. apply Hbody. apply elem_of_cons. by right.
Qed.

Lemma fold_res_raise {A B} (body : A → B → res A) (l : list B) (acc : A) e :
  fold_res body acc l = Raise e →
  ∃ acc' x, x ∈ l ∧ body acc' x = Raise e.
Proof.
  revert acc. induction l as [|x l IH]; intros acc; simpl; [done|].
  destruct (body acc x) as [acc'|e'] eqn:Hx; simpl.
  - intros (acc'' & y & Hy & Hraise)%IH. exists acc'', y.
    split; [apply elem_of_cons; by right | done].
  - intros [= <-]. exists acc, x. split; [apply elem_of_cons; by left | done].
Qed.

Lemma fold_res_returns {A B} (body : A → B → res A) (l : list B)
    (acc out : A) x :
  fold_res body acc l = Ok out → x ∈ l →
  ∃ acc' out', body acc' x = Ok out'.
Proof.
  revert acc. induction l as [|y l IH]; intros acc; simpl.
  - by intros _ ?%elem_of_nil.
  - destruct (body acc y) as [acc'|e'] eqn:Hy; simpl; [|done].
    intros Hrun [-> | Hin]%elem_of_cons; [by exists acc, acc'|].
    by apply (IH acc').
Qed.

Lemma fold_res_app {A B} (body : A → B → res A) (l l' : list B) (acc : A) :
  fold_res body acc (l ++ l')
  = acc' ← fold_res body acc l; fold_res body acc' l'.
Proof.
  revert acc. induction l as [|x l IH]; intros acc; simpl; [done|].
  destruct (body acc x) as [acc'|e']; simpl; [apply IH | done].
Qed.

(** *** Selecting a column by its date *)

Lemma filter_omap_unique {A T} `{EqDecision T} (f : A → option T)
    (l : list A) (x : A) (t : T) :
  NoDup (omap f l) → x ∈ l → f x = Some t →
  filter (λ y, f y = Some t) l = [x].
Proof.
  induction l as [|a l IH]; intros Hnd Hin Hx;
    [by apply elem_of_nil in Hin|].
  csimpl in Hnd. rewrite filter_cons.
  assert (∀ t', t' ∉ omap f l → filter (λ y, f y = Some t') l = []) as Hnone.
  { intros t' Hnot.
    destruct (filter (λ y, f y = Some t') l) as [|y ys] eqn:Hfilter; [done|].
    assert (y ∈ filter (λ y, f y = Some t') l) as [Hfy Hy]%list_elem_of_filter
      by (rewrite Hfilter; apply elem_of_cons; by left).
    destruct Hnot. apply list_elem_of_omap. by exists y. }
  destruct (f a) as [t'|] eqn:Ha.
  - apply NoDup_cons in Hnd as [Hnot Hnd].
    destruct (decide (Some t' = Some t)) as [[= ->]|Hne].
    + rewrite (Hnone _ Hnot). f_equal.
      apply elem_of_cons in Hin as [-> | Hin]; [done|].
      destruct Hnot. apply list_elem_of_omap. by exists x.
    + apply elem_of_cons in Hin as [-> | Hin]; [congruence | by apply IH].
  - rewrite decide_False by done.
    apply elem_of_cons in Hin as [-> | Hin]; [congruence | by apply IH].
Qed.

Lemma filter_singletons_NoDup {A T} `{EqDecision T} (f : A → option T)
    (l : list A) :
  (∀ x t, x ∈ l → f x = Some t →
          ∃ y, filter (λ y, f y = Some t) l = [y]) →
  NoDup (omap f l).
Proof.
  induction l as [|a l IH]; intros Hone; csimpl; [constructor|].
  destruct (f a) as [t|] eqn:Ha.
  - apply NoDup_cons. split.
    + intros (y & Hy & Hfy)%list_elem_of_omap.
      destruct (Hone a t) as [z Hz]; [apply elem_of_cons; by left | done|].
      rewrite filter_cons, decide_True in Hz by done.
      injection Hz as _ Hnil.
      assert (y ∈ filter (λ y, f y = Some t) l) as Hin
        by by apply list_elem_of_filter.
      rewrite Hnil in Hin. by apply elem_of_nil in Hin.
    + apply IH. intros x t' Hx Hfx.
      destruct (Hone x t') as [z Hz]; [apply elem_of_cons; by right | done|].
      rewrite filter_cons in Hz.
      destruct (decide (f a = Some t')); [|by exists z].
      injection Hz as _ Hnil.
      assert (x ∈ filter (λ y, f y = Some t') l) as Hin
        by by apply list_elem_of_filter.
      rewrite Hnil in Hin. by apply elem_of_nil in Hin.
  - apply IH. intros x t Hx Hfx.
    destruct (Hone x t) as [z Hz]; [apply elem_of_cons; by right | done|].
    rewrite filter_cons, decide_False in Hz by congruence. by exists z.
Qed.

(** *** The merge stops at a repeated date, and only there *)

Lemma merge_column_record df all_period_data col :
  NoDup (dated_labels df) → col ∈ raw_columns df →
  merge_column df all_period_data col
  = Ok (record_column (raw_index df) all_period_data col).
Proof.
  intros Hnd Hin. unfold merge_column, record_column, select_column.
  destruct col.1 as [t| |] eqn:Hlabel; [|done..]. cbv zeta.
  rewrite (filter_omap_unique (λ c : label * list pyval, label_timestamp c.1)
             _ col t Hnd Hin); [done|].
  by rewrite Hlabel.
Qed.

Lemma merge_column_raise df all_period_data col e :
  merge_column df all_period_data col = Raise e → e = ValueError.
Proof.
  unfold merge_column. destruct col.1; [|done..]. cbv zeta.
  destruct (select_column df t); [done|]. by intros [= <-].
Qed.

Lemma merge_column_selects df all_period_data col out t :
  merge_column df all_period_data col = Ok out →
  label_timestamp col.1 = Some t →
  ∃ y, filter (λ c : label * list pyval, label_timestamp c.1 = Some t)
         (raw_columns df) = [y].
Proof.
  unfold merge_column, select_column.
  destruct col.1 as [t'| |]; [|done..]. cbv zeta. intros Hrun [= ->].
  destruct (filter _ (raw_columns df)) as [|y [|y' rest]]; [done| |done].
  by exists y.
Qed.

Lemma merge_columns_run df all_period_data :
  fold_res (merge_column df) all_period_data (raw_columns df)
  = if decide (NoDup (dated_labels df))
    then Ok (foldl (record_column (raw_index df)) all_period_data
               (raw_columns df))
    else Raise ValueError.
Proof.
  case_decide as Hnd.
  - apply fold_res_foldl. intros acc col Hcol. by apply merge_column_record.
  - destruct (fold_res _ _ _) as [out|e] eqn:Hrun.
    + destruct Hnd. apply filter_singletons_NoDup. intros col t Hcol Ht.
      destruct (fold_res_returns _ _ _ _ _ Hrun Hcol) as (acc' & out' & Hbody).
      by eapply merge_column_selects.
    + apply fold_res_raise in Hrun as (acc' & col & _ & Hcol).
      by apply merge_column_raise in Hcol as ->.
Qed.

Lemma record_columns_undated index all_period_data
    (cols : list (label * list pyval)) :
  omap (λ col : label * list pyval, label_timestamp col.1) cols = [] →
  foldl (record_column index) all_period_data cols = all_period_data.
Proof.
  induction cols as [|col cols IH]; csimpl; [done|].
  unfold record_column at 2.
  destruct col.1; simpl; [done|apply IH..].
Qed.

Section MergeRun.
Variable to_datetime : list label → res (list label).

Lemma merge_statement_run all_period_data stmt :
  merge_statement to_datetime all_period_data stmt
  = if decide (repeats_date to_datetime stmt.2) then Raise ValueError
    else Ok (record_statement to_datetime all_period_data stmt).
Proof.
  destruct (decide (repeats_date to_datetime stmt.2)) as [Hrep|Hrep];
    unfold merge_statement, record_statement; unfold repeats_date in Hrep;
    destruct stmt.2 as [df|]; try done.
  - destruct Hrep as [-> Hrep].
    destruct (convert_columns to_datetime df) as [df'|]; [|done].
    rewrite merge_columns_run. by rewrite decide_False.
  - destruct (raw_empty df); [done|].
    destruct (convert_columns to_datetime df) as [df'|]; [|done].
    rewrite merge_columns_run. rewrite decide_True; [done|].
    destruct (decide (NoDup (dated_labels df'))); [done|]. by destruct Hrep.
Qed.

Lemma merge_statements_run all_period_data stmts :
  fold_res (merge_statement to_datetime) all_period_data stmts
  = if decide (Exists (λ stmt, repeats_date to_datetime stmt.2) stmts)
    then Raise ValueError
    else Ok (foldl (record_statement to_datetime) all_period_data stmts).
Proof.
  revert all_period_data. induction stmts as [|stmt stmts IH];
    intros all_period_data; cbn [fold_res foldl].
  - destruct (decide _) as [?%Exists_nil|]; done.
  - rewrite merge_statement_run.
    destruct (decide (repeats_date to_datetime stmt.2)) as [Hrep|Hrep];
      cbn [mbind res_bind].
    + rewrite decide_True; [done|]. by apply Exists_cons_hd.
    + rewrite IH.
      destruct (decide (Exists _ stmts)) as [Hex|Hex].
      * rewrite decide_True; [done|]. by apply Exists_cons_tl.
      * rewrite decide_False; [done|].
        intros [?|?]%Exists_cons; done.
Qed.

(** What the merge returns are the raw bags. *)
Lemma merge_statements_raw_bags stmts all_period_data :
  fold_res (merge_statement to_datetime) [] stmts = Ok all_period_data →
  all_period_data = raw_bags to_datetime stmts.
Proof.
  rewrite merge_statements_run. case_decide; [done|]. by intros [= <-].
Qed.

Lemma merge_statement_unusable all_period_data name df :
  unusable_statement to_datetime df →
  merge_statement to_datetime all_period_data (name, df)
  = Ok all_period_data.
Proof.
  intros Hdf. rewrite merge_statement_run. simpl.
  assert (¬ repeats_date to_datetime df
          ∧ record_statement to_datetime all_period_data (name, df)
            = all_period_data) as [Hrep ->]; [|by rewrite decide_False].
  unfold unusable_statement, repeats_date, record_statement in *. simpl.
  destruct df as [df|]; [|tauto].
  destruct (raw_empty df); [naive_solver|].
  destruct Hdf as [?|Hdf]; [done|].
  destruct (convert_columns to_datetime df) as [df'|]; [|tauto].
  split.
  - intros [_ Hnd]. destruct Hnd. unfold dated_labels in *. rewrite Hdf.
    constructor.
  - by apply record_columns_undated.
Qed.

Lemma merge_statements_unusable all_period_data stmts :
  Forall (λ stmt, unusable_statement to_datetime stmt.2) stmts →
  fold_res (merge_statement to_datetime) all_period_data stmts
  = Ok all_period_data.
Proof.
  induction 1 as [|[name df] stmts Hdf _ IH]; cbn [fold_res]; [done|].
  by rewrite merge_statement_unusable.
Qed.

Lemma merge_statements_drop all_period_data
    (before after : list (string * option RawFrame)) name df :
  unusable_statement to_datetime df →
  fold_res (merge_statement to_datetime) all_period_data
    (before ++ (name, df) :: after)%list
  = fold_res (merge_statement to_datetime) all_period_data
      (before ++ after)%list.
Proof.
  intros Hdf. rewrite !fold_res_app. cbn [fold_res].
  destruct (fold_res _ _ before) as [acc|e]; [|done]. cbn [mbind res_bind].
  by rewrite merge_statement_unusable.
Qed.

End MergeRun.

Section Normaliser.
Variable float_of_str : string → option float.
Variable to_datetime : list label → res (list label).

Lemma standardize_item_inv raw acc key synonyms acc' :
  standardize_item float_of_str raw acc (key, synonyms) = Ok acc' →
  acc' = acc
  ∨ ∃ yf_key value_raw float_value,
      find_synonym raw synonyms = Some (yf_key, value_raw)
      ∧ py_float float_of_str value_raw = Ok float_value
      ∧ acc' = dict_set acc key float_value.
Proof.
  unfold standardize_item.
  destruct (find_synonym raw synonyms) as [[yf_key value_raw]|];
    [|intros [= <-]; by left].
  destruct (is_None value_raw); [intros [= <-]; by left|].
  destruct (py_float float_of_str value_raw) as [f|e] eqn:Hf; simpl.
  - intros [= <-]. right. by exists yf_key, value_raw, f.
  - destruct e; simpl; intros [= <-]; by left.
Qed.

Lemma standardize_items_inv raw entries acc d key f :
  standardize_items float_of_str raw acc entries = Ok d →
  dict_get d key = Some f →
  dict_get acc key = Some f
  ∨ ∃ synonyms yf_key value_raw,
      (key, synonyms) ∈ entries
      ∧ find_synonym raw synonyms = Some (yf_key, value_raw)
      ∧ py_float float_of_str value_raw = Ok f.
Proof.
  revert acc. induction entries as [|[key0 synonyms0] rest IH];
    intros acc Hrun Hget; cbn [standardize_items] in Hrun.
  - simplify_eq. by left.
  - destruct (standardize_item float_of_str raw acc (key0, synonyms0))
      as [acc'|e] eqn:Hitem; simpl in Hrun; [|done].
    destruct (IH _ Hrun Hget) as [Hacc' | (syn & yf & v & Hin & Hfind & Hf)].
    + apply standardize_item_inv in Hitem
        as [-> | (yf & v & f0 & Hfind & Hf & ->)]; [by left|].
      destruct (decide (key0 = key)) as [->|Hne].
      * rewrite dict_get_set_eq in Hacc'. simplify_eq.
        right. exists synonyms0, yf, v. split_and!; [|done..].
        apply elem_of_cons. by left.
      * rewrite dict_get_set_ne in Hacc' by done. by left.
    + right. exists syn, yf, v. split_and!; [|done..].
      apply elem_of_cons. by right.
Qed.

Lemma standardize_items_ext raw raw' entries acc :
  (∀ k, dict_get raw k = dict_get raw' k) →
  standardize_items float_of_str raw acc entries =
  standardize_items float_of_str raw' acc entries.
Proof.
  intros Hext. revert acc.
  induction entries as [|[key synonyms] rest IH]; intros acc; simpl; [done|].
  unfold standardize_item. rewrite (find_synonym_ext raw raw') by done.
  destruct (find_synonym raw' synonyms) as [[yf v]|]; simpl; [|apply IH].
  destruct (is_None v); simpl; [apply IH|].
  destruct (py_float float_of_str v) as [f|[]]; simpl; try done; apply IH.
Qed.

(** C5. In a period's standardized dictionary, the value under a canonical
    key is the float of the value the raw bag holds under the first
    synonym, in the declared order of that key's list, that is a key of
    the bag; nothing else enters it. The outcome does not depend on the
    order in which the raw bag enumerates its entries. For the bag
    {"Total Revenue": 100, "Revenue": 200}, in either order, revenue is
    100. *)
Theorem synonym_resolution_first_match (raw : list (string * pyval)) :
  (∀ d key f,
     standardize_items float_of_str raw [] FINANCIAL_ITEM_MAPPING = Ok d →
     dict_get d key = Some f →
     ∃ synonyms yf_key value_raw,
       dict_get FINANCIAL_ITEM_MAPPING key = Some synonyms
       ∧ first_present raw synonyms yf_key value_raw
       ∧ py_float float_of_str value_raw = Ok f)
  ∧ (∀ raw',
       NoDup raw.*1 → raw ≡ₚ raw' →
       standardize_items float_of_str raw' [] FINANCIAL_ITEM_MAPPING =
       standardize_items float_of_str raw [] FINANCIAL_ITEM_MAPPING)
  ∧ standardize_items float_of_str
      [("Total Revenue", PFloat 100); ("Revenue", PFloat 200)] []
      FINANCIAL_ITEM_MAPPING = Ok [("revenue", 100%float)]
  ∧ standardize_items float_of_str
      [("Revenue", PFloat 200); ("Total Revenue", PFloat 100)] []
      FINANCIAL_ITEM_MAPPING = Ok [("revenue", 100%float)].
Proof.
  split_and!; [| |reflexivity..].
  - intros d key f Hrun Hget.
    destruct (standardize_items_inv _ _ _ _ _ _ Hrun Hget)
      as [? | (synonyms & yf & v & Hin & Hfind & Hf)]; [done|].
    exists synonyms, yf, v. split_and!; [| |done].
    + by apply dict_get_NoDup; [apply FINANCIAL_ITEM_MAPPING_keys_NoDup|].
    + by apply find_synonym_first_present.
  - intros raw' Hnd Hperm. apply standardize_items_ext.
    intros k. symmetry. by apply dict_get_Permutation.
Qed.


End Normaliser.

Lemma add_key_mono acc k x : x ∈ acc → x ∈ add_key acc k.
Proof. unfold add_key. case_bool_decide; set_solver. Qed.

Lemma add_key_elem acc k : k ∈ add_key acc k.
Proof. unfold add_key. case_bool_decide; set_solver. Qed.

Lemma add_keys_mono acc ks x : x ∈ acc → x ∈ foldl add_key acc ks.
Proof.
  revert acc. induction ks as [|k ks IH]; intros acc Hx; simpl;
    auto using add_key_mono.
Qed.

Lemma add_keys_elem acc ks k : k ∈ ks → k ∈ foldl add_key acc ks.
Proof.
  revert acc. induction ks as [|k0 ks IH]; intros acc; simpl.
  - by intros ?%elem_of_nil.
  - intros [-> | Hin]%elem_of_cons; [|by apply IH].
    apply add_keys_mono, add_key_elem.
Qed.

Lemma union_keys_elem (d : list (Z * list (string * float))) row k :
  row ∈ d → k ∈ row.2.*1 → k ∈ union_keys d.
Proof.
  unfold union_keys. generalize (@nil string) as acc.
  induction d as [|row0 d IH]; intros acc Hrow Hk; simpl.
  - by apply elem_of_nil in Hrow.
  - apply elem_of_cons in Hrow as [-> | Hrow]; [|by apply IH].
    assert (∀ acc', k ∈ acc' →
      k ∈ foldl (λ (acc : list string) (row : Z * list (string * float)),
                   foldl add_key acc row.2.*1) acc' d) as Hkeep.
    { clear. induction d as [|row1 d IH]; intros acc' Hk; simpl; [done|].
      by apply IH, add_keys_mono. }
    by apply Hkeep, add_keys_elem.
Qed.

Lemma build_frame_columns (d : list (Z * list (string * float))) :
  frame_columns (build_frame d) ≡ₚ
  (λ row : Z * list (string * float),
     (to_datetime_Ymd row.1,
      (λ k, default nan (dict_get row.2 k)) <$> frame_index (build_frame d)))
    <$> d.
Proof.
  unfold build_frame; simpl.
  by rewrite merge_sort_Permutation, <- list_fmap_compose.
Qed.

(** The frame built from a non-empty dictionary of non-empty dictionaries
    has rows and columns. *)
Lemma build_frame_not_empty (d : list (Z * list (string * float))) :
  d ≠ [] → (∀ row, row ∈ d → row.2 ≠ []) →
  frame_empty (build_frame d) = false.
Proof.
  intros Hd Hrows. unfold frame_empty, build_frame; simpl.
  destruct d as [|[p0 [|[k0 f0] d0]] d]; [done| |].
  { exfalso. apply (Hrows (p0, [])); [|done]. apply elem_of_cons. by left. }
  apply orb_false_iff. split; apply bool_decide_eq_false_2.
  - intros Hnil.
    assert (k0 ∈ union_keys ((p0, (k0, f0) :: d0) :: d)) as Hin.
    { apply (union_keys_elem _ (p0, (k0, f0) :: d0)); simpl;
        apply elem_of_cons; by left. }
    rewrite Hnil in Hin. by apply elem_of_nil in Hin.
  - intros Hnil%fmap_nil_inv.
    pose proof (merge_sort_Permutation later_first
      ((λ row : Z * list (string * float),
          (row.1, (λ k, default nan (dict_get row.2 k))
                    <$> union_keys ((p0, (k0, f0) :: d0) :: d)))
         <$> ((p0, (k0, f0) :: d0) :: d))) as Hperm.
    rewrite Hnil in Hperm. by apply Permutation_nil_l in Hperm.
Qed.

Section NormaliserResult.
Variable float_of_str : string → option float.
Variable to_datetime : list label → res (list label).

Abbreviation standardize_period raw :=
  (standardize_items float_of_str raw [] FINANCIAL_ITEM_MAPPING).

(** What [standardized_data_by_period] holds after the loop of lines
    88-122: per period, the non-empty dictionary its raw bag resolved to. *)
Lemma standardize_periods_inv periods acc out p d :
  standardize_periods float_of_str periods acc = Ok out →
  (p, d) ∈ out →
  (p, d) ∈ acc
  ∨ ∃ contents, (p, contents) ∈ periods
                ∧ standardize_period (default [] contents) = Ok d
                ∧ d ≠ [].
Proof.
  revert acc. induction periods as [|[p0 contents0] rest IH];
    intros acc Hrun Hin; cbn [standardize_periods] in Hrun.
  - simplify_eq. by left.
  - assert (∀ acc', standardize_periods float_of_str rest acc' = Ok out →
              (p, d) ∈ acc' → (p, d) ∈ acc →
              (p, d) ∈ acc
              ∨ ∃ contents, (p, contents) ∈ (p0, contents0) :: rest
                            ∧ standardize_period (default [] contents) = Ok d
                            ∧ d ≠ []) as Hskip by auto.
    assert (∀ acc', standardize_periods float_of_str rest acc' = Ok out →
              ((p, d) ∈ acc' → (p, d) ∈ acc
                 ∨ (p = p0
                    ∧ standardize_period (default [] contents0) = Ok d
                    ∧ d ≠ [])) →
              (p, d) ∈ acc
              ∨ ∃ contents, (p, contents) ∈ (p0, contents0) :: rest
                            ∧ standardize_period (default [] contents) = Ok d
                            ∧ d ≠ []) as Hstep.
    { intros acc' Hrun' Hacc'.
      destruct (IH _ Hrun' Hin) as [Hin' | (contents & Hc & Hd & Hne)].
      - destruct (Hacc' Hin') as [? | (-> & Hd & Hne)]; [by left|].
        right. exists contents0. split_and!; [|done..].
        apply elem_of_cons. by left.
      - right. exists contents. split_and!; [|done..].
        apply elem_of_cons. by right. }
    case_bool_decide as Hraw.
    { apply (Hstep _ Hrun). by left. }
    destruct (standardize_period (default [] contents0)) as [d0|e] eqn:Hd0;
      simpl in Hrun; [|done].
    case_bool_decide as Hd0_nil.
    { apply (Hstep _ Hrun). by left. }
    apply (Hstep _ Hrun).
    intros [? | [= -> ->]]%elem_of_dict_set; [by left | by right].
Qed.


Lemma raw_bags_well_formed stmts p contents :
  (p, contents) ∈ raw_bags to_datetime stmts →
  well_formed_bag (default [] contents).
Proof.
  unfold raw_bags.
  assert (∀ acc,
            Forall (λ pc, well_formed_bag (default [] pc.2)) acc →
            Forall (λ pc, well_formed_bag (default [] pc.2))
              (foldl (record_statement to_datetime) acc stmts)) as Hfold.
  { induction stmts as [|[name df] stmts IH]; intros acc Hacc; simpl;
      [done|].
    apply IH. unfold record_statement; simpl.
    destruct df as [df|]; [|done]. destruct (raw_empty df); [done|].
    destruct (convert_columns to_datetime df) as [df'|]; [|done].
    by apply record_columns_bags. }
  intros Hin. specialize (Hfold [] (Forall_nil_2 _)).
  rewrite Forall_forall in Hfold. apply (Hfold _ Hin).
Qed.

(** Every raw bag the merge returns is well formed. *)
Lemma merged_bags_well_formed stmts all_period_data p contents :
  fold_res (merge_statement to_datetime) [] stmts = Ok all_period_data →
  (p, contents) ∈ all_period_data →
  well_formed_bag (default [] contents).
Proof. intros ->%merge_statements_raw_bags. apply raw_bags_well_formed. Qed.

(** The guard of line 27 only anticipates what the loops find. *)
Lemma standardize_statements_fold stmts :
  standardize_statements float_of_str to_datetime (Some stmts) =
  all_period_data ← fold_res (merge_statement to_datetime) [] stmts;
  if bool_decide (all_period_data = []) then Ok None
  else
    standardized_data_by_period ←
      standardize_periods float_of_str all_period_data [];
    if bool_decide (standardized_data_by_period = []) then Ok None
    else Ok (Some (build_frame standardized_data_by_period)).
Proof.
  unfold standardize_statements.
  destruct (_ || _) eqn:Hguard; [|done].
  rewrite merge_statements_unusable; [done|].
  apply orb_true_iff in Hguard as [->%bool_decide_eq_true | Hall];
    [constructor|].
  apply Forall_forall. intros [name df] Hin. simpl.
  rewrite forallb_forall in Hall.
  assert (df ∈ stmts.*2) as Hdf%list_elem_of_In.
  { apply list_elem_of_fmap. by exists (name, df). }
  apply Hall in Hdf. destruct df as [df|]; [|done]. by left.
Qed.

(** The run of [standardize_statements]: ValueError when a statement in
    use repeats a date; otherwise the raw bags are resolved. *)
Lemma standardize_statements_run stmts :
  standardize_statements float_of_str to_datetime (Some stmts) =
  if decide (Exists (λ stmt, repeats_date to_datetime stmt.2) stmts)
  then Raise ValueError
  else
    let all_period_data := raw_bags to_datetime stmts in
    if bool_decide (all_period_data = []) then Ok None
    else
      standardized_data_by_period ←
        standardize_periods float_of_str all_period_data [];
      if bool_decide (standardized_data_by_period = []) then Ok None
      else Ok (Some (build_frame standardized_data_by_period)).
Proof.
  rewrite standardize_statements_fold, merge_statements_run.
  by case_decide.
Qed.

Lemma standardize_statements_merged stmts frame :
  standardize_statements float_of_str to_datetime (Some stmts)
    = Ok (Some frame) →
  fold_res (merge_statement to_datetime) [] stmts
  = Ok (raw_bags to_datetime stmts).
Proof.
  rewrite standardize_statements_run, merge_statements_run.
  by case_decide.
Qed.

Lemma standardize_periods_keys_NoDup periods acc out :
  NoDup acc.*1 →
  standardize_periods float_of_str periods acc = Ok out →
  NoDup out.*1.
Proof.
  revert acc. induction periods as [|[p0 contents0] rest IH];
    intros acc Hacc Hrun; cbn [standardize_periods] in Hrun.
  - by simplify_eq.
  - case_bool_decide; [by eapply IH|].
    destruct (standardize_period (default [] contents0)) as [d0|e];
      simpl in Hrun; [|done].
    case_bool_decide; [by eapply IH|].
    eapply IH; [|done]. by apply dict_set_keys_NoDup.
Qed.

(** The columns of the Standardized Matrix: distinct periods, each at
    midnight of its day, each holding what the period's raw bag resolved
    to, NaN under the keys it did not resolve. *)
Lemma standardize_statements_columns stmts frame :
  standardize_statements float_of_str to_datetime (Some stmts)
    = Ok (Some frame) →
  NoDup (frame_columns frame).*1
  ∧ ∀ ts cells,
      (ts, cells) ∈ frame_columns frame →
      ∃ contents d,
        (ts_day ts, contents) ∈ raw_bags to_datetime stmts
        ∧ ts_time ts = 0%N
        ∧ standardize_period (default [] contents) = Ok d
        ∧ d ≠ []
        ∧ cells = (λ k, default nan (dict_get d k)) <$> frame_index frame.
Proof.
  rewrite standardize_statements_run. case_decide; [done|]. cbv zeta.
  case_bool_decide; [done|].
  destruct (standardize_periods float_of_str _ []) as [out|e] eqn:Hout;
    simpl; [|done].
  case_bool_decide; [done|]. intros [= <-].
  pose proof (build_frame_columns out) as Hperm.
  assert (NoDup out.*1) as Hnd.
  { apply (standardize_periods_keys_NoDup _ [] _ (NoDup_nil_2 (A:=Z)) Hout). }
  split.
  - rewrite Hperm, <- list_fmap_compose.
    apply (NoDup_fmap_2_strong (λ row : Z * list (string * float),
                                  to_datetime_Ymd row.1)).
    + intros [p1 d1] [p2 d2] Hin1 Hin2 [= Heq]. simpl in Heq. subst p2.
      f_equal.
      apply (dict_get_NoDup _ _ _ Hnd) in Hin1, Hin2. congruence.
    + by apply NoDup_fmap_1 in Hnd.
  - intros ts cells Hin. rewrite Hperm in Hin.
    apply list_elem_of_fmap in Hin as [[p d] [[= -> ->] Hin]]. simpl.
    destruct (standardize_periods_inv _ _ _ _ _ Hout Hin)
      as [?%elem_of_nil | (contents & Hc & Hd & Hne)]; [done|].
    by exists contents, d.
Qed.


End NormaliserResult.

(** ** The multi-period ratio entry *)

Lemma ratio_table_dom (item : string → option float) :
  dom (ratio_table item) = fourteen_ratios.
Proof.
  unfold ratio_table, fourteen_ratios. rewrite !dom_insert_L, dom_empty_L.
  set_solver.
Qed.

(** A Series built row by row holds under a label what its first row
    with that label put there. *)
Lemma list_to_map_rows {A B} (g : string * A → B) (rows : list (string * A))
    (key : string) :
  (list_to_map ((λ row, (row.1, g row)) <$> rows) : gmap string B) !! key
  = g <$> head (filter (λ r, r.1 = key) rows).
Proof.
  induction rows as [|row rows IH]; csimpl.
  - by rewrite lookup_empty.
  - rewrite filter_cons. destruct (decide (row.1 = key)) as [<-|Hne].
    + by rewrite lookup_insert_eq.
    + by rewrite lookup_insert_ne.
Qed.

Lemma column_series_get (df : Frame) (cells : list float) key :
  mapping_get (column_series df cells) key
  = match filter (λ r : string * float, r.1 = key)
            (zip (frame_index df) cells) with
    | [] => PNone
    | [row] => PFloat row.2
    | _ => PObj
    end.
Proof.
  unfold mapping_get, column_series. cbv zeta. cbn [items_of].
  rewrite list_to_map_rows.
  destruct (filter (λ r : string * float, r.1 = key) _)
    as [|row rest] eqn:Hrows; [done|]. simpl.
  assert (row.1 = key) as ->.
  { assert (row ∈ filter (λ r : string * float, r.1 = key)
                    (zip (frame_index df) cells)) as Hin
      by (rewrite Hrows; apply elem_of_cons; by left).
    by apply list_elem_of_filter in Hin as [? _]. }
  rewrite Hrows. by destruct rest.
Qed.

(** In a column the engines read the cells: each item is the cell in the
    row of its name. *)
Lemma get_float_column_item float_of_str (df : Frame) (cells : list float)
    key :
  _get_float float_of_str (column_series df cells) key
  = column_item df cells key.
Proof.
  unfold _get_float, column_item. rewrite column_series_get.
  by destruct (filter _ _) as [|row [|row' rest]].
Qed.

Lemma column_series_no_overflow (df : Frame) (cells : list float) key :
  overflows (mapping_get (column_series df cells) key) = false.
Proof.
  rewrite column_series_get. by destruct (filter _ _) as [|row [|row' rest]].
Qed.

Lemma fold_dict_set_keep {K V} `{EqDecision K} (g : K → V)
    (cols : list K) (acc : list (K * V)) (c : K) :
  dict_get acc c = Some (g c) →
  dict_get (foldl (λ acc c, dict_set acc c (g c)) acc cols) c = Some (g c).
Proof.
  revert acc. induction cols as [|c0 cols IH]; intros acc Hacc; simpl;
    [done|].
  apply IH. destruct (decide (c0 = c)) as [->|Hne].
  - apply dict_get_set_eq.
  - by rewrite dict_get_set_ne.
Qed.

Lemma fold_dict_set_get {K V} `{EqDecision K} (g : K → V)
    (cols : list K) (acc : list (K * V)) (c : K) :
  c ∈ cols →
  dict_get (foldl (λ acc c, dict_set acc c (g c)) acc cols) c = Some (g c).
Proof.
  revert acc. induction cols as [|c0 cols IH]; intros acc; simpl.
  - by intros ?%elem_of_nil.
  - intros [-> | Hin]%elem_of_cons; [|by apply IH].
    apply fold_dict_set_keep, dict_get_set_eq.
Qed.

Section HistoricalRatios.
Variable float_of_str : string → option float.

Lemma label_ratios_not_empty df c : label_ratios float_of_str df c ≠ ∅.
Proof.
  intros Hempty. apply (f_equal dom) in Hempty.
  unfold label_ratios in Hempty.
  rewrite dom_fmap_L, ratio_table_dom, dom_empty_L in Hempty.
  assert ("Gross Margin" ∈ fourteen_ratios) as Hin
    by (unfold fourteen_ratios; set_solver).
  rewrite Hempty in Hin. by apply not_elem_of_empty in Hin.
Qed.

Lemma ratios_by_period_returns df cols acc :
  (∀ c, c ∈ cols → is_Some (dict_get (frame_columns df) c)) →
  ratios_by_period float_of_str df cols acc =
  Ok (foldl (λ acc c, dict_set acc c (label_ratios float_of_str df c))
        acc cols).
Proof.
  revert acc. induction cols as [|c cols IH]; intros acc Hcols;
    cbn [ratios_by_period foldl]; [done|].
  destruct (Hcols c) as [cells Hcells]; [apply elem_of_cons; by left|].
  unfold frame_column. rewrite Hcells. cbn [fmap option_fmap option_map].
  rewrite calculate_single_period_ratios_returns
    by apply column_series_no_overflow.
  cbn [mbind res_bind].
  assert (clean_ratio <$>
            ratio_table (_get_float float_of_str (column_series df cells))
          = label_ratios float_of_str df c) as ->.
  { unfold label_ratios. by rewrite Hcells. }
  rewrite decide_False by apply label_ratios_not_empty.
  apply IH. intros c' Hc'. apply Hcols, elem_of_cons. by right.
Qed.

(** C9. For a non-empty matrix with distinct column labels,
    [calculate_historical_ratios] returns a frame whose columns carry the
    labels of the input in the order of the input, and whose column under
    each label is what [calculate_single_period_ratios] returns on that
    input column alone: the fourteen ratios of the cells of that column,
    each item being the cell in the row of its name.  All fourteen ratio
    names are there, whether or not any ratio has a value. *)
Theorem historical_ratios_columns (df : Frame) :
  frame_empty df = false →
  NoDup (frame_columns df).*1 →
  ∃ out,
    calculate_historical_ratios float_of_str (Some df) = Ok (Some out)
    ∧ (ratio_columns out).*1 = (frame_columns df).*1
    ∧ Forall2
        (λ col out_col,
           out_col.1 = col.1
           ∧ calculate_single_period_ratios float_of_str
               (column_series df col.2) = Ok out_col.2
           ∧ out_col.2 = clean_ratio <$> ratio_table (column_item df col.2)
           ∧ dom out_col.2 = fourteen_ratios)
        (frame_columns df) (ratio_columns out).
Proof.
  intros Hne Hnd. unfold calculate_historical_ratios. rewrite Hne.
  assert (∀ c cells, (c, cells) ∈ frame_columns df →
            dict_get (frame_columns df) c = Some cells) as Hget.
  { intros c cells Hin. by apply dict_get_NoDup. }
  assert (∀ c, c ∈ (frame_columns df).*1 →
            is_Some (dict_get (frame_columns df) c)) as Hcols.
  { intros c [[c' cells] [-> Hin]]%list_elem_of_fmap. simpl.
    rewrite (Hget _ _ Hin). eauto. }
  rewrite ratios_by_period_returns by done. cbn [mbind res_bind].
  set (all := foldl (λ acc c, dict_set acc c (label_ratios float_of_str df c))
                [] (frame_columns df).*1).
  assert (frame_columns df ≠ []) as Hcols_ne.
  { unfold frame_empty in Hne. apply orb_false_iff in Hne as [_ Hne].
    by apply bool_decide_eq_false_1 in Hne. }
  rewrite bool_decide_eq_false_2.
  2:{ destruct (frame_columns df) as [|[c cells] rest] eqn:Hdf; [done|].
      intros Hall.
      assert (dict_get all c = Some (label_ratios float_of_str df c)) as Hc.
      { apply fold_dict_set_get. simpl. apply elem_of_cons. by left. }
      by rewrite Hall in Hc. }
  eexists. split; [reflexivity|]. simpl. split.
  - rewrite <- list_fmap_compose. by apply list_fmap_id.
  - apply Forall2_fmap_r, Forall2_fmap_r, Forall_Forall2_diag.
    apply Forall_forall. intros [c cells] Hin. simpl.
    assert (dict_get all c = Some (label_ratios float_of_str df c)) as ->.
    { apply fold_dict_set_get, list_elem_of_fmap. by exists (c, cells). }
    simpl. unfold label_ratios. rewrite (Hget _ _ Hin). simpl.
    split_and!; [done| | |by rewrite dom_fmap_L, ratio_table_dom].
    + apply calculate_single_period_ratios_returns,
        column_series_no_overflow.
    + f_equal. unfold ratio_table. by rewrite !get_float_column_item.
Qed.

End HistoricalRatios.

(** ** The relative-tolerance checks of the verifier *)

Lemma zero_leb_abs (y : float) :
  is_nan y = false → (0 <=? abs y)%float = true.
Proof.
  intros Hy. rewrite leb_spec, abs_spec, Prim2SF_zero.
  assert (Prim2SF y ≠ S754_nan) as Hy'.
  { intros H%is_nan_spec. congruence. }
  by destruct (Prim2SF y) as [s|s| |s m e].
Qed.

Lemma zero_leb_mul_abs (r x : float) (m : positive) (e : Z) :
  Prim2SF r = S754_finite false m e →
  is_nan x = false → (0 <=? r * abs x)%float = true.
Proof.
  intros Hr Hx. rewrite <- (abs_mul_pos r x m e Hr).
  apply zero_leb_abs. by apply (mul_pos_not_nan r x m e).
Qed.

Lemma leb_false_ltb (x y : float) :
  is_nan x = false → is_nan y = false →
  (x <=? y)%float = false → (y <? x)%float = true.
Proof.
  intros Hx Hy. rewrite leb_spec, ltb_spec. unfold SFleb, SFltb.
  assert (Prim2SF x ≠ S754_nan) as Hx'.
  { intros H%is_nan_spec. congruence. }
  assert (Prim2SF y ≠ S754_nan) as Hy'.
  { intros H%is_nan_spec. congruence. }
  rewrite (SFcompare_antisym (Prim2SF x) (Prim2SF y)).
  assert (∃ c, SFcompare (Prim2SF x) (Prim2SF y) = Some c) as [c ->].
  { destruct (Prim2SF x) as [sa|sa| |sa ma ea],
      (Prim2SF y) as [sb|sb| |sb mb eb]; simpl; try done; eauto. }
  by destruct c.
Qed.

Lemma ltb_leb_trans (a b c : float) :
  (a <? b)%float = true → (b <=? c)%float = true → (a <? c)%float = true.
Proof.
  rewrite !ltb_spec, !leb_spec. unfold SFltb, SFleb.
  destruct (Prim2SF a) as [sa|sa| |sa ma ea],
    (Prim2SF b) as [sb|sb| |sb mb eb],
    (Prim2SF c) as [sc|sc| |sc mc ec]; simpl; try done;
    try (by destruct sa); try (by destruct sb); try (by destruct sc);
    try (by destruct sa, sb); try (by destruct sb, sc);
    try (by destruct sa, sc); try (by destruct sa, sb, sc).
  change (Pos.compare_cont Eq ?x ?y) with (Pos.compare x y).
  destruct sa, sb, sc; try done;
    destruct (Z.compare_spec ea eb), (Z.compare_spec eb ec),
      (Z.compare_spec ea ec); try done; try lia;
    destruct (Pos.compare_spec ma mb), (Pos.compare_spec mb mc),
      (Pos.compare_spec ma mc); simpl; try done; lia.
Qed.

(** With no absolute tolerance, [math.isclose] on finite numbers is the
    comparison of the distance with the tolerance times the larger
    magnitude. *)
Lemma isclose_relative (r a b : float) (mr : positive) (er : Z) :
  Prim2SF r = S754_finite false mr er →
  (2 ^ 52 ≤ Zpos mr)%Z → (er < 0)%Z →
  is_finite a = true → is_finite b = true →
  math_isclose a b r 0 = within_relative r a b.
Proof.
  unfold is_finite. intros Hr Hmr Her Ha Hb.
  apply negb_true_iff, orb_false_iff in Ha as [Ha_nan Ha_inf].
  apply negb_true_iff, orb_false_iff in Hb as [Hb_nan Hb_inf].
  unfold math_isclose, within_relative.
  rewrite Ha_inf, Hb_inf. simpl.
  rewrite (abs_sub_comm a b).
  rewrite !(abs_mul_pos r _ _ _ Hr).
  rewrite (leb_mul_fmax r _ a b _ _ Hr) by done.
  pose proof (zero_leb_mul_abs r a mr er Hr Ha_nan) as Hza.
  destruct (a =? b)%float eqn:Heq.
  - rewrite (sub_equal_zero a b Heq Ha_inf). by rewrite Hza.
  - destruct (abs (b - a) <=? 0)%float eqn:Hd0.
    + rewrite (leb_trans _ _ _ Hd0 Hza). by rewrite !orb_true_r.
    + by rewrite orb_false_r, orb_comm.
Qed.

Lemma isclose_close_enough (r a b : float) (mr : positive) (er : Z) :
  Prim2SF r = S754_finite false mr er →
  (2 ^ 52 ≤ Zpos mr)%Z → (er < 0)%Z →
  math_isclose a b r 0 = close_enough r a b.
Proof.
  intros Hr Hmr Her. unfold close_enough.
  destruct (is_finite a && is_finite b) eqn:Hfin.
  - apply andb_true_iff in Hfin as [Ha Hb].
    by apply (isclose_relative r a b mr er).
  - by apply isclose_not_finite.
Qed.

Section VerifierChecks.
Variable float_of_str : string → option float.

(** X1. The report's BalanceSheetEq entry is the balance check of total
    assets, total liabilities and total equity.  With all three present it
    is Passed exactly when assets and liabilities + equity are within 1.5%
    of the larger magnitude (finite sides), or equal (a NaN or an infinity
    among them).  It is Skipped, with a non-empty list, exactly when one of
    the three is missing.  1000 against 600 + 400 passes, 1000 against
    600 + 300 fails with difference 100, and a missing equity is named. *)
Theorem balance_sheet_check_tolerance :
  (∀ period_data : mapping,
     let item := _get_float float_of_str period_data in
     run_checks float_of_str period_data !! "BalanceSheetEq" =
     Some (balance_sheet_check (item "total_assets")
             (item "total_liabilities") (item "total_equity")))
  ∧ (∀ a l e : float,
       balance_sheet_check (Some a) (Some l) (Some e) = Passed ↔
       close_enough 0.015 a (l + e) = true)
  ∧ (∀ assets liabs equity,
       assets = None ∨ liabs = None ∨ equity = None ↔
       ∃ missing, balance_sheet_check assets liabs equity = Skipped missing
                  ∧ missing ≠ [])
  ∧ balance_sheet_check (Some 1000%float) (Some 600%float) (Some 400%float)
    = Passed
  ∧ balance_sheet_check (Some 1000%float) (Some 600%float) (Some 300%float)
    = Failed (Mismatch "A" "L+E" 1000 900 100)
  ∧ balance_sheet_check (Some 1000%float) (Some 600%float) None
    = Skipped ["Total Equity"].
Proof.
  split_and!; try reflexivity.
  - intros a l e. unfold balance_sheet_check.
    rewrite (isclose_close_enough 0.015 _ _ _ _ eq_refl) by done.
    by destruct (close_enough _ _ _).
  - intros [a|] [l|] [e|]; simpl; split; try naive_solver.
    intros (missing & Hm & _). by destruct (math_isclose _ _ _ _).
Qed.

(** X2. The report's CashCheck entry is the cash check of the cash item.
    Every cash amount that is zero or more passes, and so does a negative
    one down to -1e-6; a check that does not pass carries the amount, and
    the amount is then negative or NaN.  The check is Skipped exactly when
    cash is missing. *)
Theorem cash_check_threshold :
  (∀ period_data : mapping,
     run_checks float_of_str period_data !! "CashCheck" =
     Some (cash_check (_get_float float_of_str period_data "cash")))
  ∧ (∀ c : float, (0 <=? c)%float = true → cash_check (Some c) = Passed)
  ∧ (∀ c : float,
       cash_check (Some c) = Passed ↔ (-1e-6 <=? c)%float = true)
  ∧ (∀ c : float,
       cash_check (Some c) ≠ Passed →
       cash_check (Some c) = Failed (NegativeCash c)
       ∧ ((c <? 0)%float = true ∨ is_nan c = true))
  ∧ (∀ cash, cash = None ↔ ∃ missing, cash_check cash = Skipped missing)
  ∧ cash_check (Some (-5e-7)%float) = Passed
  ∧ cash_check (Some (-1)%float) = Failed (NegativeCash (-1)).
Proof.
  split_and!; try reflexivity.
  - intros c Hc. unfold cash_check.
    by rewrite (leb_trans (-1e-6) 0 c eq_refl Hc).
  - intros c. unfold cash_check. by destruct (-1e-6 <=? c)%float.
  - intros c. unfold cash_check.
    destruct (-1e-6 <=? c)%float eqn:Hle; [done|]. intros _. split; [done|].
    destruct (is_nan c) eqn:Hnan; [by right|]. left.
    apply leb_false_ltb in Hle; [|done..].
    by apply (ltb_leb_trans c (-1e-6) 0).
  - intros [c|]; simpl; split; try naive_solver.
    intros [missing Hm]. by destruct (_ <=? _)%float.
Qed.

(** X3. The report's GrossProfitCheck entry is the gross-profit check of
    revenue, cost of revenue and gross profit.  With all three present it
    is Passed exactly when gross profit and revenue - cost of revenue are
    within 1% of the larger magnitude (finite sides), or equal (a NaN or
    an infinity among them).  It is Skipped, with a non-empty list, exactly
    when one of the three is missing. *)
Theorem gross_profit_check_tolerance :
  (∀ period_data : mapping,
     let item := _get_float float_of_str period_data in
     run_checks float_of_str period_data !! "GrossProfitCheck" =
     Some (gross_profit_check (item "revenue") (item "cost_of_revenue")
             (item "gross_profit")))
  ∧ (∀ r c g : float,
       gross_profit_check (Some r) (Some c) (Some g) = Passed ↔
       close_enough 0.01 g (r - c) = true)
  ∧ (∀ revenue cogs gp,
       revenue = None ∨ cogs = None ∨ gp = None ↔
       ∃ missing, gross_profit_check revenue cogs gp = Skipped missing
                  ∧ missing ≠ [])
  ∧ gross_profit_check (Some 1000%float) (Some 600%float) (Some 402%float)
    = Passed
  ∧ gross_profit_check (Some 1000%float) (Some 600%float) (Some 450%float)
    = Failed (Mismatch "GP" "Rev-CoGS" 450 400 50)
  ∧ gross_profit_check None (Some 600%float) None
    = Skipped ["Revenue"; "Gross Profit"].
Proof.
  split_and!; try reflexivity.
  - intros r c g. unfold gross_profit_check.
    rewrite (isclose_close_enough 0.01 _ _ _ _ eq_refl) by done.
    by destruct (close_enough _ _ _).
  - intros [r|] [c|] [g|]; simpl; split; try naive_solver.
    intros (missing & Hm & _). by destruct (math_isclose _ _ _ _).
Qed.

(** X4. Total operating expenses are the direct item whenever it is
    present, a zero included; without it they are R&D plus SG&A with an
    absent part counted as zero; they are absent exactly when all three
    items are. *)
Theorem operating_expenses_fallback (op_ex rd sga : option float) :
  same_opt_float (operating_expenses_total op_ex rd sga)
    (spec_operating_expenses op_ex rd sga)
  ∧ (operating_expenses_total op_ex rd sga = None
     ↔ op_ex = None ∧ rd = None ∧ sga = None)
  ∧ (∀ x, op_ex = Some x → operating_expenses_total op_ex rd sga = Some x)
  ∧ operating_expenses_total None (Some 30%float) None = Some 30%float
  ∧ operating_expenses_total (Some 0%float) (Some 30%float) (Some 20%float)
    = Some 0%float.
Proof.
  split_and!; try reflexivity.
  - destruct op_ex as [x|]; simpl.
    + apply SFsim_same_float. by left.
    + destruct rd, sga; try done;
        apply (or_zero_add (Some _) (Some _))
        || apply (or_zero_add (Some _) None)
        || apply (or_zero_add None (Some _)).
  - destruct op_ex, rd, sga; split; try done; by intros (? & ? & ?).
  - by intros x ->.
Qed.

(** X5. The report's OperatingIncomeCheck entry is the operating-income
    check of gross profit, operating income and total operating expenses
    (the direct item or its fallback).  With all three present it is
    Passed exactly when operating income and gross profit - operating
    expenses are within 5% of the larger magnitude (finite sides), or
    equal (a NaN or an infinity among them).  It is Skipped exactly when
    one of the three is missing, and the list then names exactly the
    missing ones. *)
Theorem operating_income_check_tolerance :
  (∀ period_data : mapping,
     let item := _get_float float_of_str period_data in
     run_checks float_of_str period_data !! "OperatingIncomeCheck" =
     Some (operating_income_check (item "gross_profit")
             (item "operating_income")
             (operating_expenses_total (item "operating_expenses")
                (item "research_development")
                (item "selling_general_administrative"))))
  ∧ (∀ g oi ox : float,
       operating_income_check (Some g) (Some oi) (Some ox) = Passed ↔
       close_enough 0.05 oi (g - ox) = true)
  ∧ (∀ gp op_inc op_ex_total,
       gp = None ∨ op_inc = None ∨ op_ex_total = None ↔
       ∃ missing,
         operating_income_check gp op_inc op_ex_total = Skipped missing
         ∧ missing ≠ [])
  ∧ (∀ gp op_inc op_ex_total missing,
       operating_income_check gp op_inc op_ex_total = Skipped missing →
       ("Gross Profit" ∈ missing ↔ gp = None)
       ∧ ("Operating Income" ∈ missing ↔ op_inc = None)
       ∧ ("Operating Expenses (Total or Components)" ∈ missing
          ↔ op_ex_total = None))
  ∧ operating_income_check (Some 400%float) (Some 96%float) (Some 300%float)
    = Passed
  ∧ operating_income_check (Some 400%float) (Some 90%float) (Some 300%float)
    = Failed (Mismatch "OpInc" "GP-OpEx" 90 100 (-10)).
Proof.
  split_and!; try reflexivity.
  - intros g oi ox. unfold operating_income_check.
    rewrite (isclose_close_enough 0.05 _ _ _ _ eq_refl) by done.
    by destruct (close_enough _ _ _).
  - intros [g|] [oi|] [ox|]; simpl; split; try naive_solver.
    intros (missing & Hm & _). by destruct (math_isclose _ _ _ _).
  - intros [g|] [oi|] [ox|] missing; simpl;
      try (by destruct (math_isclose _ _ _ _));
      intros [= <-]; unfold missing_keys; simpl;
      rewrite ?elem_of_cons, ?elem_of_nil; naive_solver.
Qed.

(** X6. The report's NetIncomeCheck entry is the net-income check of net
    income, income before tax and income tax expense.  With all three
    present it is Passed exactly when net income and income before tax -
    income tax expense are within 1.5% of the larger magnitude (finite
    sides), or equal (a NaN or an infinity among them).  It is Skipped,
    with a non-empty list, exactly when one of the three is missing. *)
Theorem net_income_check_tolerance :
  (∀ period_data : mapping,
     let item := _get_float float_of_str period_data in
     run_checks float_of_str period_data !! "NetIncomeCheck" =
     Some (net_income_check (item "net_income") (item "income_before_tax")
             (item "income_tax_expense")))
  ∧ (∀ n i t : float,
       net_income_check (Some n) (Some i) (Some t) = Passed ↔
       close_enough 0.015 n (i - t) = true)
  ∧ (∀ ni ibt tax,
       ni = None ∨ ibt = None ∨ tax = None ↔
       ∃ missing, net_income_check ni ibt tax = Skipped missing
                  ∧ missing ≠ [])
  ∧ net_income_check (Some 79%float) (Some 100%float) (Some 20%float)
    = Passed
  ∧ net_income_check (Some 70%float) (Some 100%float) (Some 20%float)
    = Failed (Mismatch "NetInc" "IBT-Tax" 70 80 (-10))
  ∧ net_income_check (Some 70%float) None None
    = Skipped ["Income Before Tax"; "Income Tax Expense"].
Proof.
  split_and!; try reflexivity.
  - intros n i t. unfold net_income_check.
    rewrite (isclose_close_enough 0.015 _ _ _ _ eq_refl) by done.
    by destruct (close_enough _ _ _).
  - intros [n|] [i|] [t|]; simpl; split; try naive_solver.
    intros (missing & Hm & _). by destruct (math_isclose _ _ _ _).
Qed.

(** X7. No check of the report is Skipped with an empty list of names,
    and when the sixteen items the checks ask for are all present, no
    check is Skipped: each one is Passed or Failed. *)
Theorem report_skips_only_missing (period_data : mapping) :
  let report := run_checks float_of_str period_data in
  (∀ name missing, report !! name = Some (Skipped missing) → missing ≠ [])
  ∧ ((∀ key, key ∈ checked_items →
             is_Some (_get_float float_of_str period_data key)) →
     ∀ name missing, report !! name ≠ Some (Skipped missing)).
Proof.
  intros report. subst report. unfold run_checks. split.
  - intros name missing. rewrite !lookup_insert, lookup_empty.
    repeat case_decide; try done; intros [= Hcheck]; revert Hcheck;
      unfold cash_flow_sum_check, net_income_check, operating_income_check,
        gross_profit_check, cash_check, balance_sheet_check;
      repeat match goal with
        | |- context [match ?x with Some _ => _ | None => _ end] =>
            destruct x
        end;
      try (by destruct (math_isclose _ _ _ _));
      try (by destruct (_ <=? _)%float);
      by intros [= <-].
  - intros Hall name missing.
    assert (∀ key, bool_decide (key ∈ checked_items) = true →
              ∃ x, _get_float float_of_str period_data key = Some x) as Hget.
    { intros key Hkey%bool_decide_eq_true. by apply Hall. }
    destruct (Hget "total_assets" eq_refl) as [? ->].
    destruct (Hget "total_liabilities" eq_refl) as [? ->].
    destruct (Hget "total_equity" eq_refl) as [? ->].
    destruct (Hget "cash" eq_refl) as [? ->].
    destruct (Hget "revenue" eq_refl) as [? ->].
    destruct (Hget "cost_of_revenue" eq_refl) as [? ->].
    destruct (Hget "gross_profit" eq_refl) as [? ->].
    destruct (Hget "operating_income" eq_refl) as [? ->].
    destruct (Hget "operating_expenses" eq_refl) as [? ->].
    destruct (Hget "net_income" eq_refl) as [? ->].
    destruct (Hget "income_before_tax" eq_refl) as [? ->].
    destruct (Hget "income_tax_expense" eq_refl) as [? ->].
    destruct (Hget "change_in_cash" eq_refl) as [? ->].
    destruct (Hget "operating_cash_flow" eq_refl) as [? ->].
    destruct (Hget "investing_cash_flow" eq_refl) as [? ->].
    destruct (Hget "financing_cash_flow" eq_refl) as [? ->].
    rewrite !lookup_insert, lookup_empty. simpl.
    repeat case_decide; try done; intros [= Hcheck]; revert Hcheck;
      try (by destruct (math_isclose _ _ _ _));
      by destruct (_ <=? _)%float.
Qed.

End VerifierChecks.

(** ** The ratios of one period *)

Lemma spec_division_unusable n d :
  unusable_denominator d → spec_division n d = None.
Proof.
  destruct n as [x|], d as [y|]; simpl; try done. by intros ->.
Qed.

Lemma clean_ratio_not_nan v x : clean_ratio v = Some x → is_nan x = false.
Proof.
  destruct v as [f|]; simpl; [|done].
  destruct (is_nan f) eqn:Hf; [done|]. by intros [= <-].
Qed.

Lemma abs_zero_eqb (x : float) : abs x = 0%float → (x =? 0)%float = true.
Proof.
  intros Habs%(f_equal Prim2SF). rewrite abs_spec, Prim2SF_zero in Habs.
  rewrite FloatAxioms.eqb_spec, Prim2SF_zero.
  by destruct (Prim2SF x) as [s|s| |s m e]; try done; destruct s.
Qed.

Lemma div_nan_r (x y : float) : is_nan y = true → is_nan (x / y) = true.
Proof.
  intros Hy%is_nan_spec. apply is_nan_spec. rewrite div_spec, Hy.
  by destruct (Prim2SF x).
Qed.

Lemma sub_same_infinity (a c : float) :
  (a =? c)%float = true → is_infinity a = true → is_nan (a - c) = true.
Proof.
  rewrite FloatAxioms.eqb_spec. intros Heq [s Hs]%is_infinity_spec.
  apply is_nan_spec. rewrite sub_spec, Hs in *. unfold SFeqb in Heq.
  destruct (Prim2SF c) as [sc|sc| |sc mc ec]; simpl in *; try done;
    try (by destruct s); by destruct s, sc.
Qed.

Section RatioProperties.
Variable float_of_str : string → option float.

(** How [float()] fails. *)
Lemma py_float_raise v e :
  py_float float_of_str v = Raise e →
  e = TypeError ∨ e = ValueError
  ∨ (e = OverflowError ∧ overflows v = true).
Proof.
  destruct v as [| |b|z|f|s|]; simpl; try done; try (intros [= <-]; by auto).
  - unfold float_of_int. destruct (is_infinity _) eqn:Hinf; [|done].
    intros [= <-]. auto.
  - destruct (float_of_str s); [done|]. intros [= <-]. auto.
Qed.

(** X8. On operands of any type [_safe_division] has three outcomes.  It
    returns the quotient of the two operands converted by [float()] when
    both convert and the denominator is not zero.  It returns None when an
    operand is None, when a conversion fails with a ValueError or a
    TypeError, and when the denominator is zero.  It raises when an
    operand is an integer beyond the range of a float: the OverflowError
    of [float()] is not among the exceptions it catches. *)
Theorem safe_division_outcomes (numerator denominator : pyval) :
  match _safe_division float_of_str numerator denominator with
  | Ok (Some q) =>
      ∃ x y, py_float float_of_str numerator = Ok x
             ∧ py_float float_of_str denominator = Ok y
             ∧ (y =? 0)%float = false
             ∧ q = (x / y)%float
  | Ok None =>
      numerator = PNone ∨ denominator = PNone
      ∨ (∃ e, py_float float_of_str numerator = Raise e ∧ e ≠ OverflowError)
      ∨ (∃ e, py_float float_of_str denominator = Raise e
              ∧ e ≠ OverflowError)
      ∨ (∃ y, py_float float_of_str denominator = Ok y
              ∧ (y =? 0)%float = true)
  | Raise e =>
      e = OverflowError
      ∧ (overflows numerator = true ∨ overflows denominator = true)
  end.
Proof.
  unfold _safe_division.
  destruct (is_None numerator) eqn:Hn; simpl.
  { left. by destruct numerator. }
  destruct (is_None denominator) eqn:Hd; simpl.
  { right. left. by destruct denominator. }
  destruct (py_float float_of_str numerator) as [x|e] eqn:Hx; simpl.
  - destruct (py_float float_of_str denominator) as [y|e] eqn:Hy; simpl.
    + destruct (y =? 0)%float eqn:Hz; simpl.
      * do 4 right. by exists y.
      * by exists x, y.
    + destruct (py_float_raise _ _ Hy) as [-> | [-> | [-> Hov]]]; simpl.
      * do 3 right. left. by exists TypeError.
      * do 3 right. left. by exists ValueError.
      * split; [done | by right].
  - destruct (py_float_raise _ _ Hx) as [-> | [-> | [-> Hov]]]; simpl.
    + do 2 right. left. by exists TypeError.
    + do 2 right. left. by exists ValueError.
    + split; [done | by left].
Qed.

Lemma single_period_ratios_inv (period_data : mapping) ratios :
  calculate_single_period_ratios float_of_str period_data = Ok ratios →
  ratios = clean_ratio <$> ratio_table (_get_float float_of_str period_data).
Proof.
  intros Hrun.
  destruct (calculate_single_period_ratios_cases float_of_str period_data)
    as [Hraise | Hok]; rewrite Hrun in *; [done|]. by injection Hok.
Qed.

(** X9. What [calculate_single_period_ratios] returns is the table of the
    fourteen ratios, each the division of its numerator by its denominator
    as read from the period's items, cleaned of NaN; all fourteen names
    are keys whatever the items are. *)
Theorem single_period_ratios_table (period_data : mapping) ratios :
  calculate_single_period_ratios float_of_str period_data = Ok ratios →
  ratios = clean_ratio <$> ratio_table (_get_float float_of_str period_data)
  ∧ dom ratios = fourteen_ratios.
Proof.
  intros ->%single_period_ratios_inv. split; [done|].
  by rewrite dom_fmap_L, ratio_table_dom.
Qed.

(** X10. No ratio that [calculate_single_period_ratios] returns is NaN: a
    quotient that comes out as NaN, such as infinity over infinity, is
    returned as None. *)
Theorem single_period_ratios_never_nan
    (period_data : mapping) ratios name x :
  calculate_single_period_ratios float_of_str period_data = Ok ratios →
  ratios !! name = Some (Some x) →
  is_nan x = false.
Proof.
  intros ->%single_period_ratios_inv. rewrite lookup_fmap.
  destruct (ratio_table _ !! name) as [v|]; simpl; [|done].
  intros [= Hv]. by apply clean_ratio_not_nan in Hv.
Qed.

(** X11. For each of the thirteen ratios whose denominator is a single
    item: when that item is missing, NaN, not convertible or equal to
    zero, every table that [calculate_single_period_ratios] returns holds
    None under the ratio, whatever the numerator is.  The function returns
    such a table whenever no item is an integer beyond the range of a
    float; the only exception it can raise is the OverflowError of such an
    item. *)
Theorem unusable_denominator_gives_none (period_data : mapping) name key :
  (name, key) ∈ denominator_item →
  unusable_denominator (_get_float float_of_str period_data key) →
  (∀ ratios,
     calculate_single_period_ratios float_of_str period_data = Ok ratios →
     ratios !! name = Some None)
  ∧ ((∀ item, overflows (mapping_get period_data item) = false) →
     ∃ ratios,
       calculate_single_period_ratios float_of_str period_data = Ok ratios
       ∧ ratios !! name = Some None)
  ∧ (∀ e,
       calculate_single_period_ratios float_of_str period_data = Raise e →
       e = OverflowError).
Proof.
  intros Hin Hden.
  assert ((clean_ratio <$>
             ratio_table (_get_float float_of_str period_data)) !! name
          = Some None) as Hnone.
  { rewrite lookup_fmap. unfold denominator_item in Hin.
    repeat (apply elem_of_cons in Hin as [[= -> ->] | Hin];
            [unfold ratio_table; simplify_map_eq;
             by rewrite spec_division_unusable|]).
    by apply elem_of_nil in Hin. }
  split_and!.
  - by intros ratios ->%single_period_ratios_inv.
  - intros Hrange. eexists. split; [|exact Hnone].
    by apply calculate_single_period_ratios_returns.
  - intros e Hrun.
    destruct (calculate_single_period_ratios_cases float_of_str period_data)
      as [Hraise | Hok]; congruence.
Qed.

(** X12. The Quick Ratio is (current assets - inventory) / current
    liabilities when current assets and inventory are both present, and
    None when either is missing: a missing inventory is not taken as
    zero. *)
Theorem quick_ratio_needs_inventory (period_data : mapping) ratios :
  calculate_single_period_ratios float_of_str period_data = Ok ratios →
  let item := _get_float float_of_str period_data in
  ratios !! "Quick Ratio" =
    Some match item "current_assets", item "inventory" with
         | Some ca, Some inv =>
             clean_ratio
               (spec_division (Some (ca - inv)%float)
                  (item "current_liabilities"))
         | _, _ => None
         end.
Proof.
  intros ->%single_period_ratios_inv. rewrite lookup_fmap. simpl.
  unfold ratio_table. simplify_map_eq. f_equal.
  by destruct (_get_float _ _ "current_assets"),
    (_get_float _ _ "inventory").
Qed.

(** X13. Return on Capital Employed is operating income / (total assets -
    current liabilities) when both balance items are present and None
    when either is missing; it is None as well whenever total assets
    equal current liabilities, infinite values included. *)
Theorem roce_capital_employed (period_data : mapping) ratios :
  calculate_single_period_ratios float_of_str period_data = Ok ratios →
  let item := _get_float float_of_str period_data in
  ratios !! "Return on Capital Employed (ROCE)" =
    Some match item "total_assets", item "current_liabilities" with
         | Some assets, Some cl =>
             clean_ratio
               (spec_division (item "operating_income")
                  (Some (assets - cl)%float))
         | _, _ => None
         end
  ∧ (∀ assets cl,
       item "total_assets" = Some assets →
       item "current_liabilities" = Some cl →
       (assets =? cl)%float = true →
       ratios !! "Return on Capital Employed (ROCE)" = Some None).
Proof.
  intros ->%single_period_ratios_inv item. rewrite lookup_fmap. simpl.
  unfold ratio_table. simplify_map_eq. fold item.
  assert (∀ n, spec_division n None = None) as Hnone by by intros [].
  unfold capital_employed_denominator.
  split.
  - f_equal. destruct (item "total_assets"), (item "current_liabilities");
      simpl; by rewrite ?Hnone.
  - intros assets cl -> -> Heq. simpl. f_equal.
    destruct (item "operating_income") as [oi|]; [|done]. simpl.
    destruct (is_infinity assets) eqn:Hinf.
    + pose proof (sub_same_infinity _ _ Heq Hinf) as Hnan.
      assert ((assets - cl =? 0)%float = false) as ->.
      { rewrite FloatAxioms.eqb_spec. apply is_nan_spec in Hnan.
        by rewrite Hnan. }
      simpl. by rewrite (div_nan_r oi _ Hnan).
    + pose proof (sub_equal_zero _ _ Heq Hinf) as Hz.
      rewrite abs_sub_comm in Hz. by rewrite (abs_zero_eqb _ Hz).
Qed.

(** X14. The verifier and the ratio engine read nothing but canonical
    items: two periods that agree on every key of FINANCIAL_ITEM_MAPPING
    get the same six check results and the same outcome of
    [calculate_single_period_ratios]. *)
Theorem engines_read_canonical_items (m m' : mapping) :
  (∀ key, key ∈ FINANCIAL_ITEM_MAPPING.*1 →
          mapping_get m key = mapping_get m' key) →
  run_checks float_of_str m = run_checks float_of_str m'
  ∧ calculate_single_period_ratios float_of_str m
    = calculate_single_period_ratios float_of_str m'.
Proof.
  intros Hsame.
  assert (∀ key, bool_decide (key ∈ FINANCIAL_ITEM_MAPPING.*1) = true →
            _get_float float_of_str m key = _get_float float_of_str m' key)
    as Hfloat.
  { intros key Hkey%bool_decide_eq_true. unfold _get_float.
    by rewrite (Hsame key Hkey). }
  assert (∀ key, bool_decide (key ∈ FINANCIAL_ITEM_MAPPING.*1) = true →
            _get float_of_str m key = _get float_of_str m' key) as Hget.
  { intros key Hkey%bool_decide_eq_true. unfold _get.
    by rewrite (Hsame key Hkey). }
  split.
  - unfold run_checks. by rewrite !Hfloat by reflexivity.
  - unfold calculate_single_period_ratios. by rewrite !Hget by reflexivity.
Qed.

(** What [calculate_historical_ratios] returns on a non-empty matrix with
    distinct column labels. *)
Lemma historical_ratios_result (df : Frame) :
  frame_empty df = false →
  NoDup (frame_columns df).*1 →
  calculate_historical_ratios float_of_str (Some df) =
  Ok (Some {| ratio_columns :=
                (λ c, (c, label_ratios float_of_str df c))
                  <$> (frame_columns df).*1 |}).
Proof.
  intros Hne Hnd. unfold calculate_historical_ratios. rewrite Hne.
  assert (∀ c, c ∈ (frame_columns df).*1 →
            is_Some (dict_get (frame_columns df) c)) as Hcols.
  { intros c Hc. destruct (dict_get (frame_columns df) c) eqn:Hget; [eauto|].
    by apply dict_get_None_not_key in Hget. }
  rewrite ratios_by_period_returns by done. cbn [mbind res_bind].
  set (all := foldl (λ acc c, dict_set acc c (label_ratios float_of_str df c))
                [] (frame_columns df).*1).
  assert (∀ c, c ∈ (frame_columns df).*1 →
            dict_get all c = Some (label_ratios float_of_str df c)) as Hall.
  { intros c Hc. by apply fold_dict_set_get. }
  rewrite bool_decide_eq_false_2.
  2:{ unfold frame_empty in Hne. apply orb_false_iff in Hne as [_ Hne].
      apply bool_decide_eq_false_1 in Hne.
      destruct (frame_columns df) as [|[c cells] rest] eqn:Hdf; [done|].
      intros Hnil. specialize (Hall c). rewrite Hnil in Hall.
      simpl in Hall. by discriminate Hall; [apply elem_of_cons; left]. }
  unfold reindex_columns. do 3 f_equal.
  apply list_fmap_ext. intros i c Hc. f_equal.
  apply list_elem_of_lookup_2 in Hc. by rewrite (Hall c Hc).
Qed.

(** X15. On a matrix whose column labels are distinct,
    [calculate_historical_ratios] never raises, and it returns None
    exactly when it is given None or an empty matrix. *)
Theorem historical_ratios_none_iff_empty (standardized_data : option Frame) :
  (∀ df, standardized_data = Some df → NoDup (frame_columns df).*1) →
  (∃ r, calculate_historical_ratios float_of_str standardized_data = Ok r)
  ∧ (calculate_historical_ratios float_of_str standardized_data = Ok None
     ↔ ∀ df, standardized_data = Some df → frame_empty df = true).
Proof.
  intros Hnd. destruct standardized_data as [df|]; [|split; [by eexists|done]].
  specialize (Hnd df eq_refl).
  destruct (frame_empty df) eqn:Hempty.
  - unfold calculate_historical_ratios. rewrite Hempty.
    split; [by eexists|]. split; [|done]. by intros _ ? [= <-].
  - rewrite historical_ratios_result by done. split; [by eexists|].
    split; [done|]. intros Hall. specialize (Hall df eq_refl). congruence.
Qed.

End RatioProperties.

(** ** The Standardized Matrix *)

Lemma StronglySorted_lookup {A} (R : relation A) (l : list A) i j x y :
  StronglySorted R l → (i < j)%nat →
  l !! i = Some x → l !! j = Some y → R x y.
Proof.
  intros Hl. revert i j. induction Hl as [|a l Hl IH Hall]; intros i j Hij.
  - done.
  - destruct i as [|i], j as [|j]; simpl; try lia.
    + intros [= <-] Hy. rewrite Forall_forall in Hall.
      apply Hall. by eapply list_elem_of_lookup_2.
    + apply IH. lia.
Qed.

#[global] Instance later_first_trans : Transitive later_first.
Proof. unfold later_first. intros a b c. lia. Qed.

#[global] Instance later_first_total : Total later_first.
Proof. unfold later_first. intros a b. lia. Qed.

Lemma dict_get_Some_key {K V} `{EqDecision K} (d : list (K * V)) k v :
  dict_get d k = Some v → k ∈ d.*1.
Proof.
  intros Hin%dict_get_Some_elem_of. apply list_elem_of_fmap. by exists (k, v).
Qed.

Lemma dict_get_key_Some {K V} `{EqDecision K} (d : list (K * V)) k :
  k ∈ d.*1 → is_Some (dict_get d k).
Proof.
  destruct (dict_get d k) eqn:Hget; [eauto|].
  by apply dict_get_None_not_key in Hget.
Qed.

Lemma add_key_NoDup acc k : NoDup acc → NoDup (add_key acc k).
Proof.
  intros Hnd. unfold add_key. case_bool_decide as Hk; [done|].
  apply NoDup_app. split_and!; [done| |apply NoDup_singleton].
  intros x Hx ->%list_elem_of_singleton. done.
Qed.

Lemma add_key_inv acc k x : x ∈ add_key acc k → x ∈ acc ∨ x = k.
Proof. unfold add_key. case_bool_decide; set_solver. Qed.

Lemma add_keys_NoDup acc ks : NoDup acc → NoDup (foldl add_key acc ks).
Proof.
  revert acc. induction ks as [|k ks IH]; intros acc Hnd; simpl;
    auto using add_key_NoDup.
Qed.

Lemma add_keys_inv acc ks x : x ∈ foldl add_key acc ks → x ∈ acc ∨ x ∈ ks.
Proof.
  revert acc. induction ks as [|k ks IH]; intros acc; simpl; [by left|].
  intros [[? | ->]%add_key_inv | ?]%IH; set_solver.
Qed.

Lemma union_keys_NoDup (d : list (Z * list (string * float))) :
  NoDup (union_keys d).
Proof.
  unfold union_keys. generalize (NoDup_nil_2 (A:=string)).
  generalize (@nil string) as acc.
  induction d as [|row d IH]; intros acc Hnd; simpl; [done|].
  by apply IH, add_keys_NoDup.
Qed.

Lemma union_keys_inv (d : list (Z * list (string * float))) k :
  k ∈ union_keys d → ∃ row, row ∈ d ∧ k ∈ row.2.*1.
Proof.
  unfold union_keys.
  assert (∀ acc,
    k ∈ foldl (λ (acc : list string) (row : Z * list (string * float)),
                 foldl add_key acc row.2.*1) acc d →
    k ∈ acc ∨ ∃ row, row ∈ d ∧ k ∈ row.2.*1) as Hfold.
  { induction d as [|row d IH]; intros acc; simpl; [by left|].
    intros [[? | ?]%add_keys_inv | (row' & ? & ?)]%IH; [by left|..].
    - right. exists row. split; [apply elem_of_cons; by left | done].
    - right. exists row'. split; [apply elem_of_cons; by right | done]. }
  intros [?%elem_of_nil | ?]%Hfold; done.
Qed.

(** A Series built over labels [l] holds under each label what was put
    there. *)
Lemma lookup_zip_fmap {A} (g : string → A) (l : list string) (k : string) :
  (list_to_map (zip l (g <$> l)) : gmap string A) !! k
  = if bool_decide (k ∈ l) then Some (g k) else None.
Proof.
  induction l as [|k0 l IH]; csimpl.
  - by rewrite lookup_empty.
  - destruct (decide (k0 = k)) as [->|Hne].
    + rewrite lookup_insert_eq. rewrite bool_decide_eq_true_2; [done|].
      apply elem_of_cons. by left.
    + rewrite lookup_insert_ne by done. rewrite IH.
      case_bool_decide as Hk; case_bool_decide as Hk'; try done;
        set_solver.
Qed.

(** Where the entries of a merged raw bag come from. *)
Lemma store_items_elem (contents : period_contents)
    (items : list (string * pyval)) k v :
  (k, v) ∈ default [] (foldl store_item contents items) →
  (k, v) ∈ default [] contents ∨ (k, v) ∈ items.
Proof.
  revert contents. induction items as [|[k0 v0] items IH];
    intros contents; simpl; [by left|].
  intros [Hin | Hin]%IH; [|right; apply elem_of_cons; by right].
  unfold store_item in Hin. destruct (pd_notna v0); [|by left]. simpl in Hin.
  apply elem_of_dict_set in Hin as [? | [= -> ->]]; [by left|].
  right. apply elem_of_cons. by left.
Qed.

Lemma record_column_elem index all_period_data col p contents k v :
  (p, contents) ∈ record_column index all_period_data col →
  (k, v) ∈ default [] contents →
  (∃ contents0, (p, contents0) ∈ all_period_data
                ∧ (k, v) ∈ default [] contents0)
  ∨ ∃ t, col.1 = LTimestamp t ∧ strftime_Ymd t = p
         ∧ (k, v) ∈ zip index col.2.
Proof.
  unfold record_column. cbv zeta.
  destruct col.1 as [t| |]; [|left; by exists contents..].
  intros [Hin | [= -> ->]]%elem_of_dict_set Hkv; [left; by exists contents|].
  apply store_items_elem in Hkv as [Hkv | Hkv]; [|right; by exists t].
  left. destruct (dict_get _ _) as [c0|] eqn:Hc0; simpl in Hkv.
  - exists c0. split; [by apply dict_get_Some_elem_of | done].
  - by apply elem_of_nil in Hkv.
Qed.

Lemma record_columns_elem index cols all_period_data p contents k v :
  (p, contents) ∈ foldl (record_column index) all_period_data cols →
  (k, v) ∈ default [] contents →
  (∃ contents0, (p, contents0) ∈ all_period_data
                ∧ (k, v) ∈ default [] contents0)
  ∨ ∃ t cells, (LTimestamp t, cells) ∈ cols ∧ strftime_Ymd t = p
               ∧ (k, v) ∈ zip index cells.
Proof.
  revert all_period_data. induction cols as [|col cols IH];
    intros all_period_data; simpl.
  - intros Hin Hkv. left. by exists contents.
  - intros Hin Hkv.
    destruct (IH _ Hin Hkv) as [(c0 & Hc0 & Hkv0) | (t & cells & Hc & Ht & Hz)].
    + destruct (record_column_elem _ _ _ _ _ _ _ Hc0 Hkv0)
        as [? | (t & Hcol & Ht & Hz)]; [by left|].
      right. exists t, col.2. split_and!; [|done..].
      apply elem_of_cons. left. destruct col as [l cells]. simpl in *.
      by subst.
    + right. exists t, cells. split_and!; [|done..].
      apply elem_of_cons. by right.
Qed.

Section MergeFacts.
Variable to_datetime : list label → res (list label).

Lemma raw_bags_raw_cells stmts p contents k v :
  (p, contents) ∈ raw_bags to_datetime stmts →
  (k, v) ∈ default [] contents →
  raw_cell to_datetime stmts p k v.
Proof.
  unfold raw_bags.
  assert (∀ before todo acc,
    (∀ p contents k v, (p, contents) ∈ acc → (k, v) ∈ default [] contents →
                       raw_cell to_datetime (before ++ todo) p k v) →
    ∀ p contents k v,
      (p, contents) ∈ foldl (record_statement to_datetime) acc todo →
      (k, v) ∈ default [] contents →
      raw_cell to_datetime (before ++ todo) p k v) as Hfold.
  { intros before todo. revert before.
    induction todo as [|[name df] todo IH]; intros before acc Hacc; simpl;
      [done|].
    replace (before ++ (name, df) :: todo)%list
      with ((before ++ [(name, df)]) ++ todo)%list
      in * by by rewrite <- app_assoc.
    apply IH. intros p' c' k' v' Hin Hkv.
    unfold record_statement in Hin; simpl in Hin.
    destruct df as [df|]; [|by eapply Hacc].
    destruct (raw_empty df) eqn:Hempty; [by eapply Hacc|].
    destruct (convert_columns to_datetime df) as [df'|] eqn:Hconv;
      [|by eapply Hacc].
    destruct (record_columns_elem _ _ _ _ _ _ _ Hin Hkv)
      as [(c0 & Hc0 & Hkv0) | (t & cells & Hc & Ht & Hz)];
      [by eapply Hacc|].
    exists name, df, df', t, cells. split_and!; try done.
    set_solver. }
  intros Hin Hkv. apply (Hfold [] stmts []) with contents; [|done..].
  by intros ???? ?%elem_of_nil.
Qed.

Lemma record_column_keys_NoDup index all_period_data col :
  NoDup all_period_data.*1 →
  NoDup (record_column index all_period_data col).*1.
Proof.
  intros Hnd. unfold record_column. cbv zeta.
  destruct col.1; [|done..]. by apply dict_set_keys_NoDup.
Qed.

(** The raw bags have one entry per date. *)
Lemma raw_bags_periods_NoDup stmts :
  NoDup (raw_bags to_datetime stmts).*1.
Proof.
  unfold raw_bags. generalize (NoDup_nil_2 (A:=Z)).
  change (@nil Z) with ((@nil (Z * period_contents)).*1).
  generalize (@nil (Z * period_contents)) as acc.
  induction stmts as [|[name df] stmts IH]; intros acc Hnd; simpl; [done|].
  apply IH. unfold record_statement; simpl.
  destruct df as [df|]; [|done]. destruct (raw_empty df); [done|].
  destruct (convert_columns to_datetime df) as [df'|]; [|done].
  generalize (raw_columns df') as cols. revert acc Hnd. clear.
  intros acc Hnd cols. revert acc Hnd.
  induction cols as [|col cols IH]; intros acc Hnd; simpl; [done|].
  by apply IH, record_column_keys_NoDup.
Qed.

End MergeFacts.

Lemma filter_zip_fmap {A} (g : string → A) (l : list string) (key : string) :
  NoDup l →
  filter (λ r : string * A, r.1 = key) (zip l (g <$> l))
  = if bool_decide (key ∈ l) then [(key, g key)] else [].
Proof.
  induction l as [|k0 l IH]; intros Hnd; csimpl; [done|].
  apply NoDup_cons in Hnd as [Hk0 Hnd]. rewrite filter_cons. simpl.
  rewrite (IH Hnd). destruct (decide (k0 = key)) as [->|Hne].
  - rewrite (bool_decide_eq_false_2 (key ∈ l)) by done.
    by rewrite bool_decide_eq_true_2 by (apply elem_of_cons; by left).
  - case_bool_decide as Hk; case_bool_decide as Hk'; try done; set_solver.
Qed.

(** In a column that holds a dictionary over distinct row labels, the
    item read under a key is the dictionary's value, NaN apart. *)
Lemma column_item_vector (df : Frame) (d : list (string * float))
    (key : string) :
  NoDup (frame_index df) →
  (∀ k, k ∈ d.*1 → k ∈ frame_index df) →
  column_item df ((λ k, default nan (dict_get d k)) <$> frame_index df) key
  = present (dict_get d key).
Proof.
  intros Hnd Hkeys. unfold column_item. rewrite filter_zip_fmap by done.
  case_bool_decide as Hk; simpl.
  - by destruct (dict_get d key) as [x|]; simpl.
  - destruct (dict_get d key) as [x|] eqn:Hget; [|done].
    apply dict_get_Some_key in Hget. by apply Hkeys in Hget.
Qed.

Section MatrixProperties.
Variable float_of_str : string → option float.
Variable to_datetime : list label → res (list label).

Lemma standardize_statements_out stmts frame :
  standardize_statements float_of_str to_datetime (Some stmts)
    = Ok (Some frame) →
  ∃ out,
    standardize_periods float_of_str (raw_bags to_datetime stmts) [] = Ok out
    ∧ out ≠ [] ∧ NoDup out.*1 ∧ frame = build_frame out.
Proof.
  rewrite standardize_statements_run. case_decide; [done|]. cbv zeta.
  case_bool_decide; [done|].
  destruct (standardize_periods float_of_str _ []) as [out|e] eqn:Hout;
    simpl; [|done].
  case_bool_decide; [done|]. intros [= <-]. exists out. split_and!; try done.
  apply (standardize_periods_keys_NoDup _ _ [] _ (NoDup_nil_2 (A:=Z)) Hout).
Qed.

Lemma standardized_frame_not_empty stmts frame :
  standardize_statements float_of_str to_datetime (Some stmts)
    = Ok (Some frame) →
  frame_empty frame = false.
Proof.
  intros (out & Hout & Hne & _ & ->)%standardize_statements_out.
  apply build_frame_not_empty; [done|].
  intros [p d] Hin Hnil. simpl in Hnil. subst d.
  destruct (standardize_periods_inv _ _ _ _ _ _ Hout Hin)
    as [?%elem_of_nil | (contents & _ & _ & Hd)]; done.
Qed.

Lemma standardize_items_keys raw entries acc d k :
  standardize_items float_of_str raw acc entries = Ok d →
  k ∈ d.*1 → k ∈ acc.*1 ∨ k ∈ entries.*1.
Proof.
  intros Hrun [f Hf]%dict_get_key_Some.
  destruct (standardize_items_inv _ _ _ _ _ _ _ Hrun Hf)
    as [Hacc | (syn & yf & v & Hin & _)].
  - left. by apply dict_get_Some_key in Hacc.
  - right. apply list_elem_of_fmap. by exists (k, syn).
Qed.

(** X16. A statement from which the merge reads nothing does not take
    part in the normalisation: the result is the one obtained without it,
    wherever it stands among the statements.  Such a statement is None, or
    empty, or has column labels whose conversion to dates raises or leaves
    no column with a value, or has no column labelled by a date once
    converted. *)
Theorem unusable_statement_ignored
    (before after : list (string * option RawFrame)) name df :
  unusable_statement to_datetime df →
  standardize_statements float_of_str to_datetime
    (Some (before ++ (name, df) :: after)%list)
  = standardize_statements float_of_str to_datetime
      (Some (before ++ after)%list).
Proof.
  intros Hdf. rewrite !standardize_statements_fold.
  by rewrite (merge_statements_drop _ _ before after name df Hdf).
Qed.

Lemma standardized_columns_descending stmts frame i j earlier later :
  standardize_statements float_of_str to_datetime (Some stmts)
    = Ok (Some frame) →
  (i < j)%nat →
  (frame_columns frame).*1 !! i = Some later →
  (frame_columns frame).*1 !! j = Some earlier →
  (ts_day earlier < ts_day later)%Z.
Proof.
  intros Hrun Hij Hi Hj.
  destruct (standardize_statements_columns _ _ _ _ Hrun) as [Hnd Hcols].
  destruct (standardize_statements_out _ _ Hrun)
    as (out & _ & _ & _ & Hframe).
  assert (∀ ts, ts ∈ (frame_columns frame).*1 → ts_time ts = 0%N) as Htime.
  { intros ts [[ts' cells] [-> Hin]]%list_elem_of_fmap.
    by destruct (Hcols _ _ Hin) as (_ & _ & _ & ? & _). }
  assert (ts_time earlier = 0%N) as He.
  { by eapply Htime, list_elem_of_lookup_2. }
  assert (ts_time later = 0%N) as Hl.
  { by eapply Htime, list_elem_of_lookup_2. }
  assert (later ≠ earlier) as Hne.
  { intros ->. pose proof (NoDup_lookup _ _ _ _ Hnd Hi Hj). lia. }
  assert (ts_day earlier ≤ ts_day later)%Z as Hle.
  { subst frame. unfold build_frame in Hi, Hj. simpl in Hi, Hj.
    rewrite <- list_fmap_compose in Hi, Hj.
    rewrite list_lookup_fmap in Hi, Hj.
    destruct (merge_sort later_first _ !! i) as [ri|] eqn:Hri; [|done].
    destruct (merge_sort later_first _ !! j) as [rj|] eqn:Hrj; [|done].
    simpl in Hi, Hj. simplify_eq. simpl.
    change (later_first ri rj).
    eapply StronglySorted_lookup; [|exact Hij|exact Hri|exact Hrj].
    apply StronglySorted_merge_sort; apply _. }
  destruct (decide (ts_day earlier = ts_day later)) as [Heq|]; [|lia].
  destruct Hne. destruct earlier, later. simpl in *. by subst.
Qed.

(** X17. The columns of the Standardized Matrix are labelled by midnight
    timestamps in strictly descending order of date; the first column is
    therefore the latest period. *)
Theorem standardized_columns_latest_first stmts frame :
  standardize_statements float_of_str to_datetime (Some stmts)
    = Ok (Some frame) →
  let columns := (frame_columns frame).*1 in
  (∀ ts, ts ∈ columns → ts_time ts = 0%N)
  ∧ (∀ i j earlier later,
       (i < j)%nat →
       columns !! i = Some later → columns !! j = Some earlier →
       (ts_day earlier < ts_day later)%Z)
  ∧ ∃ latest,
      head columns = Some latest
      ∧ ∀ ts, ts ∈ columns → (ts_day ts ≤ ts_day latest)%Z.
Proof.
  intros Hrun columns.
  destruct (standardize_statements_columns _ _ _ _ Hrun) as [_ Hcols].
  split_and!.
  - intros ts [[ts' cells] [-> Hin]]%list_elem_of_fmap.
    by destruct (Hcols _ _ Hin) as (_ & _ & _ & ? & _).
  - intros i j earlier later Hij Hi Hj.
    by apply (standardized_columns_descending stmts frame i j).
  - pose proof (standardized_frame_not_empty _ _ Hrun) as Hne.
    unfold frame_empty in Hne. apply orb_false_iff in Hne as [_ Hne].
    apply bool_decide_eq_false_1 in Hne.
    destruct columns as [|latest rest] eqn:Hcolumns.
    { subst columns. by apply fmap_nil_inv in Hcolumns. }
    exists latest. split; [done|].
    intros ts [[|j] Hj]%list_elem_of_lookup; simpl in Hj.
    + simplify_eq. lia.
    + apply Z.lt_le_incl.
      apply (standardized_columns_descending stmts frame 0 (S j)); try done.
      * lia.
      * fold columns. by rewrite Hcolumns.
      * fold columns. by rewrite Hcolumns.
Qed.

(** X18. The Standardized Matrix is a rectangle over canonical items: its
    row labels are distinct keys of FINANCIAL_ITEM_MAPPING, its column
    labels are distinct, and every column has one cell per row. *)
Theorem standardized_matrix_well_formed stmts frame :
  standardize_statements float_of_str to_datetime (Some stmts)
    = Ok (Some frame) →
  NoDup (frame_index frame)
  ∧ (∀ key, key ∈ frame_index frame → key ∈ FINANCIAL_ITEM_MAPPING.*1)
  ∧ NoDup (frame_columns frame).*1
  ∧ (∀ ts cells, (ts, cells) ∈ frame_columns frame →
                 length cells = length (frame_index frame)).
Proof.
  intros Hrun.
  destruct (standardize_statements_columns _ _ _ _ Hrun) as [Hnd Hcols].
  destruct (standardize_statements_out _ _ Hrun)
    as (out & Hout & _ & _ & Hframe).
  split_and!; [| |done|].
  - subst frame. apply union_keys_NoDup.
  - intros key Hkey. subst frame. simpl in Hkey.
    apply union_keys_inv in Hkey as ([p d] & Hin & Hk). simpl in Hk.
    destruct (standardize_periods_inv _ _ _ _ _ _ Hout Hin)
      as [?%elem_of_nil | (contents & _ & Hd & _)]; [done|].
    apply (standardize_items_keys _ _ _ _ _ Hd) in Hk as [Hk | Hk];
      [by apply elem_of_nil in Hk | done].
  - intros ts cells Hin.
    destruct (Hcols _ _ Hin) as (contents & d & _ & _ & _ & _ & ->).
    by rewrite length_fmap.
Qed.

Lemma standardize_periods_keeps periods acc out p :
  p ∉ periods.*1 →
  standardize_periods float_of_str periods acc = Ok out →
  dict_get out p = dict_get acc p.
Proof.
  revert acc. induction periods as [|[p0 contents0] rest IH];
    intros acc Hp Hrun; cbn [standardize_periods] in Hrun.
  - by simplify_eq.
  - apply not_elem_of_cons in Hp as [Hne Hp]. simpl in Hne.
    case_bool_decide; [by apply IH|].
    destruct (standardize_items float_of_str (default [] contents0) []
                FINANCIAL_ITEM_MAPPING) as [d0|e]; simpl in Hrun; [|done].
    case_bool_decide; [by apply IH|].
    rewrite (IH _ Hp Hrun). by rewrite dict_get_set_ne.
Qed.

Lemma standardize_periods_complete periods acc out p contents d :
  NoDup periods.*1 →
  standardize_periods float_of_str periods acc = Ok out →
  (p, contents) ∈ periods →
  standardize_items float_of_str (default [] contents) []
    FINANCIAL_ITEM_MAPPING = Ok d →
  d ≠ [] →
  dict_get out p = Some d.
Proof.
  intros Hnd Hrun Hin Hd Hne. revert acc Hnd Hrun Hin.
  induction periods as [|[p0 contents0] rest IH];
    intros acc Hnd Hrun Hin; cbn [standardize_periods] in Hrun.
  - by apply elem_of_nil in Hin.
  - apply NoDup_cons in Hnd as [Hp0 Hnd]. simpl in Hp0.
    apply elem_of_cons in Hin as [[= <- <-] | Hin].
    + case_bool_decide as Hraw.
      { rewrite Hraw in Hd.
        assert (standardize_items float_of_str [] [] FINANCIAL_ITEM_MAPPING
                = Ok []) as Hnil by reflexivity.
        congruence. }
      rewrite Hd in Hrun. simpl in Hrun.
      rewrite bool_decide_eq_false_2 in Hrun by done.
      rewrite (standardize_periods_keeps _ _ _ _ Hp0 Hrun).
      apply dict_get_set_eq.
    + case_bool_decide; [by eapply IH|].
      destruct (standardize_items float_of_str (default [] contents0) []
                  FINANCIAL_ITEM_MAPPING) as [d0|e]; simpl in Hrun; [|done].
      case_bool_decide; by eapply IH.
Qed.

(** X19. The columns of the Standardized Matrix are the canonical vectors
    of the periods, one column for each period whose vector is not empty
    and no other column: a column holds, row by row, the value its
    period's vector has under the row's key, and NaN where the vector has
    none. *)
Theorem matrix_columns_are_canonical_vectors stmts frame :
  standardize_statements float_of_str to_datetime (Some stmts)
    = Ok (Some frame) →
  (∀ ts cells,
     (ts, cells) ∈ frame_columns frame →
     ∃ d,
       canonical_vector float_of_str to_datetime stmts (ts_day ts) d
       ∧ d ≠ []
       ∧ cells = (λ key, default nan (dict_get d key)) <$> frame_index frame)
  ∧ (∀ p d,
       canonical_vector float_of_str to_datetime stmts p d →
       d ≠ [] →
       (∀ key, key ∈ d.*1 → key ∈ frame_index frame)
       ∧ (to_datetime_Ymd p,
          (λ key, default nan (dict_get d key)) <$> frame_index frame)
         ∈ frame_columns frame).
Proof.
  intros Hrun. split.
  - intros ts cells Hin.
    destruct (standardize_statements_columns _ _ _ _ Hrun) as [_ Hcols].
    destruct (Hcols _ _ Hin) as (contents & d & Hc & _ & Hd & Hne & ->).
    exists d. split_and!; [|done..].
    exists (raw_bags to_datetime stmts), contents.
    split_and!; [|done..]. by eapply standardize_statements_merged.
  - intros p d (all_period_data & contents & Hall & Hc & Hd) Hne.
    apply merge_statements_raw_bags in Hall as ->.
    destruct (standardize_statements_out _ _ Hrun)
      as (out & Hout & _ & _ & ->).
    assert ((p, d) ∈ out) as Hin.
    { apply dict_get_Some_elem_of.
      apply (standardize_periods_complete _ _ _ _ _ _
               (raw_bags_periods_NoDup _ stmts) Hout Hc Hd Hne). }
    split.
    + intros key Hkey. simpl. by apply (union_keys_elem _ (p, d)).
    + rewrite build_frame_columns. apply list_elem_of_fmap.
      by exists (p, d).
Qed.

(** X20. Every number in the Standardized Matrix comes from the raw
    statements: a cell that is not NaN, in the row of a canonical key and
    the column of a date, is [float()] of a non-missing raw value that
    some usable statement holds, in a column of that date, under one of
    the synonyms of that key. *)
Theorem matrix_cell_provenance stmts frame ts cells i key x :
  standardize_statements float_of_str to_datetime (Some stmts)
    = Ok (Some frame) →
  (ts, cells) ∈ frame_columns frame →
  frame_index frame !! i = Some key →
  cells !! i = Some x →
  is_nan x = false →
  ∃ synonyms yf_key value_raw,
    dict_get FINANCIAL_ITEM_MAPPING key = Some synonyms
    ∧ yf_key ∈ synonyms
    ∧ raw_cell to_datetime stmts (ts_day ts) yf_key value_raw
    ∧ pd_notna value_raw = true
    ∧ py_float float_of_str value_raw = Ok x.
Proof.
  intros Hrun Hcol Hkey Hcell Hx.
  destruct (standardize_statements_columns _ _ _ _ Hrun) as [_ Hcols].
  destruct (Hcols _ _ Hcol) as (contents & d & Hin & _ & Hd & _ & ->).
  rewrite list_lookup_fmap, Hkey in Hcell. simpl in Hcell. simplify_eq.
  destruct (dict_get d key) as [x|] eqn:Hget; simpl in Hx; [|done].
  destruct (standardize_items_inv _ _ _ _ _ _ _ Hd Hget)
    as [? | (synonyms & yf & v & Hentry & Hfind & Hf)]; [done|].
  apply find_synonym_first_present in Hfind as (j & Hj & Hv & _).
  apply dict_get_Some_elem_of in Hv.
  destruct (raw_bags_well_formed _ _ _ _ Hin) as [Hnotna _].
  rewrite Forall_forall in Hnotna.
  exists synonyms, yf, v. split_and!; try done.
  - by apply dict_get_NoDup; [apply FINANCIAL_ITEM_MAPPING_keys_NoDup|].
  - by eapply list_elem_of_lookup_2.
  - by eapply raw_bags_raw_cells.
  - by apply (Hnotna (yf, v)).
Qed.

Lemma standardize_item_raise raw acc key synonyms e :
  standardize_item float_of_str raw acc (key, synonyms) = Raise e →
  e = OverflowError
  ∧ ∃ yf_key value_raw,
      find_synonym raw synonyms = Some (yf_key, value_raw)
      ∧ overflows value_raw = true.
Proof.
  unfold standardize_item.
  destruct (find_synonym raw synonyms) as [[yf v]|]; [|done].
  destruct (is_None v); [done|].
  destruct (py_float float_of_str v) as [f|e'] eqn:Hf; simpl; [done|].
  apply py_float_raise in Hf as [-> | [-> | [-> Hov]]]; simpl; try done.
  intros [= <-]. split; [done|]. by exists yf, v.
Qed.

Lemma standardize_items_raise raw entries acc e :
  standardize_items float_of_str raw acc entries = Raise e →
  e = OverflowError
  ∧ ∃ key synonyms yf_key value_raw,
      (key, synonyms) ∈ entries
      ∧ find_synonym raw synonyms = Some (yf_key, value_raw)
      ∧ overflows value_raw = true.
Proof.
  revert acc. induction entries as [|[key synonyms] rest IH]; intros acc;
    cbn [standardize_items]; [done|].
  destruct (standardize_item float_of_str raw acc (key, synonyms))
    as [acc'|e'] eqn:Hitem; simpl.
  - intros (-> & key' & syn' & yf & v & Hin & Hfind & Hov)%IH.
    split; [done|]. exists key', syn', yf, v. split_and!; [|done..].
    apply elem_of_cons. by right.
  - intros [= <-].
    apply standardize_item_raise in Hitem as (-> & yf & v & Hfind & Hov).
    split; [done|]. exists key, synonyms, yf, v. split_and!; [|done..].
    apply elem_of_cons. by left.
Qed.

Lemma standardize_periods_raise periods acc e :
  standardize_periods float_of_str periods acc = Raise e →
  e = OverflowError
  ∧ ∃ p contents key synonyms yf_key value_raw,
      (p, contents) ∈ periods
      ∧ (key, synonyms) ∈ FINANCIAL_ITEM_MAPPING
      ∧ find_synonym (default [] contents) synonyms
        = Some (yf_key, value_raw)
      ∧ overflows value_raw = true.
Proof.
  revert acc. induction periods as [|[p0 contents0] rest IH]; intros acc;
    cbn [standardize_periods]; [done|].
  assert (∀ acc', standardize_periods float_of_str rest acc' = Raise e →
    e = OverflowError
    ∧ ∃ p contents key synonyms yf_key value_raw,
        (p, contents) ∈ (p0, contents0) :: rest
        ∧ (key, synonyms) ∈ FINANCIAL_ITEM_MAPPING
        ∧ find_synonym (default [] contents) synonyms
          = Some (yf_key, value_raw)
        ∧ overflows value_raw = true) as Hrest.
  { intros acc' (-> & p & c & key & syn & yf & v & Hin & ?)%IH.
    split; [done|]. exists p, c, key, syn, yf, v. split; [|done].
    apply elem_of_cons. by right. }
  case_bool_decide; [apply Hrest|].
  destruct (standardize_items float_of_str (default [] contents0) []
              FINANCIAL_ITEM_MAPPING) as [d0|e'] eqn:Hd0; simpl.
  - case_bool_decide; apply Hrest.
  - intros [= <-].
    apply standardize_items_raise in Hd0
      as (-> & key & syn & yf & v & Hin & Hfind & Hov).
    split; [done|]. exists p0, contents0, key, syn, yf, v.
    split_and!; [|done..]. apply elem_of_cons. by left.
Qed.

(** X21. [standardize_statements] raises in two situations only.  It
    raises ValueError exactly when a statement in use carries the same
    date on two columns: the merge then meets a whole column where it
    expects a cell.  Otherwise it raises only when a raw cell of a
    statement in use, under a synonym of some canonical key, holds an
    integer beyond the range of a float; the exception is then the
    OverflowError of [float()], which the handler for ValueError and
    TypeError does not catch. *)
Theorem standardize_statements_exceptions statements :
  (∀ e,
     standardize_statements float_of_str to_datetime statements = Raise e →
     ∃ stmts,
       statements = Some stmts
       ∧ ((e = ValueError
           ∧ Exists (λ stmt, repeats_date to_datetime stmt.2) stmts)
          ∨ (e = OverflowError
             ∧ ¬ Exists (λ stmt, repeats_date to_datetime stmt.2) stmts
             ∧ ∃ p key synonyms yf_key value_raw,
                 dict_get FINANCIAL_ITEM_MAPPING key = Some synonyms
                 ∧ yf_key ∈ synonyms
                 ∧ raw_cell to_datetime stmts p yf_key value_raw
                 ∧ overflows value_raw = true)))
  ∧ (∀ stmts,
       statements = Some stmts →
       Exists (λ stmt, repeats_date to_datetime stmt.2) stmts →
       standardize_statements float_of_str to_datetime statements
       = Raise ValueError).
Proof.
  split.
  - intros e. destruct statements as [stmts|]; [|done]. intros Hrun.
    exists stmts. split; [done|].
    rewrite standardize_statements_run in Hrun.
    destruct (decide (Exists _ stmts)) as [Hrep|Hrep].
    { left. split; [by injection Hrun|done]. }
    right.
    assert (standardize_periods float_of_str (raw_bags to_datetime stmts) []
            = Raise e) as Hout.
    { revert Hrun. cbv zeta. case_bool_decide; [done|].
      destruct (standardize_periods float_of_str _ []) as [out|e'];
        simpl; [by case_bool_decide|]. by intros [= <-]. }
    apply standardize_periods_raise in Hout
      as (-> & p & c & key & syn & yf & v & Hin & Hentry & Hfind & Hov).
    apply find_synonym_first_present in Hfind as (j & Hj & Hv & _).
    apply dict_get_Some_elem_of in Hv.
    split_and!; [done..|]. exists p, key, syn, yf, v. split_and!; try done.
    + by apply dict_get_NoDup; [apply FINANCIAL_ITEM_MAPPING_keys_NoDup|].
    + by eapply list_elem_of_lookup_2.
    + by eapply raw_bags_raw_cells.
  - intros stmts -> Hrep. rewrite standardize_statements_run.
    by rewrite decide_True.
Qed.

(** ** From the raw statements to the ratios and the checks *)

(** In a column of the matrix the engines read back the canonical vector
    of the column's period, NaN values apart. *)
Lemma column_reads_canonical_vector stmts frame ts cells :
  standardize_statements float_of_str to_datetime (Some stmts)
    = Ok (Some frame) →
  (ts, cells) ∈ frame_columns frame →
  ∃ d,
    canonical_vector float_of_str to_datetime stmts (ts_day ts) d
    ∧ ∀ key,
        _get_float float_of_str (column_series frame cells) key
        = present (dict_get d key).
Proof.
  intros Hrun Hcol.
  destruct (standardize_statements_out _ _ Hrun)
    as (out & Hout & _ & Hnd & Hframe).
  pose proof (build_frame_columns out) as Hperm. rewrite <- Hframe in Hperm.
  rewrite Hperm in Hcol.
  apply list_elem_of_fmap in Hcol as [[p d] [[= -> ->] Hin]]. simpl.
  destruct (standardize_periods_inv _ _ _ _ _ _ Hout Hin)
    as [?%elem_of_nil | (contents & Hc & Hd & Hne)]; [done|].
  exists d. split.
  { exists (raw_bags to_datetime stmts), contents.
    split_and!; [|done..]. by eapply standardize_statements_merged. }
  intros key. rewrite get_float_column_item. apply column_item_vector.
  - subst frame. apply union_keys_NoDup.
  - intros k Hk. subst frame. simpl.
    by apply (union_keys_elem _ (p, d)).
Qed.

Lemma standardized_label_ratios stmts frame ts cells :
  standardize_statements float_of_str to_datetime (Some stmts)
    = Ok (Some frame) →
  (ts, cells) ∈ frame_columns frame →
  ∃ d,
    canonical_vector float_of_str to_datetime stmts (ts_day ts) d
    ∧ label_ratios float_of_str frame ts
      = clean_ratio <$> ratio_table (λ key, present (dict_get d key)).
Proof.
  intros Hrun Hcol.
  destruct (column_reads_canonical_vector _ _ _ _ Hrun Hcol)
    as (d & Hd & Hget).
  destruct (standardize_statements_columns _ _ _ _ Hrun) as [Hnd _].
  exists d. split; [done|].
  unfold label_ratios. rewrite (dict_get_NoDup _ _ _ Hnd Hcol). simpl.
  f_equal. unfold ratio_table. by rewrite !Hget.
Qed.

(** X22. On the matrix that [standardize_statements] returns,
    [calculate_historical_ratios] returns a frame, never None and never
    an exception, with the columns of the matrix in the same order; the
    column of a period holds the fourteen ratios of that period's
    canonical vector. *)
Theorem standardized_matrix_ratios stmts frame :
  standardize_statements float_of_str to_datetime (Some stmts)
    = Ok (Some frame) →
  ∃ out,
    calculate_historical_ratios float_of_str (Some frame) = Ok (Some out)
    ∧ (ratio_columns out).*1 = (frame_columns frame).*1
    ∧ ∀ ts ratios,
        (ts, ratios) ∈ ratio_columns out →
        ∃ d,
          canonical_vector float_of_str to_datetime stmts (ts_day ts) d
          ∧ ratios
            = clean_ratio <$> ratio_table (λ key, present (dict_get d key)).
Proof.
  intros Hrun.
  destruct (standardize_statements_columns _ _ _ _ Hrun) as [Hnd _].
  pose proof (standardized_frame_not_empty _ _ Hrun) as Hne.
  eexists. split; [by apply historical_ratios_result|]. simpl. split.
  - rewrite <- list_fmap_compose. by apply list_fmap_id.
  - intros ts ratios [c [[= -> ->] Hc]]%list_elem_of_fmap.
    apply list_elem_of_fmap in Hc as [[c' cells] [-> Hin]]. simpl.
    destruct (standardized_label_ratios _ _ _ _ Hrun Hin) as (d & ? & ?).
    by exists d.
Qed.

(** X23. The first column of the matrix that [standardize_statements]
    returns, which is the one [analyze_company] verifies and
    [analyze_sector] computes the ratios of, is the latest period.  The
    verifier accepts it, so its report has the six check entries, and
    [calculate_single_period_ratios] returns on it; both read the
    canonical vector of that period, NaN values apart. *)
Theorem latest_period_is_checked stmts frame :
  standardize_statements float_of_str to_datetime (Some stmts)
    = Ok (Some frame) →
  ∃ latest cells d,
    head (frame_columns frame) = Some (latest, cells)
    ∧ latest_period_data frame = Some (column_series frame cells)
    ∧ (∀ ts, ts ∈ (frame_columns frame).*1 → (ts_day ts ≤ ts_day latest)%Z)
    ∧ canonical_vector float_of_str to_datetime stmts (ts_day latest) d
    ∧ (∀ key,
         _get_float float_of_str (column_series frame cells) key
         = present (dict_get d key))
    ∧ verify_financial_consistency float_of_str (latest_period_data frame)
      = run_checks float_of_str (column_series frame cells)
    ∧ dom (verify_financial_consistency float_of_str
             (latest_period_data frame)) = six_checks
    ∧ calculate_single_period_ratios float_of_str
        (column_series frame cells)
      = Ok (clean_ratio <$> ratio_table (λ key, present (dict_get d key))).
Proof.
  intros Hrun.
  pose proof (standardized_frame_not_empty _ _ Hrun) as Hne.
  destruct (standardize_statements_columns _ _ _ _ Hrun) as [_ Hcols].
  unfold frame_empty in Hne. apply orb_false_iff in Hne as [Hrows Hne].
  apply bool_decide_eq_false_1 in Hrows, Hne.
  destruct (frame_columns frame) as [|[latest cells] rest] eqn:Hframe;
    [done|].
  assert ((latest, cells) ∈ frame_columns frame) as Hin.
  { rewrite Hframe. apply elem_of_cons. by left. }
  destruct (column_reads_canonical_vector _ _ _ _ Hrun Hin)
    as (d & Hd & Hget).
  assert (verify_financial_consistency float_of_str
            (latest_period_data frame)
          = run_checks float_of_str (column_series frame cells)) as Hverify.
  { unfold latest_period_data. rewrite Hframe. simpl.
    rewrite decide_False; [done|].
    destruct (Hcols latest cells) as (c0 & d0 & _ & _ & _ & _ & Hcells).
    { apply elem_of_cons. by left. }
    destruct (frame_index frame) as [|k0 index]; [done|].
    rewrite Hcells. csimpl. apply insert_non_empty. }
  exists latest, cells, d. split_and!; try done.
  - unfold latest_period_data. by rewrite Hframe.
  - intros ts [[|j] Hj]%list_elem_of_lookup; simpl in Hj.
    + simplify_eq. lia.
    + apply Z.lt_le_incl.
      apply (standardized_columns_descending stmts frame 0 (S j));
        try done; [lia|by rewrite Hframe..].
  - by rewrite Hverify, run_checks_dom.
  - rewrite calculate_single_period_ratios_returns
      by apply column_series_no_overflow.
    do 2 f_equal. unfold ratio_table. by rewrite !Hget.
Qed.

End MatrixProperties.

(** ** The sector statistics *)

Lemma list_ascii_of_string_app (a b : string) :
  String.list_ascii_of_string (a ++ b)
  = (String.list_ascii_of_string a ++ String.list_ascii_of_string b)%list.
Proof. induction a as [|c a IH]; simpl; [done|]. by rewrite IH. Qed.

Lemma list_ascii_of_string_inj (a b : string) :
  String.list_ascii_of_string a = String.list_ascii_of_string b → a = b.
Proof.
  intros H%(f_equal String.string_of_list_ascii).
  by rewrite !String.string_of_list_ascii_of_string in H.
Qed.

Lemma stat_key_inj (name name' : string) (s s' : stat) :
  name ++ stat_suffix s = name' ++ stat_suffix s' → name = name' ∧ s = s'.
Proof.
  intros H%(f_equal String.list_ascii_of_string).
  rewrite !list_ascii_of_string_app in H.
  assert (String.list_ascii_of_string "_Median"
          = (String.list_ascii_of_string "_Me"
             ++ String.list_ascii_of_string "dian")%list)
    as Hmedian by done.
  destruct s, s'; cbn [stat_suffix] in H;
    first
      [ apply app_inj_2 in H as [Hn Hs]; [|done]
      | rewrite ?Hmedian, ?app_assoc in H;
        apply app_inj_2 in H as [Hn Hs]; [|done] ];
    simpl in Hs; try discriminate Hs;
    apply list_ascii_of_string_inj in Hn; by subst.
Qed.

Section SectorProperties.
Variable column_stat :
  stat → list (string * list (string * option float)) → string → res float.

Lemma sector_stats_of_column_lookup_ne data sector_stats name out k :
  sector_stats_of_column column_stat data sector_stats name = Ok out →
  (∀ s, k ≠ name ++ stat_suffix s) →
  out !! k = sector_stats !! k.
Proof.
  intros Hrun Hk. unfold sector_stats_of_column in Hrun.
  pose proof (Hk Avg) as Havg. pose proof (Hk Median) as Hmedian.
  pose proof (Hk Min) as Hmin. pose proof (Hk Max) as Hmax.
  simpl in Havg, Hmedian, Hmin, Hmax.
  destruct (negb _).
  - destruct (column_stat Avg _ _); simpl in Hrun; [|done].
    destruct (column_stat Median _ _); simpl in Hrun; [|done].
    destruct (column_stat Min _ _); simpl in Hrun; [|done].
    destruct (column_stat Max _ _); simpl in Hrun; [|done].
    injection Hrun as <-. by rewrite !lookup_insert_ne.
  - injection Hrun as <-. by rewrite !lookup_insert_ne.
Qed.

Lemma sector_stats_of_column_lookup data sector_stats name out s :
  sector_stats_of_column column_stat data sector_stats name = Ok out →
  out !! (name ++ stat_suffix s)
  = Some (if column_all_na data name then None
          else match column_stat s data name with
               | Ok v => Some v
               | Raise _ => None
               end).
Proof.
  unfold sector_stats_of_column.
  assert (∀ s1 s2, s1 ≠ s2 → name ++ stat_suffix s1 ≠ name ++ stat_suffix s2)
    as Hne.
  { intros s1 s2 Hs [_ ?]%stat_key_inj. done. }
  pose proof (Hne Avg Median ltac:(done)) as H1.
  pose proof (Hne Avg Min ltac:(done)) as H2.
  pose proof (Hne Avg Max ltac:(done)) as H3.
  pose proof (Hne Median Min ltac:(done)) as H4.
  pose proof (Hne Median Max ltac:(done)) as H5.
  pose proof (Hne Min Max ltac:(done)) as H6.
  simpl in H1, H2, H3, H4, H5, H6.
  destruct (column_all_na data name); simpl.
  - intros [= <-]. destruct s; simpl;
      by repeat (rewrite lookup_insert_eq || rewrite lookup_insert_ne by done).
  - destruct (column_stat Avg _ _) eqn:E1; simpl; [|done].
    destruct (column_stat Median _ _) eqn:E2; simpl; [|done].
    destruct (column_stat Min _ _) eqn:E3; simpl; [|done].
    destruct (column_stat Max _ _) eqn:E4; simpl; [|done].
    intros [= <-]. destruct s; simpl; rewrite ?E1, ?E2, ?E3, ?E4;
      by repeat (rewrite lookup_insert_eq || rewrite lookup_insert_ne by done).
Qed.

Lemma sector_stats_of_columns_keep data columns sector_stats out k :
  sector_stats_of_columns column_stat data columns sector_stats = Ok out →
  (∀ name s, name ∈ columns → k ≠ name ++ stat_suffix s) →
  out !! k = sector_stats !! k.
Proof.
  revert sector_stats. induction columns as [|c columns IH];
    intros sector_stats; cbn [sector_stats_of_columns].
  - by intros [= <-].
  - destruct (sector_stats_of_column column_stat data sector_stats c)
      as [stats'|e] eqn:Hc; simpl; [|done].
    intros Hrun Hk. rewrite (IH _ Hrun).
    + apply (sector_stats_of_column_lookup_ne _ _ _ _ _ Hc).
      intros s. apply Hk, elem_of_cons. by left.
    + intros name s Hin. apply Hk, elem_of_cons. by right.
Qed.

Lemma sector_stats_of_columns_lookup data columns sector_stats out name s :
  sector_stats_of_columns column_stat data columns sector_stats = Ok out →
  name ∈ columns →
  out !! (name ++ stat_suffix s)
  = Some (if column_all_na data name then None
          else match column_stat s data name with
               | Ok v => Some v
               | Raise _ => None
               end).
Proof.
  revert sector_stats. induction columns as [|c columns IH];
    intros sector_stats; cbn [sector_stats_of_columns].
  - by intros _ ?%elem_of_nil.
  - destruct (sector_stats_of_column column_stat data sector_stats c)
      as [stats'|e] eqn:Hc; simpl; [|done].
    intros Hrun Hin.
    destruct (decide (name ∈ columns)) as [Hin'|Hnin]; [by eapply IH|].
    apply elem_of_cons in Hin as [->|]; [|done].
    rewrite (sector_stats_of_columns_keep _ _ _ _ _ Hrun).
    + apply (sector_stats_of_column_lookup _ _ _ _ _ Hc).
    + intros name s' Hin [-> _]%stat_key_inj. done.
Qed.

Lemma sector_stats_of_columns_dom data columns sector_stats out k :
  sector_stats_of_columns column_stat data columns sector_stats = Ok out →
  k ∈ dom out →
  k ∈ dom sector_stats ∨ ∃ name s, name ∈ columns ∧ k = name ++ stat_suffix s.
Proof.
  revert sector_stats. induction columns as [|c columns IH];
    intros sector_stats; cbn [sector_stats_of_columns].
  - intros [= <-]. by left.
  - destruct (sector_stats_of_column column_stat data sector_stats c)
      as [stats'|e] eqn:Hc; simpl; [|done].
    intros Hrun Hk.
    destruct (IH _ Hrun Hk) as [Hk' | (name & s & Hin & ->)].
    + assert ((∃ s, k = c ++ stat_suffix s) ∨ ∀ s, k ≠ c ++ stat_suffix s)
        as [[s ->] | Hns].
      { destruct (decide (k = c ++ stat_suffix Avg)); [left; by exists Avg|].
        destruct (decide (k = c ++ stat_suffix Median));
          [left; by exists Median|].
        destruct (decide (k = c ++ stat_suffix Min)); [left; by exists Min|].
        destruct (decide (k = c ++ stat_suffix Max)); [left; by exists Max|].
        right. by intros []. }
      * right. exists c, s. split; [apply elem_of_cons; by left | done].
      * left. apply elem_of_dom. apply elem_of_dom in Hk'.
        by rewrite <- (sector_stats_of_column_lookup_ne _ _ _ _ _ Hc).
    + right. exists name, s. split; [apply elem_of_cons; by right | done].
Qed.

Lemma sector_stats_of_columns_returns data columns sector_stats :
  (∀ s name, name ∈ columns → column_all_na data name = false →
             ∃ v, column_stat s data name = Ok v) →
  ∃ out,
    sector_stats_of_columns column_stat data columns sector_stats = Ok out.
Proof.
  revert sector_stats. induction columns as [|c columns IH];
    intros sector_stats Hret; cbn [sector_stats_of_columns]; [by eexists|].
  assert (∃ stats',
            sector_stats_of_column column_stat data sector_stats c
            = Ok stats') as [stats' ->].
  { unfold sector_stats_of_column.
    destruct (column_all_na data c) eqn:Hna; simpl; [by eexists|].
    assert (c ∈ c :: columns) as Hc by (apply elem_of_cons; by left).
    destruct (Hret Avg c Hc Hna) as [v1 ->].
    destruct (Hret Median c Hc Hna) as [v2 ->].
    destruct (Hret Min c Hc Hna) as [v3 ->].
    destruct (Hret Max c Hc Hna) as [v4 ->]. simpl. by eexists. }
  simpl. apply IH. intros s name Hin. apply Hret, elem_of_cons. by right.
Qed.

(** X24. When pandas computes the statistics it is asked for,
    [calculate_sector_ratios] returns exactly four entries per ratio name
    that occurs in any company's dictionary, under the keys name_Avg,
    name_Median, name_Min and name_Max, and no other entry.  The four
    entries of a ratio for which no company holds a number are None;
    those of the other ratios are the statistics of the column, a NaN
    statistic being returned as None. *)
Theorem sector_ratios_entries
    (data : list (string * list (string * option float))) :
  stats_return column_stat data →
  let result := calculate_sector_ratios column_stat data in
  (∀ k, k ∈ dom result
        ↔ ∃ name s, name ∈ sector_columns data ∧ k = name ++ stat_suffix s)
  ∧ (∀ name s,
       name ∈ sector_columns data →
       result !! (name ++ stat_suffix s)
       = Some (spec_sector_stat column_stat data name s)).
Proof.
  intros Hret result. subst result. unfold calculate_sector_ratios.
  case_bool_decide as Hdata; [subst; split; [|by intros ?? ?%elem_of_nil]|].
  { intros k. rewrite dom_empty_L. split; [set_solver|].
    by intros (? & ? & ?%elem_of_nil & _). }
  cbv zeta. case_bool_decide as Hcols.
  { rewrite Hcols. split; [|by intros ?? ?%elem_of_nil].
    intros k. rewrite dom_empty_L. split; [set_solver|].
    by intros (? & ? & ?%elem_of_nil & _). }
  destruct (sector_stats_of_columns_returns data (sector_columns data) ∅ Hret)
    as [out Hout].
  rewrite Hout.
  assert (∀ name s, name ∈ sector_columns data →
    (clean_ratio <$> out) !! (name ++ stat_suffix s)
    = Some (spec_sector_stat column_stat data name s)) as Hlookup.
  { intros name s Hin. rewrite lookup_fmap.
    rewrite (sector_stats_of_columns_lookup _ _ _ _ _ s Hout Hin). simpl.
    unfold spec_sector_stat. f_equal.
    destruct (column_all_na data name); [done|].
    by destruct (column_stat s data name). }
  split; [|done].
  intros k. rewrite dom_fmap_L. split.
  - intros Hk.
    destruct (sector_stats_of_columns_dom _ _ _ _ _ Hout Hk) as [Hk'|]; [|done].
    by rewrite dom_empty_L in Hk'.
  - intros (name & s & Hin & ->). apply elem_of_dom.
    rewrite (sector_stats_of_columns_lookup _ _ _ _ _ s Hout Hin). eauto.
Qed.

Lemma sector_columns_nil data :
  (∀ row, row ∈ data → row.2 = []) → sector_columns data = [].
Proof.
  unfold sector_columns. intros Hrows.
  assert (∀ acc : list string,
    foldl (λ (acc : list string) (row : string * list (string * option float)),
             foldl add_key acc row.2.*1) acc data = acc) as Hfold; [|done].
  induction data as [|row data IH]; intros acc; simpl; [done|].
  rewrite (Hrows row) by (apply elem_of_cons; by left). simpl.
  apply IH. intros row' Hin. apply Hrows, elem_of_cons. by right.
Qed.

Lemma sector_stats_of_columns_raise data columns sector_stats name s e :
  name ∈ columns →
  column_all_na data name = false →
  column_stat s data name = Raise e →
  ∃ e',
    sector_stats_of_columns column_stat data columns sector_stats = Raise e'.
Proof.
  intros Hin Hna Hraise. revert sector_stats.
  induction columns as [|c columns IH]; intros sector_stats;
    cbn [sector_stats_of_columns]; [by apply elem_of_nil in Hin|].
  destruct (sector_stats_of_column column_stat data sector_stats c)
    as [stats'|e'] eqn:Hc; simpl; [|by eexists].
  apply elem_of_cons in Hin as [-> | Hin]; [|by apply IH].
  unfold sector_stats_of_column in Hc. rewrite Hna in Hc. simpl in Hc.
  destruct (column_stat Avg data c) eqn:E1; simpl in Hc; [|done].
  destruct (column_stat Median data c) eqn:E2; simpl in Hc; [|done].
  destruct (column_stat Min data c) eqn:E3; simpl in Hc; [|done].
  destruct (column_stat Max data c) eqn:E4; simpl in Hc; [|done].
  destruct s; congruence.
Qed.

(** X25. [calculate_sector_ratios] returns the empty dictionary when it
    is given no company, when every company's dictionary is empty, and
    when a statistic raises; no value it returns is NaN. *)
Theorem sector_ratios_degenerate
    (data : list (string * list (string * option float))) :
  let result := calculate_sector_ratios column_stat data in
  (data = [] → result = ∅)
  ∧ ((∀ row, row ∈ data → row.2 = []) → result = ∅)
  ∧ (∀ s name e,
       name ∈ sector_columns data →
       column_all_na data name = false →
       column_stat s data name = Raise e →
       result = ∅)
  ∧ (∀ k x, result !! k = Some (Some x) → is_nan x = false).
Proof.
  intros result. subst result. unfold calculate_sector_ratios. split_and!.
  - by intros ->.
  - intros Hrows. case_bool_decide; [done|]. cbv zeta.
    by rewrite (sector_columns_nil _ Hrows).
  - intros s name e Hin Hna Hraise. case_bool_decide; [done|]. cbv zeta.
    case_bool_decide; [done|].
    by destruct (sector_stats_of_columns_raise data _ ∅ _ _ _ Hin Hna Hraise)
      as [e' ->].
  - intros k x. case_bool_decide; [done|]. cbv zeta.
    case_bool_decide; [done|].
    destruct (sector_stats_of_columns _ _ _ _) as [out|e]; [|done].
    rewrite lookup_fmap. destruct (out !! k) as [v|]; simpl; [|done].
    intros [= Hv]. destruct v as [f|]; simpl in Hv; [|done].
    destruct (is_nan f) eqn:Hf; [done|]. by simplify_eq.
Qed.

End SectorProperties.

(** ** The extractor in front of the normaliser *)

Section ExtractorProperties.

Variable float_of_str : string → option float.
Variable to_datetime : list label → res (list label).
Variable fetch :
  string → bool
  → res (option RawFrame * option RawFrame * option RawFrame).

(** The normaliser merges a statement the extractor has cleaned exactly as
    it merges the statement as fetched. *)
Lemma merge_clean_statement acc name df :
  merge_statement to_datetime acc (name, clean_statement to_datetime df)
  = merge_statement to_datetime acc (name, df).
Proof.
  unfold merge_statement, clean_statement; simpl.
  destruct df as [df|]; [|done].
  destruct (raw_empty df) eqn:Hempty; [done|].
  unfold convert_columns.
  destruct (raw_is_datetime df) eqn:Hdt.
  { by rewrite Hempty, Hdt. }
  destruct (to_datetime (raw_columns df).*1) as [new_labels|e] eqn:Hconv.
  2:{ by rewrite Hempty, Hdt, Hconv. }
  case_bool_decide as Hlen.
  2:{ rewrite Hempty, Hdt, Hconv. by rewrite bool_decide_eq_false_2. }
  cbv zeta.
  set (df' := {| raw_index := raw_index df; raw_is_datetime := true;
                 raw_columns := _ |}).
  change (raw_is_datetime df') with true. cbv iota.
  by destruct (raw_empty df').
Qed.

(** X26. [get_financial_statements] always returns the three entries
    income, balance, cashflow, in this order.  When the download succeeds,
    its own conversion of the column labels to dates changes nothing for
    the normaliser: [standardize_statements] gives on the returned
    dictionary what it gives on the three statements as downloaded.  When
    the download raises, the three entries are [None] and the normaliser
    returns [None]. *)
Theorem extractor_conversion_is_harmless (ticker_symbol period : string) :
  let statements :=
    get_financial_statements to_datetime fetch ticker_symbol period in
  statements.*1 = ["income"; "balance"; "cashflow"]
  ∧ match fetched_statements fetch ticker_symbol period with
    | Ok (income, balance, cashflow) =>
        standardize_statements float_of_str to_datetime (Some statements)
        = standardize_statements float_of_str to_datetime
            (Some [("income", income); ("balance", balance);
                   ("cashflow", cashflow)])
    | Raise _ =>
        statements.*2 = [None; None; None]
        ∧ standardize_statements float_of_str to_datetime (Some statements)
          = Ok None
    end.
Proof.
  intros statements. subst statements. unfold get_financial_statements.
  destruct (fetched_statements fetch ticker_symbol period)
    as [[[income balance] cashflow]|e]; [|done].
  split; [done|].
  rewrite !standardize_statements_fold. cbn [fold_res].
  rewrite merge_clean_statement.
  destruct (merge_statement to_datetime [] ("income", income))
    as [after_income|]; [|done]. cbn [mbind res_bind].
  rewrite merge_clean_statement.
  destruct (merge_statement to_datetime after_income ("balance", balance))
    as [after_balance|]; [|done]. cbn [mbind res_bind].
  by rewrite merge_clean_statement.
Qed.

End ExtractorProperties.

(** ** Worked inputs *)

(** C2, on an input where two statements share a label: the income
    statement and the cash-flow statement both carry the row "Net Income"
    for 2023-12-31, with 100 and 200. The merged raw bag of the period
    holds 200, the value of the statement processed last, and so does the
    Standardized Matrix. *)
Theorem merge_same_label_last_wins :
  let statements :=
    [("income", Some (single_cell "Net Income" (PFloat 100)));
     ("cashflow", Some (single_cell "Net Income" (PFloat 200)))] in
  fold_res (merge_statement all_NaT) [] statements =
    Ok [(738885%Z, Some [("Net Income", PFloat 200)])]
  ∧ standardize_statements reject_strings all_NaT (Some statements) =
    Ok (Some {| frame_index := ["net_income"];
                frame_columns := [(fy2023, [200%float])] |}).
Proof. split; reflexivity. Qed.


Lemma historical_ratios_columns_witness :
  column_item sample_matrix [1000%float; 200%float] "net_income"
  = Some 200%float
  ∧ (clean_ratio <$>
       ratio_table (column_item sample_matrix [1000%float; 200%float]))
      !! "Net Margin" = Some (Some 0.2%float)
  ∧ (clean_ratio <$> ratio_table (column_item sample_matrix [nan; nan]))
      !! "Net Margin" = Some None
  ∧ ∃ out,
      calculate_historical_ratios reject_strings (Some sample_matrix)
        = Ok (Some out)
      ∧ (ratio_columns out).*1 = [fy2023; fy2022]
      ∧ Forall2
          (λ col out_col,
             out_col.1 = col.1
             ∧ calculate_single_period_ratios reject_strings
                 (column_series sample_matrix col.2) = Ok out_col.2
             ∧ out_col.2
               = clean_ratio <$> ratio_table (column_item sample_matrix col.2)
             ∧ dom out_col.2 = fourteen_ratios)
          (frame_columns sample_matrix) (ratio_columns out).
Proof.
  split; [by vm_compute|]. split; [by vm_compute|]. split; [by vm_compute|].
  apply (historical_ratios_columns reject_strings sample_matrix).
  - reflexivity.
  - apply (bool_decide_unpack _). vm_compute. exact I.
Defined.



(** C7, on inputs with an infinite side.  An infinite change in cash
    against flows that sum to 5 is within the tolerance of the formula,
    the tolerance being infinite, and the check fails; an infinite change
    in cash against an infinite sum is not within it, the difference
    being NaN, and the check passes. *)
Theorem cash_flow_sum_check_infinite_sides :
  (_get_float reject_strings unbounded_change_in_cash "change_in_cash"
   = Some infinity
   ∧ within_tolerance infinity (5 + 0 + 0) = true
   ∧ verify_financial_consistency reject_strings
       (Some unbounded_change_in_cash) !! "CashFlowSumCheck"
     = Some (Failed (Mismatch "ChangeCash" "SumCF" infinity 5 infinity)))
  ∧ (within_tolerance infinity (infinity + 0 + 0) = false
     ∧ verify_financial_consistency reject_strings
         (Some unbounded_cash_flows) !! "CashFlowSumCheck"
       = Some Passed).
Proof. split_and!; by vm_compute. Qed.

Lemma single_period_ratios_table_witness :
  ∃ ratios,
    calculate_single_period_ratios reject_strings sample_period = Ok ratios
    ∧ ratios !! "Net Margin" = Some (Some 0.2%float)
    ∧ ratios !! "Return on Equity (ROE)" = Some None
    ∧ ratios
      = clean_ratio <$> ratio_table (_get_float reject_strings sample_period)
    ∧ dom ratios = fourteen_ratios.
Proof.
  eexists. split; [reflexivity|].
  split; [by vm_compute|]. split; [by vm_compute|].
  apply (single_period_ratios_table reject_strings sample_period).
  reflexivity.
Defined.

Lemma single_period_ratios_never_nan_witness :
  ∃ ratios,
    calculate_single_period_ratios reject_strings unbounded_period
      = Ok ratios
    ∧ ratios !! "Gross Margin" = Some None
    ∧ ratios !! "Net Margin" = Some (Some 0%float)
    ∧ is_nan 0 = false.
Proof.
  eexists. split; [reflexivity|].
  split; [by vm_compute|]. split; [by vm_compute|].
  eapply (single_period_ratios_never_nan reject_strings unbounded_period _
            "Net Margin"); [reflexivity | by vm_compute].
Defined.

Lemma unusable_denominator_gives_none_witness :
  _get_float reject_strings sample_period "net_income" = Some 200%float
  ∧ _get_float reject_strings sample_period "total_equity" = Some 0%float
  ∧ calculate_single_period_ratios reject_strings overflowing_period
    = Raise OverflowError
  ∧ (∀ ratios,
       calculate_single_period_ratios reject_strings sample_period
       = Ok ratios →
       ratios !! "Return on Equity (ROE)" = Some None)
  ∧ ((∀ item, overflows (mapping_get sample_period item) = false) →
     ∃ ratios,
       calculate_single_period_ratios reject_strings sample_period
       = Ok ratios
       ∧ ratios !! "Return on Equity (ROE)" = Some None)
  ∧ (∀ e,
       calculate_single_period_ratios reject_strings sample_period
       = Raise e →
       e = OverflowError).
Proof.
  split; [by vm_compute|]. split; [by vm_compute|]. split; [by vm_compute|].
  apply (unusable_denominator_gives_none reject_strings sample_period
           "Return on Equity (ROE)" "total_equity").
  - apply (bool_decide_unpack _). by vm_compute.
  - by vm_compute.
Defined.

Lemma quick_ratio_needs_inventory_witness :
  ∃ ratios,
    calculate_single_period_ratios reject_strings sample_period = Ok ratios
    ∧ ratios !! "Current Ratio" = Some (Some 1.6%float)
    ∧ ratios !! "Quick Ratio" = Some None
    ∧ let item := _get_float reject_strings sample_period in
      ratios !! "Quick Ratio" =
        Some match item "current_assets", item "inventory" with
             | Some ca, Some inv =>
                 clean_ratio
                   (spec_division (Some (ca - inv)%float)
                      (item "current_liabilities"))
             | _, _ => None
             end.
Proof.
  eexists. split; [reflexivity|].
  split; [by vm_compute|]. split; [by vm_compute|].
  apply (quick_ratio_needs_inventory reject_strings sample_period).
  reflexivity.
Defined.

Lemma roce_capital_employed_witness :
  ∃ ratios,
    calculate_single_period_ratios reject_strings sample_period = Ok ratios
    ∧ ratios !! "Return on Capital Employed (ROCE)" = Some None
    ∧ let item := _get_float reject_strings sample_period in
      ratios !! "Return on Capital Employed (ROCE)" =
        Some match item "total_assets", item "current_liabilities" with
             | Some assets, Some cl =>
                 clean_ratio
                   (spec_division (item "operating_income")
                      (Some (assets - cl)%float))
             | _, _ => None
             end
      ∧ (∀ assets cl,
           item "total_assets" = Some assets →
           item "current_liabilities" = Some cl →
           (assets =? cl)%float = true →
           ratios !! "Return on Capital Employed (ROCE)" = Some None).
Proof.
  eexists. split; [reflexivity|]. split; [by vm_compute|].
  apply (roce_capital_employed reject_strings sample_period).
  reflexivity.
Defined.

Lemma engines_read_canonical_items_witness :
  run_checks reject_strings labelled_period
    = run_checks reject_strings unlabelled_period
  ∧ calculate_single_period_ratios reject_strings labelled_period
    = calculate_single_period_ratios reject_strings unlabelled_period.
Proof.
  apply (engines_read_canonical_items reject_strings labelled_period
           unlabelled_period).
  intros key Hkey. vm_compute in Hkey.
  repeat (apply elem_of_cons in Hkey as [-> | Hkey]; [reflexivity|]).
  by apply elem_of_nil in Hkey.
Defined.

Lemma historical_ratios_none_iff_empty_witness :
  (∃ r, calculate_historical_ratios reject_strings (Some sample_standardized)
        = Ok r)
  ∧ (calculate_historical_ratios reject_strings (Some sample_standardized)
     = Ok None
     ↔ ∀ df, Some sample_standardized = Some df → frame_empty df = true).
Proof.
  apply (historical_ratios_none_iff_empty reject_strings
           (Some sample_standardized)).
  intros df [= <-]. apply (bool_decide_unpack _). by vm_compute.
Defined.

Lemma unusable_statement_ignored_witness :
  let income := ("income", Some (single_cell "Net Income" (PFloat 100))) in
  convert_columns all_NaT unparsed_balance
  = Some {| raw_index := ["Total Assets"];
            raw_is_datetime := true;
            raw_columns := [(LNaT, [PFloat 5000])] |}
  ∧ standardize_statements reject_strings all_NaT
      (Some [income; ("balance", Some unparsed_balance)])
    = standardize_statements reject_strings all_NaT (Some [income])
  ∧ convert_columns failing_parser unparsed_balance = None
  ∧ standardize_statements reject_strings failing_parser
      (Some [("balance", Some unparsed_balance); income])
    = standardize_statements reject_strings failing_parser (Some [income]).
Proof.
  split; [reflexivity|]. split; [|split; [reflexivity|]].
  - apply (unusable_statement_ignored reject_strings all_NaT
             [("income", Some (single_cell "Net Income" (PFloat 100)))] []
             "balance" (Some unparsed_balance)).
    right. reflexivity.
  - apply (unusable_statement_ignored reject_strings failing_parser []
             [("income", Some (single_cell "Net Income" (PFloat 100)))]
             "balance" (Some unparsed_balance)).
    right. exact I.
Defined.

Lemma standardized_columns_latest_first_witness :
  standardize_statements reject_strings all_NaT (Some sample_statements)
    = Ok (Some sample_standardized)
  ∧ let columns := (frame_columns sample_standardized).*1 in
    (∀ ts, ts ∈ columns → ts_time ts = 0%N)
    ∧ (∀ i j earlier later,
         (i < j)%nat →
         columns !! i = Some later → columns !! j = Some earlier →
         (ts_day earlier < ts_day later)%Z)
    ∧ ∃ latest,
        head columns = Some latest
        ∧ ∀ ts, ts ∈ columns → (ts_day ts ≤ ts_day latest)%Z.
Proof.
  split; [by vm_compute|].
  apply (standardized_columns_latest_first reject_strings all_NaT
           sample_statements sample_standardized).
  by vm_compute.
Defined.

Lemma standardized_matrix_well_formed_witness :
  NoDup (frame_index sample_standardized)
  ∧ (∀ key, key ∈ frame_index sample_standardized →
            key ∈ FINANCIAL_ITEM_MAPPING.*1)
  ∧ NoDup (frame_columns sample_standardized).*1
  ∧ (∀ ts cells, (ts, cells) ∈ frame_columns sample_standardized →
                 length cells = length (frame_index sample_standardized)).
Proof.
  apply (standardized_matrix_well_formed reject_strings all_NaT
           sample_statements sample_standardized).
  by vm_compute.
Defined.

Lemma matrix_columns_are_canonical_vectors_witness :
  (∀ ts cells,
     (ts, cells) ∈ frame_columns sample_standardized →
     ∃ d,
       canonical_vector reject_strings all_NaT sample_statements (ts_day ts) d
       ∧ d ≠ []
       ∧ cells = (λ key, default nan (dict_get d key))
                   <$> frame_index sample_standardized)
  ∧ (∀ p d,
       canonical_vector reject_strings all_NaT sample_statements p d →
       d ≠ [] →
       (∀ key, key ∈ d.*1 → key ∈ frame_index sample_standardized)
       ∧ (to_datetime_Ymd p,
          (λ key, default nan (dict_get d key))
            <$> frame_index sample_standardized)
         ∈ frame_columns sample_standardized).
Proof.
  apply (matrix_columns_are_canonical_vectors reject_strings all_NaT
           sample_statements sample_standardized).
  by vm_compute.
Defined.

Lemma matrix_cell_provenance_witness :
  ∃ synonyms yf_key value_raw,
    dict_get FINANCIAL_ITEM_MAPPING "cash" = Some synonyms
    ∧ yf_key ∈ synonyms
    ∧ raw_cell all_NaT sample_statements 738885 yf_key value_raw
    ∧ pd_notna value_raw = true
    ∧ py_float reject_strings value_raw = Ok 300%float.
Proof.
  apply (matrix_cell_provenance reject_strings all_NaT sample_statements
           sample_standardized fy2023
           [1000%float; 200%float; 300%float; 5000%float] 2 "cash").
  - by vm_compute.
  - apply elem_of_cons. left. reflexivity.
  - reflexivity.
  - reflexivity.
  - reflexivity.
Defined.

Lemma standardize_statements_exceptions_witness :
  let statements :=
    Some [("income", Some (single_cell "Total Revenue" (PInt (10 ^ 400))))] in
  standardize_statements reject_strings all_NaT statements
    = Raise OverflowError
  ∧ standardize_statements reject_strings all_NaT
      (Some [("balance", Some repeated_date_statement)])
    = Raise ValueError
  ∧ ∃ stmts,
      statements = Some stmts
      ∧ ((OverflowError = ValueError
          ∧ Exists (λ stmt, repeats_date all_NaT stmt.2) stmts)
         ∨ (OverflowError = OverflowError
            ∧ ¬ Exists (λ stmt, repeats_date all_NaT stmt.2) stmts
            ∧ ∃ p key synonyms yf_key value_raw,
                dict_get FINANCIAL_ITEM_MAPPING key = Some synonyms
                ∧ yf_key ∈ synonyms
                ∧ raw_cell all_NaT stmts p yf_key value_raw
                ∧ overflows value_raw = true)).
Proof.
  split; [by vm_compute|]. split.
  - eapply (standardize_statements_exceptions reject_strings all_NaT);
      [reflexivity|].
    apply (bool_decide_unpack _). vm_compute. exact I.
  - apply (standardize_statements_exceptions reject_strings all_NaT).
    by vm_compute.
Defined.

Lemma standardized_matrix_ratios_witness :
  ∃ out,
    calculate_historical_ratios reject_strings (Some sample_standardized)
      = Ok (Some out)
    ∧ (ratio_columns out).*1 = (frame_columns sample_standardized).*1
    ∧ ∀ ts ratios,
        (ts, ratios) ∈ ratio_columns out →
        ∃ d,
          canonical_vector reject_strings all_NaT sample_statements
            (ts_day ts) d
          ∧ ratios
            = clean_ratio <$> ratio_table (λ key, present (dict_get d key)).
Proof.
  apply (standardized_matrix_ratios reject_strings all_NaT sample_statements
           sample_standardized).
  by vm_compute.
Defined.

Lemma latest_period_is_checked_witness :
  ∃ latest cells d,
    head (frame_columns sample_standardized) = Some (latest, cells)
    ∧ latest_period_data sample_standardized
      = Some (column_series sample_standardized cells)
    ∧ (∀ ts, ts ∈ (frame_columns sample_standardized).*1 →
             (ts_day ts ≤ ts_day latest)%Z)
    ∧ canonical_vector reject_strings all_NaT sample_statements
        (ts_day latest) d
    ∧ (∀ key,
         _get_float reject_strings (column_series sample_standardized cells)
           key
         = present (dict_get d key))
    ∧ verify_financial_consistency reject_strings
        (latest_period_data sample_standardized)
      = run_checks reject_strings (column_series sample_standardized cells)
    ∧ dom (verify_financial_consistency reject_strings
             (latest_period_data sample_standardized)) = six_checks
    ∧ calculate_single_period_ratios reject_strings
        (column_series sample_standardized cells)
      = Ok (clean_ratio <$> ratio_table (λ key, present (dict_get d key))).
Proof.
  apply (latest_period_is_checked reject_strings all_NaT sample_statements
           sample_standardized).
  by vm_compute.
Defined.

Lemma sector_ratios_entries_witness :
  let result :=
    calculate_sector_ratios single_company_stat one_company_sector in
  result !! "Net Margin_Avg" = Some (Some 0.25%float)
  ∧ result !! "Current Ratio_Max" = Some None
  ∧ (∀ k, k ∈ dom result
          ↔ ∃ name s, name ∈ sector_columns one_company_sector
                      ∧ k = name ++ stat_suffix s)
  ∧ (∀ name s,
       name ∈ sector_columns one_company_sector →
       result !! (name ++ stat_suffix s)
       = Some (spec_sector_stat single_company_stat one_company_sector
                 name s)).
Proof.
  split; [by vm_compute|]. split; [by vm_compute|].
  apply (sector_ratios_entries single_company_stat one_company_sector).
  intros s name _ _. unfold single_company_stat, one_company_sector.
  destruct (dict_get _ name) as [[x|]|]; by eexists.
Defined.
